(** * Finance tracker: the aggregation engine, embedded and verified

    The derived values of the dashboard components
    ([src/components/TransactionsList.jsx], [src/components/StatsView.jsx])
    are embedded as Rocq functions: the type/category/text/date filter, the
    income and expense totals, the 30-day rolling series, the top categories,
    the expenses of the current month, the budget figures and the zero-filled
    daily series of the older list component.

    Conventions of the embedding.
    - Amounts are whole VND ([Z]); the forms only accept digits.  Ratios
      are exact rationals ([Q]).
    - A JavaScript [Date] is reduced to what the code reads from it, the
      number of its local calendar day counted from 1970-01-01; the getters
      and [setDate] follow the ECMAScript abstract operations
      (DayFromYear, YearFromTime, MonthFromTime, DateFromTime, MakeDay).
    - An absent property ([undefined]) is [None].
    - A plain object used as a dictionary keeps its own keys apart from the
      names it inherits from [Object.prototype], and lists its own keys the
      way [Object.values] does. *)

From Stdlib Require Import ZArith QArith Qround Lia Ascii Sorted Permutation.
From stdpp Require Import base option list gmap strings pretty.

Local Open Scope Z_scope.

(** ** ECMAScript calendar arithmetic *)

Module JSDate.

(** Day number of the first day of year [y]. *)
Definition DayFromYear (y : Z) : Z :=
  365 * (y - 1970) + (y - 1969) / 4 - (y - 1901) / 100 + (y - 1601) / 400.

Definition isLeap (y : Z) : bool :=
  (y mod 4 =? 0) && (negb (y mod 100 =? 0) || (y mod 400 =? 0)).

Definition DaysInYear (y : Z) : Z := if isLeap y then 366 else 365.

Definition InLeapYear (y : Z) : Z := if isLeap y then 1 else 0.

(** YearFromTime: the largest year whose first day is not after [d].  The
    estimate from the mean year length is off by at most one; that the
    result is that year is [YearFromDay_spec] and [YearFromDay_unique]. *)
Definition YearFromDay (d : Z) : Z :=
  let y0 := 1970 + (400 * d) / 146097 in
  if d <? DayFromYear y0 then y0 - 1
  else if DayFromYear (y0 + 1) <=? d then y0 + 1
  else y0.

Definition DayWithinYear (d : Z) : Z := d - DayFromYear (YearFromDay d).

(** Offset of the first day of month [m] (0-based) inside its year. *)
Definition monthStart (leap m : Z) : Z :=
  match m with
  | 0 => 0
  | 1 => 31
  | 2 => 59 + leap
  | 3 => 90 + leap
  | 4 => 120 + leap
  | 5 => 151 + leap
  | 6 => 181 + leap
  | 7 => 212 + leap
  | 8 => 243 + leap
  | 9 => 273 + leap
  | 10 => 304 + leap
  | _ => 334 + leap
  end.

(** MonthFromTime, on the day within the year. *)
Definition monthOfYearDay (leap w : Z) : Z :=
  if w <? 31 then 0
  else if w <? 59 + leap then 1
  else if w <? 90 + leap then 2
  else if w <? 120 + leap then 3
  else if w <? 151 + leap then 4
  else if w <? 181 + leap then 5
  else if w <? 212 + leap then 6
  else if w <? 243 + leap then 7
  else if w <? 273 + leap then 8
  else if w <? 304 + leap then 9
  else if w <? 334 + leap then 10
  else 11.

(** A Date, as far as this program looks at it: its local day number. *)
Definition Date := Z.

Definition getFullYear (d : Date) : Z := YearFromDay d.

Definition getMonth (d : Date) : Z :=
  monthOfYearDay (InLeapYear (YearFromDay d)) (DayWithinYear d).

Definition getDate (d : Date) : Z :=
  let leap := InLeapYear (YearFromDay d) in
  DayWithinYear d - monthStart leap (monthOfYearDay leap (DayWithinYear d)) + 1.

(** MakeDay(year, month, date): months outside 0..11 carry into the year,
    the day of the month is added linearly. *)
Definition MakeDay (year month date : Z) : Z :=
  let ym := year + month / 12 in
  let mn := month mod 12 in
  DayFromYear ym + monthStart (InLeapYear ym) mn + date - 1.

(** [d.setDate(dt)] *)
Definition setDate (d : Date) (dt : Z) : Date :=
  MakeDay (getFullYear d) (getMonth d) dt.

(** [new Date(year, month, date)]: a year in 0..99 means 1900 + year. *)
Definition newDate (year month date : Z) : Date :=
  MakeDay (if (0 <=? year) && (year <=? 99) then 1900 + year else year)
          month date.

(** Length of month [m] (0-based) of year [y], from the calendar table. *)
Definition daysInMonth (y m : Z) : Z :=
  match m with
  | 1 => if isLeap y then 29 else 28
  | 3 | 5 | 8 | 10 => 30
  | _ => 31
  end.

End JSDate.

(** ** JavaScript strings, as far as the components use them *)

Module JSString.

Fixpoint repeat_char (n : nat) (c : ascii) : string :=
  match n with
  | O => EmptyString
  | S n' => String c (repeat_char n' c)
  end.

(** [s.padStart(n, c)] for a one-character filler. *)
Definition padStart (n : nat) (c : ascii) (s : string) : string :=
  repeat_char (n - String.length s) c +:+ s.

(** [String(z)] for an integer. *)
Definition ofInt (z : Z) : string := pretty z.

Definition lower_char (c : ascii) : ascii :=
  let n := Ascii.N_of_ascii c in
  if ((65 <=? n) && (n <=? 90))%N then Ascii.ascii_of_N (n + 32) else c.

(** [s.toLowerCase()], on the ASCII letters; strings are byte strings here
    and every other character is left as it is. *)
Fixpoint toLowerCase (s : string) : string :=
  match s with
  | EmptyString => EmptyString
  | String c s' => String (lower_char c) (toLowerCase s')
  end.

(** [s.includes(sub)] *)
Fixpoint includes (s sub : string) : bool :=
  String.prefix sub s ||
  match s with
  | EmptyString => false
  | String _ s' => includes s' sub
  end.

(** [!s] on a string: only the empty string is falsy. *)
Definition falsy (s : string) : bool :=
  match s with EmptyString => true | _ => false end.

(** [!v] on an optional string: absent and empty are falsy. *)
Definition absent (v : option string) : bool :=
  match v with Some s => falsy s | None => true end.

(** [a <= b] on two strings compares code units lexicographically. *)
Definition le (a b : string) : bool := String.leb a b.

(** Property key of an optional string value: [undefined] names the
    property "undefined". *)
Definition key (v : option string) : string := default "undefined" v.

(** Decimal digits of a canonical numeric string. *)
Definition digit (c : ascii) : option N :=
  let n := Ascii.N_of_ascii c in
  if ((48 <=? n) && (n <=? 57))%N then Some (n - 48)%N else None.

Fixpoint digits (acc : N) (s : string) : option N :=
  match s with
  | EmptyString => Some acc
  | String c s' =>
      match digit c with
      | Some v => digits (10 * acc + v)%N s'
      | None => None
      end
  end.

End JSString.

(** ** Date labels *)

Import JSDate.

(** [pad] of [toISO]: [String(n).padStart(2, '0')] *)
Definition pad (n : Z) : string := JSString.padStart 2 "0" (JSString.ofInt n).

(** [toISO(d)]: local [YYYY-MM-DD], the year printed as it is. *)
Definition toISO (d : Date) : string :=
  JSString.ofInt (getFullYear d) +:+ "-" +:+ pad (getMonth d + 1) +:+ "-" +:+
  pad (getDate d).

(** [daysAgo(n)], the clock read as [now]. *)
Definition daysAgo (now : Date) (n : Z) : string :=
  toISO (setDate now (getDate now - n)).

(** [format(d, 'yyyy-MM-dd')] of date-fns: the year of the era on at least
    four digits, month and day on two. *)
Definition format_yyyy_MM_dd (d : Date) : string :=
  let signedYear := getFullYear d in
  let year := if 0 <? signedYear then signedYear else 1 - signedYear in
  JSString.padStart 4 "0" (JSString.ofInt year) +:+ "-" +:+
  pad (getMonth d + 1) +:+ "-" +:+ pad (getDate d).

(** ** Records of the tracker (FinanceTrackerApp) *)

(** A transaction as the snapshot delivers it.  [type], [note] and [date]
    may be absent; dates are [YYYY-MM-DD] strings written by the form. *)
Record Transaction := {
  t_id : string;
  t_type : option string;
  t_amount : Z;
  t_category : string;
  t_note : option string;
  t_date : option string;
}.

(** The filter state of the view. *)
Record Filters := {
  typeFilter : string;
  categoryFilter : string;
  queryText : string;
  startDate : string;
  endDate : string;
}.

(** [t.type === s] *)
Definition type_is (t : Transaction) (s : string) : bool :=
  bool_decide (t_type t = Some s).

(** [x || dflt] on an optional string: absent and empty both fall back. *)
Definition or_else (x : option string) (dflt : string) : string :=
  match x with
  | Some s => if JSString.falsy s then dflt else s
  | None => dflt
  end.

(** The effective type of the data model: [t.type || 'expense']. *)
Definition effective_type (ty : option string) : string := or_else ty "expense".

(** [t.date >= bound] and [t.date <= bound]: an absent date compares as NaN. *)
Definition date_ge (d : option string) (bound : string) : bool :=
  match d with Some s => JSString.le bound s | None => false end.

Definition date_le (d : option string) (bound : string) : bool :=
  match d with Some s => JSString.le s bound | None => false end.

Definition inType (f : Filters) (t : Transaction) : bool :=
  bool_decide (typeFilter f = "all"%string) || type_is t (typeFilter f).

Definition inCategory (f : Filters) (t : Transaction) : bool :=
  bool_decide (categoryFilter f = "all"%string) ||
  bool_decide (t_category t = categoryFilter f).

Definition inText (f : Filters) (t : Transaction) : bool :=
  JSString.falsy (queryText f) ||
  JSString.includes (JSString.toLowerCase (or_else (t_note t) ""))
                    (JSString.toLowerCase (queryText f)).

Definition inDate (f : Filters) (t : Transaction) : bool :=
  (JSString.falsy (startDate f) || date_ge (t_date t) (startDate f)) &&
  (JSString.falsy (endDate f) || date_le (t_date t) (endDate f)).

(** [filtered]: the [transactions.filter(...)] of the view. *)
Definition filtered (f : Filters) (transactions : list Transaction)
  : list Transaction :=
  List.filter (fun t => inType f t && inCategory f t && inText f t && inDate f t)
              transactions.

(** The operation the specification calls applyFilters. *)
Definition applyFilters (transactions : list Transaction) (f : Filters)
  : list Transaction := filtered f transactions.

(** ** Totals *)

Record Sums := { income : Z; expense : Z; balance : Z }.

(** [sums]: one pass with two accumulators, whatever is not income is
    counted as expense. *)
Definition sums (filtered : list Transaction) : Sums :=
  let '(income, expense) :=
    fold_left (fun '(income, expense) t =>
                 if type_is t "income" then (income + t_amount t, expense)
                 else (income, expense + t_amount t))
              filtered (0, 0) in
  {| income := income; expense := expense; balance := income - expense |}.

(** Records of the older list and statistics components: the date is a
    store timestamp, read through [toDate()] as a local Date. *)
Module Legacy.

Record Transaction := {
  type : option string;
  amount : Z;
  category : string;
  wallet : option string;
  date : Date;
}.

(** [xs.reduce((a, t) => a + t.amount, 0)] *)
Definition reduce_amount (xs : list Transaction) : Z :=
  fold_left (fun a t => a + amount t) xs 0.

Definition is_income (t : Transaction) : bool :=
  bool_decide (type t = Some "income"%string).

Definition is_expense (t : Transaction) : bool :=
  bool_decide (effective_type (type t) = "expense"%string).

Definition totalIncome (transactions : list Transaction) : Z :=
  reduce_amount (List.filter is_income transactions).

Definition totalExpense (transactions : list Transaction) : Z :=
  reduce_amount (List.filter is_expense transactions).

Definition totalBalance (transactions : list Transaction) : Z :=
  totalIncome transactions - totalExpense transactions.

End Legacy.

(** What the specification says totalsByType computes, over any record
    shape: the sum of the amounts of the records typed income, the sum over
    the records whose effective type is expense, and their difference. *)
Section TotalsSpec.
Context {A : Type} (ty : A -> option string) (amt : A -> Z).

Definition sum_where (p : A -> bool) (xs : list A) : Z :=
  foldr Z.add 0 (map amt (List.filter p xs)).

Definition totalsByType_spec (xs : list A) : Sums :=
  let i := sum_where (fun t => bool_decide (ty t = Some "income"%string)) xs in
  let e := sum_where
             (fun t => bool_decide (effective_type (ty t) = "expense"%string))
             xs in
  {| income := i; expense := e; balance := i - e |}.

End TotalsSpec.

(** The type field of a well-formed record: absent, income or expense. *)
Definition well_typed (t : Transaction) : Prop :=
  t_type t = None \/ t_type t = Some "income"%string \/
  t_type t = Some "expense"%string.

(** ** The 30-day series ([chartDaily]) *)

Record DayEntry := {
  d_date : string;
  d_income : Z;
  d_expense : Z;
  d_net : Z;
}.

(** The values of [i] in [for (let i = 29; i >= 0; i--)]. *)
Definition window_counter : list Z := map Z.of_nat (rev (seq 0 30)).

(** First loop: push the label of each day and give it a zero entry. *)
Definition chart_init (now : Date) : list string * gmap string DayEntry :=
  fold_left
    (fun '(dates, map) i =>
       let d := daysAgo now i in
       (dates ++ [d],
        <[d := {| d_date := d; d_income := 0; d_expense := 0; d_net := 0 |}]> map))
    window_counter ([], ∅).

(** Body of the second loop.  [map[t.date]] finds an entry only under a key
    the first loop wrote; an absent date reads the key "undefined".  A key
    inherited from [Object.prototype] is truthy too, but then the writes
    land on that built-in object and no entry of [map] changes. *)
Definition chart_add (map : gmap string DayEntry) (t : Transaction)
  : gmap string DayEntry :=
  let k := JSString.key (t_date t) in
  match map !! k with
  | Some e =>
      let income := if type_is t "income" then d_income e + t_amount t
                    else d_income e in
      let expense := if type_is t "income" then d_expense e
                     else d_expense e + t_amount t in
      <[k := {| d_date := d_date e; d_income := income; d_expense := expense;
                d_net := income - expense |}]> map
  | None => map
  end.

(** [chartDaily]: [dates.map((d) => map[d])]; [None] would be an
    [undefined] element. *)
Definition chartDaily (now : Date) (filtered : list Transaction)
  : list (option DayEntry) :=
  let '(dates, map0) := chart_init now in
  let map := fold_left chart_add filtered map0 in
  List.map (fun d => map !! d) dates.

(** The operation the specification calls rollingWindowSeries, for the
    window of 30 days the code fixes. *)
Definition rollingWindowSeries (transactions : list Transaction) (now : Date)
  (f : Filters) : list (option DayEntry) :=
  chartDaily now (filtered f transactions).

(** ** Top categories ([byCategory]) *)

Record Slot := { s_category : string; s_expense : Z }.

(** Property names every plain object inherits from [Object.prototype]. *)
Definition inherited_names : list string :=
  ["constructor"; "__defineGetter__"; "__defineSetter__"; "hasOwnProperty";
   "__lookupGetter__"; "__lookupSetter__"; "isPrototypeOf";
   "propertyIsEnumerable"; "toString"; "valueOf"; "__proto__";
   "toLocaleString"]%string.

Definition inherited (k : string) : bool := bool_decide (k ∈ inherited_names).

(** The own properties of a dictionary object, in insertion order. *)
Definition own_lookup {V} (k : string) (o : list (string * V)) : option V :=
  snd <$> List.find (fun p => String.eqb (fst p) k) o.

Definition own_alter {V} (f : V -> V) (k : string) (o : list (string * V))
  : list (string * V) :=
  map (fun p => if String.eqb (fst p) k then (fst p, f (snd p)) else p) o.

(** Body of the loop:
    [const slot = (agg[t.category] ||= { category, expense: 0 });
     slot.expense += t.amount].
    Under an inherited name [agg[t.category]] is already truthy, nothing is
    assigned and the sum goes to the built-in object. *)
Definition agg_step (agg : list (string * Slot)) (t : Transaction)
  : list (string * Slot) :=
  if negb (type_is t "expense") then agg
  else
    let k := t_category t in
    let add slot := {| s_category := s_category slot;
                       s_expense := s_expense slot + t_amount t |} in
    match own_lookup k agg with
    | Some _ => own_alter add k agg
    | None =>
        if inherited k then agg
        else agg ++ [(k, add {| s_category := k; s_expense := 0 |})]
    end.

(** An array index is the canonical decimal form of an integer below
    2^32 - 1. *)
Definition arrayIndex (k : string) : option N :=
  match JSString.digits 0 k with
  | Some n =>
      if String.eqb (pretty n) k && (n <? 4294967295)%N then Some n else None
  | None => None
  end.

(** Stable insertion sort: [le x y] says that [x] may stand before [y]. *)
Fixpoint insert_sorted {A} (le : A -> A -> bool) (x : A) (l : list A) : list A :=
  match l with
  | [] => [x]
  | y :: l' => if le x y then x :: l else y :: insert_sorted le x l'
  end.

Definition stable_sort {A} (le : A -> A -> bool) (l : list A) : list A :=
  foldr (insert_sorted le) [] l.

(** [arr.sort(cmp)]: the sort is stable, and for a consistent comparator the
    stable sorted arrangement is unique, whatever algorithm the engine runs. *)
Definition Array_sort {A} (cmp : A -> A -> Z) (arr : list A) : list A :=
  stable_sort (fun a b => cmp a b <=? 0) arr.

(** [Object.values(o)]: array-index keys first, by ascending number, then
    the other keys in insertion order. *)
Definition Object_values {V} (o : list (string * V)) : list V :=
  let indexed :=
    omap (fun p => (fun n => (n, snd p)) <$> arrayIndex (fst p)) o in
  let named := List.filter (fun p => bool_decide (arrayIndex (fst p) = None)) o in
  map snd (stable_sort (fun a b => (fst a <=? fst b)%N) indexed) ++ map snd named.

Definition agg_of (filtered : list Transaction) : list (string * Slot) :=
  fold_left agg_step filtered [].

(** [byCategory]:
    [Object.values(agg).sort((a, b) => b.expense - a.expense).slice(0, 10)] *)
Definition byCategory (filtered : list Transaction) : list Slot :=
  take 10 (Array_sort (fun a b => s_expense b - s_expense a)
                      (Object_values (agg_of filtered))).

(** ** Expenses of the current month ([monthlyExpenses]) *)

(** [currentMonth]: [{ year: now.getFullYear(), month: now.getMonth() }] *)
Definition currentMonth (now : Date) : Z * Z := (getFullYear now, getMonth now).

Section Host.
(** [new Date(s)] for a string, as the host reads it in local time; [None]
    is an Invalid Date ([getTime()] is NaN). *)
Variable DateParse : string -> option Date.

Definition monthlyExpenses (current : Z * Z) (transactions : list Transaction)
  : Z :=
  let '(year, month) := current in
  fold_left
    (fun total t =>
       if negb (type_is t "expense") || JSString.absent (t_date t)
       then total
       else
         match DateParse (JSString.key (t_date t)) with
         | None => total
         | Some d =>
             if (getFullYear d =? year) && (getMonth d =? month)
             then total + t_amount t
             else total
         end)
    transactions 0.

End Host.

(** A host that reads the date-only form [YYYY-MM-DD] of a real calendar
    day as that local day (UTC midnight, seen from a zone at or east of
    Greenwich) and takes every other string as invalid. *)
Definition isoDateOnly (s : string) : option Date :=
  if negb (String.length s =? 10)%nat then None
  else
    match JSString.digits 0 (String.substring 0 4 s),
          JSString.digits 0 (String.substring 5 2 s),
          JSString.digits 0 (String.substring 8 2 s) with
    | Some y, Some m, Some d =>
        let y := Z.of_N y in let m := Z.of_N m in let d := Z.of_N d in
        if String.eqb (String.substring 4 1 s) "-" &&
           String.eqb (String.substring 7 1 s) "-" &&
           (1 <=? m) && (m <=? 12) && (1 <=? d) && (d <=? daysInMonth y (m - 1))
        then Some (MakeDay y (m - 1) d)
        else None
    | _, _, _ => None
    end.

(** ** Budget figures *)

(** [Math.round]: the nearest integer, halves upwards. *)
Definition Math_round (q : Q) : Z := Qfloor (q + (1 # 2))%Q.

(** [Math.min(a, b)] on rationals. *)
Definition Math_min (a b : Q) : Q := if Qle_bool a b then a else b.

Definition budgetIsSet (monthlyBudget : option Z) : bool :=
  match monthlyBudget with
  | Some b => 0 <? b
  | None => false
  end.

Definition budgetRemaining (monthlyBudget : option Z) (monthlyExpenses : Z)
  : option Z :=
  if budgetIsSet monthlyBudget
  then (fun b => b - monthlyExpenses) <$> monthlyBudget
  else None.

Definition budgetSpentRatio (monthlyBudget : option Z) (monthlyExpenses : Z) : Q :=
  match monthlyBudget with
  | Some b =>
      if budgetIsSet monthlyBudget && (0 <? b)
      then Math_min 1 (inject_Z monthlyExpenses / inject_Z b)%Q
      else 0%Q
  | None => 0%Q
  end.

Definition budgetProgressPercent (monthlyBudget : option Z) (monthlyExpenses : Z)
  : Z :=
  Z.min 100
    (Z.max 0 (Math_round (budgetSpentRatio monthlyBudget monthlyExpenses * 100)%Q)).

(** [monthlyBalanceHighlight === 'rose']: the balance is there and negative. *)
Definition monthlyBalanceRose (monthlyBudget : option Z) (monthlyExpenses : Z)
  : bool :=
  let monthlyExpenseBalance :=
    if budgetIsSet monthlyBudget
    then budgetRemaining monthlyBudget monthlyExpenses else None in
  match monthlyExpenseBalance with
  | Some r => r <? 0
  | None => false
  end.

Record BudgetStatus := {
  isSet : bool;
  remaining : option Z;
  spentRatio : Q;
  percent : Z;
  isOverBudget : bool;
}.

(** The operation the specification calls deriveBudgetStatus, assembled
    from the constants of the component. *)
Definition deriveBudgetStatus (monthlyBudget : option Z) (monthlyExpense : Z)
  : BudgetStatus :=
  {| isSet := budgetIsSet monthlyBudget;
     remaining := budgetRemaining monthlyBudget monthlyExpense;
     spentRatio := budgetSpentRatio monthlyBudget monthlyExpense;
     percent := budgetProgressPercent monthlyBudget monthlyExpense;
     isOverBudget := monthlyBalanceRose monthlyBudget monthlyExpense |}.

(** ** Daily expenses of the current month (older list component) *)

Module Daily.
Import Legacy.

(** [expenseTx] *)
Definition expenseTx (transactions : list Transaction) : list Transaction :=
  List.filter is_expense transactions.

(** [monthExpenseTx] *)
Definition monthExpenseTx (currentYear currentMonth : Z)
  (transactions : list Transaction) : list Transaction :=
  List.filter
    (fun t => (getMonth (date t) =? currentMonth) &&
              (getFullYear (date t) =? currentYear))
    (expenseTx transactions).

(** [obj[key] || 0] on a dictionary of sums. *)
Definition get_or_0 (o : gmap string Z) (k : string) : Z := default 0 (o !! k).

(** [byDate] *)
Definition byDate (currentYear currentMonth : Z)
  (transactions : list Transaction) : gmap string Z :=
  fold_left
    (fun byDate tx =>
       let key := format_yyyy_MM_dd (date tx) in
       <[key := get_or_0 byDate key + amount tx]> byDate)
    (monthExpenseTx currentYear currentMonth transactions) ∅.

(** [new Date(currentYear, currentMonth + 1, 0).getDate()] *)
Definition daysInMonth (currentYear currentMonth : Z) : Z :=
  getDate (newDate currentYear (currentMonth + 1) 0).

(** [Array.from({ length: daysInMonth }, (_, i) => format(new Date(...)))] *)
Definition dateLabels (currentYear currentMonth : Z) : list string :=
  map (fun i => format_yyyy_MM_dd (newDate currentYear currentMonth (i + 1)))
      (seqZ 0 (daysInMonth currentYear currentMonth)).

(** The data of the line chart: [dateLabels.map(date => byDate[date] || 0)] *)
Definition lineData (currentYear currentMonth : Z)
  (transactions : list Transaction) : list Z :=
  map (get_or_0 (byDate currentYear currentMonth transactions))
      (dateLabels currentYear currentMonth).

(** The operation the specification calls dailySeriesForMonth: the labels
    paired with the data.  [currentMonth] is the 0-based month of
    JavaScript, so February is 1. *)
Definition dailySeriesForMonth (transactions : list Transaction)
  (currentYear currentMonth : Z) : list (string * Z) :=
  zip (dateLabels currentYear currentMonth)
      (lineData currentYear currentMonth transactions).

End Daily.

(** ** The same operations over a store of objects

    Records and arrays are JavaScript objects: they live in a store and are
    passed by reference.  The operations below are the same code with its
    allocations, reads and writes made explicit, so that what a call leaves
    in the store can be compared with what was there before. *)

Module Store.

Definition loc := positive.

(** An array element or variable holding an object. *)
Inductive val :=
| Undefined
| Ref (l : loc).

Inductive obj :=
| OTx (t : Transaction)
| OLegacyTx (t : Legacy.Transaction)
| OArr (els : list val)
| OEntry (e : DayEntry)
| OSlot (s : Slot).

Abbreviation heap := (gmap loc obj).

(** Computations on the store; [None] is a thrown TypeError. *)
Definition M (A : Type) : Type := heap -> option (A * heap).

Definition ret {A} (a : A) : M A := fun h => Some (a, h).

Definition bind {A B} (m : M A) (k : A -> M B) : M B :=
  fun h => match m h with
           | Some (a, h') => k a h'
           | None => None
           end.

Definition fail {A} : M A := fun _ => None.

Notation "x <- c ;; k" := (bind c (fun x => k))
  (at level 100, c at next level, right associativity).

Definition alloc (o : obj) : M loc :=
  fun h => let l := fresh (dom h) in Some (l, <[l := o]> h).

Definition read (l : loc) : M obj :=
  fun h => match h !! l with
           | Some o => Some (o, h)
           | None => None
           end.

Definition write (l : loc) (o : obj) : M unit :=
  fun h => match h !! l with
           | Some _ => Some (tt, <[l := o]> h)
           | None => None
           end.

Definition read_arr (l : loc) : M (list val) :=
  o <- read l ;; match o with OArr els => ret els | _ => fail end.

Definition read_tx (v : val) : M Transaction :=
  match v with
  | Ref l => o <- read l ;; match o with OTx t => ret t | _ => fail end
  | Undefined => fail
  end.

Definition read_legacy (v : val) : M Legacy.Transaction :=
  match v with
  | Ref l => o <- read l ;; match o with OLegacyTx t => ret t | _ => fail end
  | Undefined => fail
  end.

Definition read_entry (l : loc) : M DayEntry :=
  o <- read l ;; match o with OEntry e => ret e | _ => fail end.

Definition read_slot (v : val) : M Slot :=
  match v with
  | Ref l => o <- read l ;; match o with OSlot s => ret s | _ => fail end
  | Undefined => fail
  end.

(** A loop over the elements of an array, threading local variables. *)
Fixpoint foldM {A B} (f : B -> A -> M B) (b : B) (xs : list A) : M B :=
  match xs with
  | [] => ret b
  | x :: xs' => b' <- f b x ;; foldM f b' xs'
  end.

(** [arr.map(v => ...)] into a list of values read from the store. *)
Definition mapM {A B} (f : A -> M B) (xs : list A) : M (list B) :=
  foldM (fun acc x => y <- f x ;; ret (acc ++ [y])) [] xs.

(** [filtered]: [transactions.filter(...)] allocates the result array and
    fills it with the references that pass. *)
Definition filtered (f : Filters) (transactions : loc) : M loc :=
  els <- read_arr transactions ;;
  kept <- foldM
            (fun kept v =>
               t <- read_tx v ;;
               ret (if inType f t && inCategory f t && inText f t && inDate f t
                    then kept ++ [v] else kept))
            [] els ;;
  alloc (OArr kept).

(** [sums] *)
Definition sums (filtered : loc) : M Sums :=
  els <- read_arr filtered ;;
  acc <- foldM
           (fun '(income, expense) v =>
              t <- read_tx v ;;
              ret (if type_is t "income" then (income + t_amount t, expense)
                   else (income, expense + t_amount t)))
           (0, 0) els ;;
  ret {| income := fst acc; expense := snd acc;
         balance := fst acc - snd acc |}.

(** [monthlyExpenses] *)
Definition monthlyExpenses (DateParse : string -> option Date)
  (current : Z * Z) (transactions : loc) : M Z :=
  els <- read_arr transactions ;;
  foldM
    (fun total v =>
       t <- read_tx v ;;
       ret (if negb (type_is t "expense") ||
               JSString.absent (t_date t)
            then total
            else
              match DateParse (JSString.key (t_date t)) with
              | None => total
              | Some d =>
                  if (getFullYear d =? fst current) &&
                     (getMonth d =? snd current)
                  then total + t_amount t
                  else total
              end))
    0 els.

(** [chartDaily]: the entries are objects of their own; [map] and [dates]
    are locals of the call. *)
Definition chart_init (now : Date) : M (list string * gmap string loc) :=
  foldM
    (fun '(dates, map) i =>
       let d := daysAgo now i in
       l <- alloc (OEntry {| d_date := d; d_income := 0; d_expense := 0;
                             d_net := 0 |}) ;;
       ret (dates ++ [d], <[d := l]> map))
    ([], ∅) window_counter.

Definition chart_add (map : gmap string loc) (v : val) : M unit :=
  t <- read_tx v ;;
  match map !! JSString.key (t_date t) with
  | Some l =>
      e <- read_entry l ;;
      let income := if type_is t "income" then d_income e + t_amount t
                    else d_income e in
      let expense := if type_is t "income" then d_expense e
                     else d_expense e + t_amount t in
      write l (OEntry {| d_date := d_date e; d_income := income;
                         d_expense := expense; d_net := income - expense |})
  | None => ret tt
  end.

Definition chartDaily (now : Date) (filtered : loc) : M loc :=
  init <- chart_init now ;;
  let dates := fst init in
  let map := snd init in
  els <- read_arr filtered ;;
  _ <- foldM (fun _ v => chart_add map v) tt els ;;
  alloc (OArr (List.map (fun d => from_option Ref Undefined (map !! d)) dates)).

(** The rolling series of the view: the filter, then the series over its
    result. *)
Definition rollingWindowSeries (transactions : loc) (now : Date) (f : Filters)
  : M loc :=
  filtered <- filtered f transactions ;;
  chartDaily now filtered.

(** [byCategory]: [agg] is a local dictionary of slot objects; the array of
    [Object.values] is sorted in place and [slice] copies its head. *)
Definition agg_step (agg : list (string * loc)) (v : val)
  : M (list (string * loc)) :=
  t <- read_tx v ;;
  if negb (type_is t "expense") then ret agg
  else
    let k := t_category t in
    match own_lookup k agg with
    | Some l =>
        s <- read_slot (Ref l) ;;
        _ <- write l (OSlot {| s_category := s_category s;
                               s_expense := s_expense s + t_amount t |}) ;;
        ret agg
    | None =>
        if inherited k then ret agg
        else
          l <- alloc (OSlot {| s_category := k; s_expense := 0 |}) ;;
          _ <- write l (OSlot {| s_category := k;
                                 s_expense := 0 + t_amount t |}) ;;
          ret (agg ++ [(k, l)])
    end.

(** [b.expense - a.expense], read through the store. *)
Definition expense_of (h : heap) (l : loc) : Z :=
  match h !! l with
  | Some (OSlot s) => s_expense s
  | _ => 0
  end.

Definition sort_in_place (arr : loc) : M unit :=
  fun h =>
    match h !! arr with
    | Some (OArr els) =>
        let locs := omap (fun v => match v with Ref l => Some l | _ => None end)
                         els in
        let sorted :=
          Array_sort (fun a b => expense_of h b - expense_of h a) locs in
        Some (tt, <[arr := OArr (map Ref sorted)]> h)
    | _ => None
    end.

Definition byCategory (filtered : loc) : M loc :=
  els <- read_arr filtered ;;
  agg <- foldM agg_step [] els ;;
  values <- alloc (OArr (map Ref (Object_values agg))) ;;
  _ <- sort_in_place values ;;
  sorted <- read_arr values ;;
  alloc (OArr (take 10 sorted)).

(** The daily series of the older component reads its records and builds
    arrays of strings and numbers. *)
Definition dailySeriesForMonth (transactions : loc)
  (currentYear currentMonth : Z) : M (list (string * Z)) :=
  els <- read_arr transactions ;;
  txs <- mapM read_legacy els ;;
  ret (Daily.dailySeriesForMonth txs currentYear currentMonth).

(** The array at [arr] holds references to transaction records. *)
Definition tx_array (h : heap) (arr : loc) (txs : list Transaction) : Prop :=
  exists ls, h !! arr = Some (OArr (map Ref ls)) /\
             Forall2 (fun l t => h !! l = Some (OTx t)) ls txs.

Definition legacy_array (h : heap) (arr : loc)
  (txs : list Legacy.Transaction) : Prop :=
  exists ls, h !! arr = Some (OArr (map Ref ls)) /\
             Forall2 (fun l t => h !! l = Some (OLegacyTx t)) ls txs.

(** Every object of [h] is still in [h'], unchanged. *)
Definition unchanged (h h' : heap) : Prop :=
  forall l o, h !! l = Some o -> h' !! l = Some o.

(** The element [v] of a result array is a new object holding [x], or
    [undefined] where the result has no object. *)
Definition new_object {X} (mk : X -> obj) (h h' : heap) (v : val)
  (x : option X) : Prop :=
  match v, x with
  | Ref l, Some e => h !! l = None /\ h' !! l = Some (mk e)
  | Undefined, None => True
  | _, _ => False
  end.

End Store.

(** ** Sample data *)

Module Sample.

Definition tx (ty : option string) (a : Z) (c : string) (d : option string)
  : Transaction :=
  {| t_id := ""; t_type := ty; t_amount := a; t_category := c;
     t_note := None; t_date := d |}.

(** A record written without a type field. *)
Definition untyped : Transaction := tx None 200 "Food" (Some "2024-06-10"%string).

(** The view filtered to expenses, every other filter open. *)
Definition expense_only : Filters :=
  {| typeFilter := "expense"; categoryFilter := "all"; queryText := "";
     startDate := ""; endDate := "" |}.

Definition no_filter : Filters :=
  {| typeFilter := "all"; categoryFilter := "all"; queryText := "";
     startDate := ""; endDate := "" |}.

(** [{type:'income',amount:1000}, {type:'expense',amount:300}, {amount:200}] *)
Definition three : list Transaction :=
  [tx (Some "income"%string) 1000 "Salary" None;
   tx (Some "expense"%string) 300 "Food" None;
   tx None 200 "Food" None].

End Sample.

(** [clamp(x, 0, 1)] in the words of the specification. *)
Definition clamp01 (x : Q) : Q :=
  if Qle_bool x 0 then 0%Q else if Qle_bool 1 x then 1%Q else x.

(** The labels of the window, oldest first, and the entry a label starts with. *)
Definition window_labels (now : Date) : list string :=
  map (daysAgo now) window_counter.

Definition zero_entry (d : string) : DayEntry :=
  {| d_date := d; d_income := 0; d_expense := 0; d_net := 0 |}.

Module Sample2.
(** A record of the reference day whose date carries a time of day. *)
Definition timed : Transaction :=
  Sample.tx (Some "expense"%string) 50 "Food"
            (Some "2024-06-15T10:00:00"%string).

Definition on_day : Transaction :=
  Sample.tx (Some "expense"%string) 70 "Food" (Some "2024-06-15"%string).
End Sample2.

(** ** Grouping by category, in the words of the specification *)

(** The keys of a list in the order of their first occurrence. *)
Definition first_seen (ks : list string) : list string :=
  fold_left (fun acc k => if bool_decide (k ∈ acc) then acc else acc ++ [k])
            ks [].

(** Sum of the expense amounts recorded under category [k]. *)
Definition category_sum (k : string) (txs : list Transaction) : Z :=
  sum_where t_amount
    (fun t => type_is t "expense" && String.eqb (t_category t) k) txs.

(** The categories that reach the dictionary, in encounter order: those of
    the expense records, names inherited from [Object.prototype] left out. *)
Definition encounter (txs : list Transaction) : list string :=
  first_seen
    (map t_category
         (List.filter
            (fun t => type_is t "expense" && negb (inherited (t_category t)))
            txs)).

Definition slot_of (txs : list Transaction) (k : string) : Slot :=
  {| s_category := k; s_expense := category_sum k txs |}.

(** The order [Object.values] gives the categories: array-index names by
    ascending number, then the others as encountered. *)
Definition values_order (ks : list string) : list string :=
  map snd
      (stable_sort (fun a b => (fst a <=? fst b)%N)
         (omap (fun k => (fun n => (n, k)) <$> arrayIndex k) ks)) ++
  List.filter (fun k => bool_decide (arrayIndex k = None)) ks.

(** [a] and [b] are array-index names, [a] the smaller or equal number. *)
Definition index_le (a b : string) : Prop :=
  exists n m, arrayIndex a = Some n /\ arrayIndex b = Some m /\ (n <= m)%N.

Module Sample3.
(** Two categories with equal sums; the second one met is an array index. *)
Definition tie : list Transaction :=
  [Sample.tx (Some "expense"%string) 5 "Food" None;
   Sample.tx (Some "expense"%string) 5 "7" None].

(** Eleven expense categories; the largest sum is recorded under a name
    that every object inherits. *)
Definition eleven : list Transaction :=
  Sample.tx (Some "expense"%string) 1000 "constructor" None ::
  map (fun n => Sample.tx (Some "expense"%string) n
                 (String (Ascii.ascii_of_N (Z.to_N (64 + n))) EmptyString) None)
      (seqZ 1 10).
End Sample3.

Module Sample4.
(** A store with two records of the tracker in an array at 3 and one record
    of the older component in an array at 5. *)
Definition store : Store.heap :=
  list_to_map
    [(1%positive, Store.OTx Sample2.on_day);
     (2%positive, Store.OTx Sample.untyped);
     (3%positive, Store.OArr [Store.Ref 1%positive; Store.Ref 2%positive]);
     (4%positive, Store.OLegacyTx
                    {| Legacy.type := None; Legacy.amount := 5;
                       Legacy.category := "Food"; Legacy.wallet := None;
                       Legacy.date := MakeDay 2024 1 29 |});
     (5%positive, Store.OArr [Store.Ref 4%positive])].

Definition records : list Transaction := [Sample2.on_day; Sample.untyped].

Definition legacy_records : list Legacy.Transaction :=
  [{| Legacy.type := None; Legacy.amount := 5; Legacy.category := "Food";
      Legacy.wallet := None; Legacy.date := MakeDay 2024 1 29 |}].
End Sample4.

(** ** Notions used in the proofs *)

(** Which records the reduction adds up. *)
Definition counts_in_month (DateParse : string -> option Date)
  (current : Z * Z) (t : Transaction) : bool :=
  type_is t "expense" &&
  match t_date t with
  | Some s =>
      negb (JSString.falsy s) &&
      match DateParse s with
      | Some d => (getFullYear d =? fst current) && (getMonth d =? snd current)
      | None => false
      end
  | None => false
  end.

(** What the second loop keeps true of [map]: the keys are the labels and
    each entry carries its key as date. *)
Definition chart_inv (now : Date) (m : gmap string DayEntry) : Prop :=
  forall k, match m !! k with
            | Some e => k ∈ window_labels now /\ d_date e = k
            | None => k ∉ window_labels now
            end.

(** The comparator of [byCategory] orders by descending amount. *)
Definition by_expense_desc (a b : Slot) : bool :=
  s_expense b - s_expense a <=? 0.

(** The sorted list of all category sums, of which [byCategory] is the head. *)
Definition sorted_slots (txs : list Transaction) : list Slot :=
  stable_sort by_expense_desc (map (slot_of txs) (values_order (encounter txs))).

Definition entry_rel (h : Store.heap) (ol : option Store.loc)
  (oe : option DayEntry) : Prop :=
  match ol, oe with
  | Some l, Some e => h !! l = Some (Store.OEntry e)
  | None, None => True
  | _, _ => False
  end.

(** The local [map] of the call against the dictionary of the pure model:
    same keys, each key owning an entry object of its own that did not
    exist when the call started. *)
Definition chart_sim (h0 h : Store.heap) (m : gmap string Store.loc)
  (pm : gmap string DayEntry) : Prop :=
  Store.unchanged h0 h /\
  (forall k, entry_rel h (m !! k) (pm !! k)) /\
  (forall k l, m !! k = Some l -> h0 !! l = None) /\
  (forall k1 k2 l, m !! k1 = Some l -> m !! k2 = Some l -> k1 = k2).

(** The slot stored at [l]; a location without a slot reads as amount 0,
    as [expense_of] has it. *)
Definition slot_at (h : Store.heap) (l : Store.loc) : Slot :=
  match h !! l with
  | Some (Store.OSlot s) => s
  | _ => {| s_category := ""; s_expense := 0 |}
  end.

Definition slots_of (h : Store.heap) (agg : list (string * Store.loc))
  : list (string * Slot) :=
  map (fun p => (fst p, slot_at h (snd p))) agg.

(** The local dictionary of slot references during the loop. *)
Definition agg_sim (h0 h : Store.heap) (agg : list (string * Store.loc)) : Prop :=
  Store.unchanged h0 h /\
  (forall p, p ∈ agg -> h0 !! snd p = None /\
                        exists s, h !! snd p = Some (Store.OSlot s)) /\
  NoDup (map snd agg) /\ NoDup (map fst agg).

(** * Further parts of the components *)

(** ** The entries of the 30-day series, in closed form *)

(** Income and expense the series books under label [d]: income is what is
    typed "income", everything else is expense. *)
Definition day_income (d : string) (txs : list Transaction) : Z :=
  sum_where t_amount
    (fun t => type_is t "income" && String.eqb (JSString.key (t_date t)) d) txs.

Definition day_expense (d : string) (txs : list Transaction) : Z :=
  sum_where t_amount
    (fun t => negb (type_is t "income") &&
              String.eqb (JSString.key (t_date t)) d) txs.

Definition day_entry (txs : list Transaction) (d : string) : DayEntry :=
  {| d_date := d; d_income := day_income d txs; d_expense := day_expense d txs;
     d_net := day_income d txs - day_expense d txs |}.

(** The date of [t] is one of the labels [ds]. *)
Definition dated_in (ds : list string) (t : Transaction) : bool :=
  bool_decide (JSString.key (t_date t) ∈ ds).

(** Sum of a field over the entries of a series. *)
Definition series_total (field : DayEntry -> Z) (series : list (option DayEntry))
  : Z :=
  foldr Z.add 0 (map (fun e => from_option field 0 e) series).

(** ** Dates as strings *)

(** The character of a decimal digit. *)
Definition dchar (a : Z) : ascii := Ascii.ascii_of_N (48 + Z.to_N a).

(** A year of four digits, digit by digit. *)
Definition four_digits (y : Z) : string :=
  String (dchar (y / 1000))
    (String (dchar (y / 100 mod 10))
       (String (dchar (y / 10 mod 10))
          (String (dchar (y mod 10)) EmptyString))).

Definition comparison_eqb (a b : comparison) : bool :=
  match a, b with
  | Eq, Eq | Lt, Lt | Gt, Gt => true
  | _, _ => false
  end.

(** Year, then month, then day. *)
Definition fields_compare (d1 d2 : Date) : comparison :=
  match getFullYear d1 ?= getFullYear d2 with
  | Eq => match getMonth d1 ?= getMonth d2 with
          | Eq => getDate d1 ?= getDate d2
          | c => c
          end
  | c => c
  end.

(** The date filters the view starts with:
    [useState(daysAgo(30))] and [useState(toISO(new Date()))]. *)
Definition initial_filters (now : Date) : Filters :=
  {| typeFilter := "all"; categoryFilter := "all"; queryText := "";
     startDate := daysAgo now 30; endDate := toISO now |}.

Module Sample5.
Definition today : Date := MakeDay 2024 5 15.
Definition first_of_june : Date := MakeDay 2024 5 1.
(** A record dated exactly 30 days before [today]. *)
Definition thirty_days_back : Transaction :=
  Sample.tx (Some "expense"%string) 40 "Food" (Some (toISO (today - 30))).
Definition june_filter : Filters :=
  {| typeFilter := "all"; categoryFilter := "all"; queryText := "";
     startDate := toISO first_of_june; endDate := toISO today |}.
End Sample5.

Module Sample6.
(** Two income records and one expense record, out of date order. *)
Definition mixed : list Transaction :=
  [Sample.tx (Some "income"%string) 1000 "Salary" (Some "2024-06-15"%string);
   Sample.tx (Some "expense"%string) 300 "Food" (Some "2024-06-10"%string);
   Sample.tx (Some "income"%string) 50 "Gift" (Some "2024-06-12"%string)].

Definition income_only : Filters :=
  {| typeFilter := "income"; categoryFilter := "all"; queryText := "";
     startDate := ""; endDate := "" |}.
End Sample6.

(** ** Dictionaries of sums

    The pie charts and the statistics build a plain object of numbers with
    [map[k] = (map[k] || 0) + amount]. *)

(** A value held by such a dictionary: a number, or the text that [+] makes
    once the value read is not a number. *)
Inductive SumCell := CNum (z : Z) | CText.

(** [map[k] = (map[k] || 0) + a].  Under a name inherited from
    [Object.prototype] the value read is a function or an object, [+]
    concatenates, and the text is stored as an own property; only
    [__proto__] is an accessor, whose setter ignores a text.  A text is
    never empty, so a later [+] keeps it a text. *)
Definition sum_into (map : list (string * SumCell)) (k : string) (a : Z)
  : list (string * SumCell) :=
  match own_lookup k map with
  | Some (CNum z) => own_alter (fun _ => CNum (z + a)) k map
  | Some CText => own_alter (fun _ => CText) k map
  | None =>
      if inherited k
      then (if String.eqb k "__proto__" then map else map ++ [(k, CText)])
      else map ++ [(k, CNum (0 + a))]
  end.

(** [Object.entries(o)] and [Object.keys(o)], in the order of
    [Object.values]. *)
Definition Object_entries {V} (o : list (string * V)) : list (string * V) :=
  Object_values (map (fun p => (fst p, p)) o).

Definition Object_keys {V} (o : list (string * V)) : list string :=
  Object_values (map (fun p => (fst p, fst p)) o).

(** [pieData] of the tracker: the entries of the sums of the expense
    records by category. *)
Definition pieData (filtered : list Transaction) : list (string * SumCell) :=
  Object_entries
    (fold_left
       (fun agg t =>
          if type_is t "expense"
          then sum_into agg (t_category t) (t_amount t) else agg)
       filtered []).

(** The dictionary of sums over any record shape, and its closed form: the
    keys met, [__proto__] apart, each with the sum of its records, a text
    under an inherited name. *)
Section SumBy.
Context {A : Type} (keyf : A -> string) (amt : A -> Z).

Definition sum_by (xs : list A) : list (string * SumCell) :=
  fold_left (fun map x => sum_into map (keyf x) (amt x)) xs [].

Definition sum_keys (xs : list A) : list string :=
  first_seen
    (map keyf
         (List.filter (fun x => negb (String.eqb (keyf x) "__proto__")) xs)).

Definition sum_cell (xs : list A) (k : string) : SumCell :=
  if inherited k then CText
  else CNum (sum_where amt (fun x => String.eqb (keyf x) k) xs).

End SumBy.

(** The number in a cell; a text counts as no number. *)
Definition cell_number (c : SumCell) : option Z :=
  match c with CNum z => Some z | CText => None end.

(** ** The older list, statistics and calendar components *)

Module LegacyViews.
Import Legacy.

(** [format(d, 'yyyy-MM')] of date-fns. *)
Definition format_yyyy_MM (d : Date) : string :=
  let signedYear := getFullYear d in
  let year := if 0 <? signedYear then signedYear else 1 - signedYear in
  JSString.padStart 4 "0" (JSString.ofInt year) +:+ "-" +:+ pad (getMonth d + 1).

(** [aggregateByCategory] of the statistics; the list component builds its
    [byCategory] with the same loop. *)
Definition aggregateByCategory (transactions : list Transaction)
  : list (string * SumCell) :=
  fold_left (fun map tx => sum_into map (category tx) (amount tx))
            transactions [].

(** [aggregateByMonth] *)
Definition aggregateByMonth (transactions : list Transaction)
  : list (string * SumCell) :=
  fold_left
    (fun map tx =>
       let key := format_yyyy_MM (date tx) in sum_into map key (amount tx))
    transactions [].

Definition expenseTx (transactions : list Transaction) : list Transaction :=
  List.filter is_expense transactions.

Definition incomeTx (transactions : list Transaction) : list Transaction :=
  List.filter is_income transactions.

(** [(t.wallet || 'cash') === w] *)
Definition wallet_is (w : string) (t : Transaction) : bool :=
  bool_decide (or_else (wallet t) "cash" = w).

Definition cashIncome (transactions : list Transaction) : Z :=
  reduce_amount (List.filter (wallet_is "cash") (incomeTx transactions)).
Definition bankIncome (transactions : list Transaction) : Z :=
  reduce_amount (List.filter (wallet_is "bank") (incomeTx transactions)).
Definition cashExpense (transactions : list Transaction) : Z :=
  reduce_amount (List.filter (wallet_is "cash") (expenseTx transactions)).
Definition bankExpense (transactions : list Transaction) : Z :=
  reduce_amount (List.filter (wallet_is "bank") (expenseTx transactions)).

Definition cashBalance (transactions : list Transaction) : Z :=
  cashIncome transactions - cashExpense transactions.
Definition bankBalance (transactions : list Transaction) : Z :=
  bankIncome transactions - bankExpense transactions.

(** The labels and the data of a chart over a dictionary of sums. *)
Definition chart_labels (o : list (string * SumCell)) : list string :=
  Object_keys o.
Definition chart_data (o : list (string * SumCell)) : list SumCell :=
  Object_values o.

(** [isSameMonth] and [isSameDay] of date-fns, on local days. *)
Definition isSameMonth (d1 d2 : Date) : bool :=
  (getFullYear d1 =? getFullYear d2) && (getMonth d1 =? getMonth d2).
Definition isSameDay (d1 d2 : Date) : bool := d1 =? d2.

(** [monthExpense]: the expenses of the month of [now]. *)
Definition monthExpense (now : Date) (transactions : list Transaction) : Z :=
  reduce_amount
    (List.filter (fun t => is_expense t && isSameMonth (date t) now)
                 transactions).

(** The calendar: the records of the selected day and their totals. *)
Definition dailyTransactions (value : Date) (transactions : list Transaction)
  : list Transaction :=
  List.filter (fun tx => isSameDay (date tx) value) transactions.

Definition incomeTotal (value : Date) (transactions : list Transaction) : Z :=
  reduce_amount (List.filter is_income (dailyTransactions value transactions)).

Definition expenseTotal (value : Date) (transactions : list Transaction) : Z :=
  reduce_amount (List.filter is_expense (dailyTransactions value transactions)).

(** The quote tile: [handlePrevQuote] and [handleNextQuote] over [length]
    quotes. *)
Definition handlePrevQuote (length prev : Z) : Z :=
  if prev =? 0 then length - 1 else prev - 1.
Definition handleNextQuote (length prev : Z) : Z :=
  if prev =? length - 1 then 0 else prev + 1.

End LegacyViews.

(** A character test for keys that hold a dash. *)
Fixpoint has_dash (s : string) : bool :=
  match s with
  | EmptyString => false
  | String c s' => Ascii.eqb c "-" || has_dash s'
  end.

Module Sample7.
(** Expenses under an ordinary name, under a name every object inherits and
    under [__proto__]. *)
Definition odd_names : list Transaction :=
  [Sample.tx (Some "expense"%string) 5 "Food" None;
   Sample.tx (Some "expense"%string) 7 "toString" None;
   Sample.tx (Some "expense"%string) 9 "__proto__" None;
   Sample.tx (Some "expense"%string) 6 "Food" None].
End Sample7.

Module Sample8.
Import Legacy.
Definition rec (ty : option string) (a : Z) (c : string) (w : option string)
  (d : Date) : Transaction :=
  {| type := ty; amount := a; category := c; wallet := w; date := d |}.

(** Records of June and May 2024, the later month first. *)
Definition ledger : list Transaction :=
  [rec (Some "expense"%string) 30 "Food" (Some "cash"%string) (MakeDay 2024 5 15);
   rec None 20 "Housing" None (MakeDay 2024 5 15);
   rec (Some "income"%string) 500 "Salary" (Some "bank"%string) (MakeDay 2024 5 1);
   rec (Some "expense"%string) 45 "Food" (Some "bank"%string) (MakeDay 2024 4 20)].
End Sample8.

(** ** The forms and the local store of the tracker *)

(** What [TxForm] submits: [{ type, amount, category, note, date }]. *)
Record Payload := {
  p_type : string;
  p_amount : Z;
  p_category : string;
  p_note : string;
  p_date : string;
}.

Definition is_digit (c : ascii) : bool :=
  match JSString.digit c with Some _ => true | None => false end.

(** [s.replace(/[^\d]/g, '')]: the ASCII digits of [s], in order. *)
Fixpoint keep_digits (s : string) : string :=
  match s with
  | EmptyString => EmptyString
  | String c s' =>
      if is_digit c then String c (keep_digits s') else keep_digits s'
  end.

(** [Number(s)] for a string of ASCII digits: the number written, 0 for the
    empty string.  Up to 15 digits the double is that integer. *)
Definition Number_digits (s : string) : Z :=
  Z.of_N (default 0%N (JSString.digits 0 s)).

Module TxForm.

(** [onChange] of the amount field. *)
Definition amount_typed (typed : string) : string := keep_digits typed.

(** [onSubmit]: [const amt = Number(amount);
    if (!amt || amt <= 0) { alert(...); return; }
    onSubmit({ type, amount: amt, category, note, date })] *)
Definition submit (type amount category note date : string) : option Payload :=
  let amt := Number_digits amount in
  if (amt =? 0) || (amt <=? 0) then None
  else Some {| p_type := type; p_amount := amt; p_category := category;
               p_note := note; p_date := date |}.

End TxForm.

Module BudgetForm.

(** [onChange] of the budget field: [replace(/[^0-9]/g, '')]. *)
Definition input_typed (typed : string) : string := keep_digits typed.

(** [handleSubmit]: [const next = Number(input);
    if (!Number.isFinite(next) || next < 0) { alert(...); return; }
    await onSave(next)]; the number of a digit string is finite. *)
Definition handleSubmit (input : string) : option Z :=
  let next := Number_digits input in
  if next <? 0 then None else Some next.

End BudgetForm.

(** [useTransactions] without a database: the list lives in the state. *)
Module LocalStore.

(** [{ ...tx, id }] *)
Definition item (id : string) (tx : Payload) : Transaction :=
  {| t_id := id; t_type := Some (p_type tx); t_amount := p_amount tx;
     t_category := p_category tx; t_note := Some (p_note tx);
     t_date := Some (p_date tx) |}.

(** [add]: [[item, ...transactions]], [id] the identifier drawn. *)
Definition add (id : string) (tx : Payload) (transactions : list Transaction)
  : list Transaction :=
  item id tx :: transactions.

(** [remove]: [transactions.filter((t) => t.id !== id)] *)
Definition remove (id : string) (transactions : list Transaction)
  : list Transaction :=
  List.filter (fun t => negb (String.eqb (t_id t) id)) transactions.

(** [update]:
    [transactions.map((t) => (t.id === id ? { ...t, ...patch } : t))] *)
Definition update (id : string) (patch : Payload)
  (transactions : list Transaction) : list Transaction :=
  map (fun t => if String.eqb (t_id t) id then item (t_id t) patch else t)
      transactions.

End LocalStore.

Module Sample9.
Definition coffee : Payload :=
  {| p_type := "expense"; p_amount := 45000; p_category := "Food";
     p_note := "Coffee"; p_date := "2024-06-15" |}.
Definition with_letters : string := "45.000 VND".
End Sample9.

(** ** The CSV export *)

Module Csv.

Definition newline : ascii := "010".

(** [s.replace(/\n/g, ' ')] *)
Fixpoint replace_newlines (s : string) : string :=
  match s with
  | EmptyString => EmptyString
  | String c s' =>
      String (if Ascii.eqb c newline then " "%char else c) (replace_newlines s')
  end.

(** [xs.join(sep)] on strings. *)
Fixpoint join (sep : string) (xs : list string) : string :=
  match xs with
  | [] => EmptyString
  | x :: xs' =>
      match xs' with
      | [] => x
      | _ :: _ => x +:+ sep +:+ join sep xs'
      end
  end.

(** An element under [join]: [undefined] is written as the empty string. *)
Definition shown (v : option string) : string := default EmptyString v.

Definition header : string :=
  join "," ["type"; "amount"; "category"; "note"; "date"]%string.

(** [[t.type, t.amount, t.category, (t.note || '').replace(/\n/g, ' '),
     t.date].join(',')] *)
Definition row (t : Transaction) : string :=
  join "," [shown (t_type t); JSString.ofInt (t_amount t); t_category t;
            replace_newlines (or_else (t_note t) ""); shown (t_date t)].

Definition rows (filtered : list Transaction) : string :=
  join (String newline EmptyString) (map row filtered).

(** The text of the blob: [header + '\n' + rows]. *)
Definition exportCSV (filtered : list Transaction) : string :=
  header +:+ String newline EmptyString +:+ rows filtered.

(** The name of the download. *)
Definition download (startDate endDate : string) : string :=
  "transactions_" +:+ startDate +:+ "_" +:+ endDate +:+ ".csv".

End Csv.

(** Occurrences of a character in a string. *)
Fixpoint count_char (c : ascii) (s : string) : nat :=
  match s with
  | EmptyString => O
  | String a s' => ((if Ascii.eqb a c then 1 else 0) + count_char c s')%nat
  end.

(** The line breaks and the commas a record brings into its row besides
    the four separators. *)
Definition field_count (c : ascii) (t : Transaction) : nat :=
  (count_char c (Csv.shown (t_type t)) + count_char c (t_category t) +
   count_char c (Csv.replace_newlines (or_else (t_note t) "")) +
   count_char c (Csv.shown (t_date t)))%nat.

(** ** The older transaction form *)

Module TransactionForm.

(** [value.replace(/,/g, '')] *)
Fixpoint remove_commas (s : string) : string :=
  match s with
  | EmptyString => EmptyString
  | String c s' =>
      if Ascii.eqb c "," then remove_commas s' else String c (remove_commas s')
  end.

(** [/^\d*$/.test(raw)] *)
Fixpoint all_digits (s : string) : bool :=
  match s with
  | EmptyString => true
  | String c s' => is_digit c && all_digits s'
  end.

(** [handleAmountChange]: the next [rawAmount]; input that holds anything
    but digits and commas is ignored. *)
Definition handleAmountChange (rawAmount typed : string) : string :=
  let raw := remove_commas typed in
  if all_digits raw then raw else rawAmount.

(** [handleSubmit]: [if (!rawAmount) return;] then the record is written
    with [amount: parseFloat(rawAmount)]. *)
Definition handleSubmit (rawAmount : string) : option Z :=
  if JSString.falsy rawAmount then None else Some (Number_digits rawAmount).

End TransactionForm.

(** ** Opening a dialog on a stored value *)

Module TxEdit.

(** The state of [TxForm]. *)
Record FormState := {
  f_type : string;
  f_amount : string;
  f_category : string;
  f_note : string;
  f_date : string;
}.

(** The form as it stands once mounted on [initial = t] and its effects
    have run: each field is the one of the record, with the fallbacks of
    the [useState] initialisers; a missing category is chosen from the
    type. *)
Definition opened (now : Date) (t : Transaction) : FormState :=
  let type := or_else (t_type t) "expense" in
  {| f_type := type;
     f_amount := JSString.ofInt (t_amount t);
     f_category :=
       if JSString.falsy (t_category t)
       then (if String.eqb type "income" then "Salary" else "Food & Dining")
       else t_category t;
     f_note := or_else (t_note t) "";
     f_date := or_else (t_date t) (toISO now) |}.

Definition save (s : FormState) : option Payload :=
  TxForm.submit (f_type s) (f_amount s) (f_category s) (f_note s) (f_date s).

(** The Edit button of a row, then Save changes with the form untouched:
    the dialog opens only on a record with an identifier, and
    [onEdit(editingId, patch)] runs only if the form submits. *)
Definition edit_and_save (now : Date) (t : Transaction)
  (transactions : list Transaction) : list Transaction :=
  if JSString.falsy (t_id t) then transactions
  else
    match save (opened now t) with
    | Some patch => LocalStore.update (t_id t) patch transactions
    | None => transactions
    end.

End TxEdit.

Module BudgetDialog.

(** The input when the dialog opens:
    [value != null ? String(Math.round(value)) : ''], the stored budget
    being an integer. *)
Definition opened (value : option Z) : string :=
  match value with
  | Some v => JSString.ofInt v
  | None => EmptyString
  end.

End BudgetDialog.

Module Sample10.
(** A complete record and the same record written without type and note. *)
Definition complete : Transaction :=
  {| t_id := "a1"; t_type := Some "expense"%string; t_amount := 45000;
     t_category := "Food"; t_note := Some "Coffee"%string;
     t_date := Some "2024-06-15"%string |}.
Definition bare : Transaction :=
  {| t_id := "a2"; t_type := None; t_amount := 200; t_category := "Food";
     t_note := None; t_date := Some "2024-06-10"%string |}.
End Sample10.

(** * Properties *)

(** ** Calendar facts *)

Module JSDateFacts.
Import JSDate.

Lemma DayFromYear_succ y : DayFromYear (y + 1) = DayFromYear y + DaysInYear y.
Proof.
  unfold DayFromYear, DaysInYear, isLeap.
  destruct (y mod 4 =? 0) eqn:E4; destruct (y mod 100 =? 0) eqn:E100;
    destruct (y mod 400 =? 0) eqn:E400; cbn [andb orb negb];
    rewrite ?Z.eqb_eq, ?Z.eqb_neq in *; Z.div_mod_to_equations; lia.
Qed.

Lemma DaysInYear_leap y : DaysInYear y = 365 + InLeapYear y.
Proof. unfold DaysInYear, InLeapYear. destruct (isLeap y); reflexivity. Qed.

Lemma InLeapYear_range y : 0 <= InLeapYear y <= 1.
Proof. unfold InLeapYear. destruct (isLeap y); lia. Qed.

Lemma DayFromYear_lt y1 y2 : y1 < y2 -> DayFromYear y1 + 365 <= DayFromYear y2.
Proof. unfold DayFromYear. intros H. Z.div_mod_to_equations. lia. Qed.

Lemma YearFromDay_spec d :
  DayFromYear (YearFromDay d) <= d < DayFromYear (YearFromDay d + 1).
Proof.
  unfold YearFromDay. cbv zeta.
  set (y0 := 1970 + 400 * d / 146097).
  destruct (Z.ltb_spec d (DayFromYear y0)) as [Hlt|Hge].
  - replace (y0 - 1 + 1) with y0 by lia. split; [|lia].
    clear Hlt. subst y0. unfold DayFromYear. Z.div_mod_to_equations. lia.
  - destruct (Z.leb_spec (DayFromYear (y0 + 1)) d) as [Hle|Hgt]; [|lia].
    split; [lia|]. clear Hge Hle. subst y0. unfold DayFromYear.
    Z.div_mod_to_equations. lia.
Qed.

(** The year is determined by the bracket of first days. *)
Lemma YearFromDay_unique d y :
  DayFromYear y <= d < DayFromYear (y + 1) -> YearFromDay d = y.
Proof.
  intros Hy. pose proof (YearFromDay_spec d) as Hs.
  destruct (Z.lt_trichotomy (YearFromDay d) y) as [Hlt|[Heq|Hgt]]; [|exact Heq|].
  - pose proof (DayFromYear_lt (YearFromDay d) y Hlt).
    pose proof (DayFromYear_succ (YearFromDay d)).
    pose proof (DaysInYear_leap (YearFromDay d)).
    pose proof (InLeapYear_range (YearFromDay d)).
    assert (YearFromDay d + 1 = y \/ YearFromDay d + 1 < y) as [E|L] by lia.
    + rewrite E in *. lia.
    + pose proof (DayFromYear_lt _ _ L). lia.
  - pose proof (DayFromYear_succ y). pose proof (DaysInYear_leap y).
    pose proof (InLeapYear_range y).
    assert (y + 1 = YearFromDay d \/ y + 1 < YearFromDay d) as [E|L] by lia.
    + rewrite E in *. lia.
    + pose proof (DayFromYear_lt _ _ L). lia.
Qed.

Lemma DayWithinYear_range d :
  0 <= DayWithinYear d < 365 + InLeapYear (YearFromDay d).
Proof.
  unfold DayWithinYear. pose proof (YearFromDay_spec d) as Hs.
  rewrite DayFromYear_succ, DaysInYear_leap in Hs. lia.
Qed.

Lemma getMonth_range d : 0 <= getMonth d <= 11.
Proof.
  unfold getMonth, monthOfYearDay.
  repeat match goal with |- context [if ?b then _ else _] => destruct b end; lia.
Qed.

Ltac month_cases :=
  unfold monthOfYearDay, monthStart;
  repeat match goal with
         | |- context [?a <? ?b] => destruct (Z.ltb_spec a b)
         end; try lia.

(** Day number, back from the calendar fields read off it. *)
Lemma MakeDay_fields d : MakeDay (getFullYear d) (getMonth d) (getDate d) = d.
Proof.
  pose proof (getMonth_range d) as Hm.
  unfold MakeDay. cbv zeta.
  replace (getMonth d / 12) with 0 by (Z.div_mod_to_equations; lia).
  replace (getMonth d mod 12) with (getMonth d) by (Z.div_mod_to_equations; lia).
  rewrite Z.add_0_r. unfold getDate, getMonth, getFullYear, DayWithinYear.
  cbv zeta. lia.
Qed.

(** The day of the month enters MakeDay linearly. *)
Lemma MakeDay_shift y m dt k : MakeDay y m (dt - k) = MakeDay y m dt - k.
Proof. unfold MakeDay. cbv zeta. lia. Qed.

Lemma setDate_minus d n : setDate d (getDate d - n) = d - n.
Proof. unfold setDate. rewrite MakeDay_shift, MakeDay_fields. reflexivity. Qed.

Lemma monthStart_next leap y m :
  leap = InLeapYear y -> 0 <= m <= 10 ->
  monthStart leap (m + 1) = monthStart leap m + daysInMonth y m.
Proof.
  intros -> Hm. unfold InLeapYear, daysInMonth.
  assert (m = 0 \/ m = 1 \/ m = 2 \/ m = 3 \/ m = 4 \/ m = 5 \/ m = 6 \/
          m = 7 \/ m = 8 \/ m = 9 \/ m = 10) as Hc by lia.
  destruct (isLeap y);
    repeat (destruct Hc as [->|Hc]; [reflexivity|]); subst; reflexivity.
Qed.

Lemma monthStart_last y :
  monthStart (InLeapYear y) 11 + daysInMonth y 11 = 365 + InLeapYear y.
Proof. unfold InLeapYear. destruct (isLeap y); reflexivity. Qed.

Lemma daysInMonth_range y m : 28 <= daysInMonth y m <= 31.
Proof.
  unfold daysInMonth.
  repeat match goal with
         | |- context [match ?x with _ => _ end] => destruct x
         end; lia.
Qed.

Section Fields.
Variables (y m dt : Z).
Hypothesis Hm : 0 <= m <= 11.
Hypothesis Hd : 1 <= dt <= daysInMonth y m.

Let cases : m = 0 \/ m = 1 \/ m = 2 \/ m = 3 \/ m = 4 \/ m = 5 \/ m = 6 \/
            m = 7 \/ m = 8 \/ m = 9 \/ m = 10 \/ m = 11.
Proof. lia. Qed.

Lemma MakeDay_normal :
  MakeDay y m dt = DayFromYear y + monthStart (InLeapYear y) m + dt - 1.
Proof.
  unfold MakeDay. cbv zeta.
  replace (m / 12) with 0 by (Z.div_mod_to_equations; lia).
  replace (m mod 12) with m by (Z.div_mod_to_equations; lia).
  rewrite Z.add_0_r. reflexivity.
Qed.

Lemma MakeDay_within :
  0 <= monthStart (InLeapYear y) m + dt - 1 < 365 + InLeapYear y.
Proof.
  clear Hm. pose proof cases as Hc. revert Hd.
  unfold daysInMonth, InLeapYear.
  destruct (isLeap y);
    repeat (destruct Hc as [->|Hc]; [cbn; lia|]); subst; cbn; lia.
Qed.

Lemma getFullYear_MakeDay : getFullYear (MakeDay y m dt) = y.
Proof.
  unfold getFullYear. apply YearFromDay_unique.
  rewrite MakeDay_normal, DayFromYear_succ, DaysInYear_leap.
  pose proof MakeDay_within. lia.
Qed.

Lemma DayWithinYear_MakeDay :
  DayWithinYear (MakeDay y m dt) = monthStart (InLeapYear y) m + dt - 1.
Proof.
  unfold DayWithinYear. fold (getFullYear (MakeDay y m dt)).
  rewrite getFullYear_MakeDay, MakeDay_normal. lia.
Qed.

Lemma getMonth_MakeDay : getMonth (MakeDay y m dt) = m.
Proof.
  unfold getMonth. fold (getFullYear (MakeDay y m dt)).
  rewrite getFullYear_MakeDay, DayWithinYear_MakeDay.
  clear Hm. pose proof cases as Hc. revert Hd.
  unfold daysInMonth, InLeapYear.
  destruct (isLeap y);
    repeat (destruct Hc as [->|Hc]; [intros; month_cases|]);
    subst; intros; month_cases.
Qed.

Lemma getDate_MakeDay : getDate (MakeDay y m dt) = dt.
Proof.
  pose proof getMonth_MakeDay as Hmo. unfold getMonth in Hmo.
  unfold getDate. cbv zeta. rewrite Hmo.
  fold (getFullYear (MakeDay y m dt)).
  rewrite getFullYear_MakeDay, DayWithinYear_MakeDay. lia.
Qed.
End Fields.

(** [new Date(y, m + 1, 0)] is the last day of month [m]. *)
Lemma MakeDay_month_end y m :
  0 <= m <= 11 -> MakeDay y (m + 1) 0 = MakeDay y m (daysInMonth y m).
Proof.
  intros Hm. pose proof (daysInMonth_range y m) as Hr.
  rewrite (MakeDay_normal y m _ Hm).
  destruct (Z.eq_dec m 11) as [->|Hne].
  - unfold MakeDay. cbv zeta. change ((11 + 1) / 12) with 1.
    change ((11 + 1) mod 12) with 0. rewrite DayFromYear_succ, DaysInYear_leap.
    pose proof (monthStart_last y). cbn [monthStart] in *. lia.
  - rewrite (MakeDay_normal y (m + 1) 0) by lia.
    rewrite (monthStart_next _ y m eq_refl) by lia. lia.
Qed.

End JSDateFacts.

(** ** String facts *)

Module JSStringFacts.
Import JSString.

Lemma append_cons (c : ascii) (a b : string) :
  String c a +:+ b = String c (a +:+ b).
Proof. reflexivity. Qed.

Lemma append_nil (b : string) : EmptyString +:+ b = b.
Proof. reflexivity. Qed.

Lemma length_repeat_char n c : String.length (repeat_char n c) = n.
Proof. induction n as [|n IH]; simpl; [reflexivity|now f_equal]. Qed.

Lemma length_append (a b : string) :
  String.length (a +:+ b) = (String.length a + String.length b)%nat.
Proof.
  induction a as [|c a IH]; [reflexivity|].
  rewrite append_cons. simpl. now f_equal.
Qed.

Lemma append_assoc (a b c : string) : (a +:+ b) +:+ c = a +:+ (b +:+ c).
Proof.
  induction a as [|x a IH]; [reflexivity|].
  rewrite !append_cons. now f_equal.
Qed.

(** Two concatenations with tails of equal length agree part by part. *)
Lemma append_inj_tail (a1 a2 b1 b2 : string) :
  String.length b1 = String.length b2 ->
  a1 +:+ b1 = a2 +:+ b2 -> a1 = a2 /\ b1 = b2.
Proof.
  revert a2. induction a1 as [|c a1 IH]; intros [|c2 a2] Hlen Heq.
  - auto.
  - apply (f_equal String.length) in Heq.
    rewrite !length_append in Heq. simpl in Heq. lia.
  - apply (f_equal String.length) in Heq.
    rewrite !length_append in Heq. simpl in Heq. lia.
  - rewrite !append_cons in Heq. injection Heq as -> Heq.
    destruct (IH a2 Hlen Heq) as [-> ->]. auto.
Qed.

End JSStringFacts.

Import JSDateFacts JSStringFacts.

Example toISO_2024_06_15 : toISO (MakeDay 2024 5 15) = "2024-06-15"%string.
Proof. vm_compute. reflexivity. Qed.

Example daysAgo_month_border :
  daysAgo (MakeDay 2024 2 1) 1 = "2024-02-29"%string.
Proof. vm_compute. reflexivity. Qed.

Example format_first_century :
  format_yyyy_MM_dd (MakeDay 987 0 9) = "0987-01-09"%string.
Proof. vm_compute. reflexivity. Qed.


(** ** The filter *)

Lemma filtered_elem f txs t :
  t ∈ filtered f txs <->
  t ∈ txs /\ inType f t = true /\ inCategory f t = true /\
  inText f t = true /\ inDate f t = true.
Proof.
  unfold filtered. rewrite !list_elem_of_In, filter_In, !andb_true_iff. tauto.
Qed.

(** With a type filter other than "all" a record passes only when its type
    field is exactly the filter. *)
Lemma inType_exact f t :
  typeFilter f <> "all"%string ->
  inType f t = true <-> t_type t = Some (typeFilter f).
Proof.
  intros Hne. unfold inType, type_is.
  rewrite orb_true_iff, !bool_decide_eq_true. tauto.
Qed.

(** C1, at the failing input: the effective type of a record without a type
    field is "expense", yet with typeFilter = "expense" (all other filters
    open) applyFilters does not keep it, while the totals of the same view
    count its amount as an expense. *)
Theorem applyFilters_drops_untyped :
  effective_type (t_type Sample.untyped) = "expense"%string /\
  applyFilters [Sample.untyped] Sample.expense_only = [] /\
  expense (sums (applyFilters [Sample.untyped] Sample.no_filter)) = 200.
Proof. repeat split; vm_compute; reflexivity. Qed.

(** ** Totals *)

Lemma reduce_sum {A} (amt : A -> Z) (xs : list A) (a : Z) :
  fold_left (fun a t => a + amt t) xs a = a + foldr Z.add 0 (map amt xs).
Proof.
  revert a. induction xs as [|x xs IH]; intros a; simpl; [lia|].
  rewrite IH. lia.
Qed.

Lemma well_typed_expense t :
  well_typed t ->
  bool_decide (effective_type (t_type t) = "expense"%string) =
  negb (type_is t "income").
Proof.
  unfold type_is. intros [Ht|[Ht|Ht]]; rewrite Ht; vm_compute; reflexivity.
Qed.

Lemma sums_fold (xs : list Transaction) (i e : Z) :
  Forall well_typed xs ->
  fold_left (fun '(income, expense) t =>
               if type_is t "income" then (income + t_amount t, expense)
               else (income, expense + t_amount t)) xs (i, e) =
  (i + sum_where t_amount (fun t => type_is t "income") xs,
   e + sum_where t_amount
         (fun t => bool_decide (effective_type (t_type t) = "expense"%string)) xs).
Proof.
  intros Hwt. revert i e.
  induction Hwt as [|t xs Ht _ IH]; intros i e.
  - unfold sum_where. simpl. f_equal; lia.
  - cbn [fold_left]. unfold sum_where in *. cbn [List.filter].
    rewrite (well_typed_expense t Ht).
    destruct (type_is t "income"); cbn [negb]; rewrite IH;
      cbn [map foldr]; f_equal; lia.
Qed.

(** C2: on well-formed records (type absent, income or expense) the loop of
    [sums] returns the sum of the income amounts, the sum of the amounts
    whose effective type is expense, and their difference; the filter-and-
    reduce totals of the older components return the same three figures on
    every list; and on the three records of the specification the result is
    income 1000, expense 500, balance 500. *)
Theorem totalsByType_correct (txs : list Transaction)
  (legacy : list Legacy.Transaction) :
  Forall well_typed txs ->
  sums txs = totalsByType_spec t_type t_amount txs /\
  {| income := Legacy.totalIncome legacy;
     expense := Legacy.totalExpense legacy;
     balance := Legacy.totalBalance legacy |} =
    totalsByType_spec Legacy.type Legacy.amount legacy /\
  sums Sample.three = {| income := 1000; expense := 500; balance := 500 |}.
Proof.
  intros Hwt. split; [|split].
  - unfold sums. rewrite (sums_fold txs 0 0 Hwt). unfold totalsByType_spec.
    cbv zeta. rewrite !Z.add_0_l. reflexivity.
  - unfold Legacy.totalBalance, Legacy.totalIncome, Legacy.totalExpense,
      Legacy.reduce_amount, totalsByType_spec.
    rewrite !reduce_sum, !Z.add_0_l. reflexivity.
  - vm_compute. reflexivity.
Qed.

Lemma totalsByType_correct_witness :
  Forall well_typed Sample.three /\
  sums Sample.three = totalsByType_spec t_type t_amount Sample.three.
Proof.
  assert (H : Forall well_typed Sample.three).
  { unfold Sample.three.
    repeat (apply List.Forall_cons; [unfold well_typed; simpl; auto|]).
    apply List.Forall_nil. }
  split; [exact H|].
  exact (proj1 (totalsByType_correct Sample.three [] H)).
Defined.

(** ** Budget figures *)

Lemma budgetIsSet_true mb : budgetIsSet mb = true <-> exists b, mb = Some b /\ 0 < b.
Proof.
  destruct mb as [b|]; simpl.
  - rewrite Z.ltb_lt. split; [eauto|]. intros (b' & [= <-] & H). exact H.
  - split; [discriminate|]. intros (b & [=] & _).
Qed.

Lemma ratio_nonneg (e b : Z) :
  0 <= e -> 0 < b -> (0 <= inject_Z e / inject_Z b)%Q.
Proof.
  intros He Hb. apply Qle_shift_div_l.
  - change 0%Q with (inject_Z 0). rewrite <- Zlt_Qlt. exact Hb.
  - rewrite Qmult_0_l. change 0%Q with (inject_Z 0). rewrite <- Zle_Qle. exact He.
Qed.

Lemma Math_min_clamp (x : Q) : (0 <= x)%Q -> (Math_min 1 x == clamp01 x)%Q.
Proof.
  intros Hx. unfold Math_min, clamp01.
  destruct (Qle_bool 1 x) eqn:E1; destruct (Qle_bool x 0) eqn:E0;
    try reflexivity.
  - apply Qle_bool_iff in E1, E0.
    exfalso. apply (Qlt_irrefl 0). apply Qlt_le_trans with 1%Q; [reflexivity|].
    apply Qle_trans with x; assumption.
  - apply Qle_bool_iff in E0. apply Qle_antisym; assumption.
Qed.



(** ** The 30-day series *)

Lemma chart_init_fold now (cnt : list Z) (dates : list string)
  (m : gmap string DayEntry) :
  exists m',
    fold_left
      (fun '(dates, map) i =>
         let d := daysAgo now i in
         (dates ++ [d],
          <[d := {| d_date := d; d_income := 0; d_expense := 0; d_net := 0 |}]> map))
      cnt (dates, m) = (dates ++ map (daysAgo now) cnt, m') /\
    forall k, m' !! k =
              if decide (k ∈ map (daysAgo now) cnt) then Some (zero_entry k)
              else m !! k.
Proof.
  revert dates m. induction cnt as [|i cnt IH]; intros dates m.
  - exists m. split; [now rewrite app_nil_r|]. intros k.
    destruct (decide (k ∈ map (daysAgo now) [])) as [H|H]; [|reflexivity].
    inversion H.
  - cbn [fold_left].
    destruct (IH (dates ++ [daysAgo now i])
                 (<[daysAgo now i := zero_entry (daysAgo now i)]> m))
      as (m' & Heq & Hlk).
    exists m'. split.
    + unfold zero_entry in Heq. rewrite Heq, <- app_assoc. reflexivity.
    + intros k. rewrite Hlk. cbn [map].
      destruct (decide (k ∈ map (daysAgo now) cnt)) as [Hin|Hnin].
      * rewrite decide_True by (right; exact Hin). reflexivity.
      * destruct (decide (k = daysAgo now i)) as [->|Hne].
        -- rewrite lookup_insert_eq, decide_True by left. reflexivity.
        -- rewrite lookup_insert_ne by congruence.
           rewrite decide_False; [reflexivity|].
           intros Hk. apply elem_of_cons in Hk as [?|?]; contradiction.
Qed.

Lemma chart_init_spec now :
  exists map0,
    chart_init now = (window_labels now, map0) /\
    forall k, map0 !! k =
              if decide (k ∈ window_labels now) then Some (zero_entry k)
              else None.
Proof.
  destruct (chart_init_fold now window_counter [] ∅) as (m' & Heq & Hlk).
  exists m'. split; [exact Heq|]. intros k. rewrite Hlk.
  unfold window_labels. destruct (decide _); [reflexivity|apply lookup_empty].
Qed.

Lemma chart_add_inv now m t : chart_inv now m -> chart_inv now (chart_add m t).
Proof.
  intros Hinv k. unfold chart_add. cbv zeta.
  destruct (m !! JSString.key (t_date t)) as [e|] eqn:He; [|apply Hinv].
  destruct (decide (k = JSString.key (t_date t))) as [->|Hne].
  - rewrite lookup_insert_eq. cbn [d_date].
    pose proof (Hinv (JSString.key (t_date t))) as Hk. rewrite He in Hk. exact Hk.
  - rewrite lookup_insert_ne by congruence. apply Hinv.
Qed.

Lemma chart_fold_inv now txs m :
  chart_inv now m -> chart_inv now (fold_left chart_add txs m).
Proof.
  revert m. induction txs as [|t txs IH]; intros m Hinv; [exact Hinv|].
  cbn [fold_left]. apply IH, chart_add_inv, Hinv.
Qed.

Lemma chart_init_inv now map0 :
  (forall k, map0 !! k =
             if decide (k ∈ window_labels now) then Some (zero_entry k)
             else None) ->
  chart_inv now map0.
Proof.
  intros Hlk k. rewrite Hlk. destruct (decide _) as [H|H]; [|exact H].
  split; [exact H|reflexivity].
Qed.

(** The result, entry by entry: an object under every label, dated by it. *)
Lemma chartDaily_entries now txs :
  exists entries : list DayEntry,
    chartDaily now txs = map Some entries /\
    map d_date entries = window_labels now.
Proof.
  unfold chartDaily. destruct (chart_init_spec now) as (map0 & -> & Hlk).
  pose proof (chart_fold_inv now txs map0 (chart_init_inv now map0 Hlk)) as Hinv.
  set (m := fold_left chart_add txs map0) in *.
  assert (Hall : forall ds, (forall d, d ∈ ds -> d ∈ window_labels now) ->
            exists es, map (fun d => m !! d) ds = map Some es /\
                       map d_date es = ds).
  { induction ds as [|d ds IH]; intros Hds.
    - exists []. split; reflexivity.
    - destruct IH as (es & He1 & He2).
      { intros d' Hd'. apply Hds. right. exact Hd'. }
      pose proof (Hinv d) as Hd. destruct (m !! d) as [e|] eqn:Hmd.
      + exists (e :: es). cbn [map]. rewrite Hmd, He1, He2.
        destruct Hd as [_ ->]. split; reflexivity.
      + exfalso. apply Hd, Hds. left. }
  apply Hall. auto.
Qed.

Lemma window_counter_lookup (k : nat) :
  (k < 30)%nat -> window_counter !! k = Some (29 - Z.of_nat k).
Proof.
  intros Hk. unfold window_counter.
  do 30 (destruct k as [|k]; [reflexivity|]). lia.
Qed.

Lemma daysAgo_day now n : daysAgo now n = toISO (now - n).
Proof. unfold daysAgo. rewrite setDate_minus. reflexivity. Qed.

Lemma window_labels_lookup now (k : nat) :
  (k < 30)%nat -> window_labels now !! k = Some (toISO (now - 29 + Z.of_nat k)).
Proof.
  intros Hk. unfold window_labels.
  rewrite list_lookup_fmap, (window_counter_lookup k Hk). cbn [fmap option_fmap option_map].
  rewrite daysAgo_day. do 2 f_equal. lia.
Qed.

Lemma window_labels_length now : length (window_labels now) = 30%nat.
Proof. unfold window_labels. rewrite length_map. reflexivity. Qed.

(** *** Labels determine the day *)

Lemma getDate_range d : 1 <= getDate d <= 31.
Proof.
  unfold getDate. cbv zeta.
  pose proof (DayWithinYear_range d) as Hw.
  pose proof (InLeapYear_range (YearFromDay d)) as Hl.
  set (w := DayWithinYear d) in *. set (L := InLeapYear (YearFromDay d)) in *.
  unfold monthOfYearDay.
  repeat match goal with
         | |- context [?a <? ?b] => destruct (Z.ltb_spec a b)
         end; cbn [monthStart]; lia.
Qed.

Lemma pad_checks :
  forallb (fun n => Nat.eqb (String.length (pad n)) 2 &&
                    forallb (fun m => implb (String.eqb (pad n) (pad m)) (n =? m))
                            (seqZ 0 100))
          (seqZ 0 100) = true.
Proof. vm_compute. reflexivity. Qed.

Lemma pad_length n : 0 <= n < 100 -> String.length (pad n) = 2%nat.
Proof.
  intros Hn. pose proof pad_checks as H. rewrite forallb_forall in H.
  specialize (H n). rewrite <- list_elem_of_In, elem_of_seqZ in H.
  specialize (H ltac:(lia)). apply andb_true_iff in H as [H _].
  apply Nat.eqb_eq in H. exact H.
Qed.

Lemma pad_inj n m : 0 <= n < 100 -> 0 <= m < 100 -> pad n = pad m -> n = m.
Proof.
  intros Hn Hm Heq. pose proof pad_checks as H. rewrite forallb_forall in H.
  specialize (H n). rewrite <- list_elem_of_In, elem_of_seqZ in H.
  specialize (H ltac:(lia)). apply andb_true_iff in H as [_ H].
  rewrite forallb_forall in H. specialize (H m).
  rewrite <- list_elem_of_In, elem_of_seqZ in H. specialize (H ltac:(lia)).
  rewrite Heq, String.eqb_refl in H. cbn [implb] in H.
  apply Z.eqb_eq in H. exact H.
Qed.

(** The tail "-MM-DD" of a label has six characters and fixes month and day. *)
Lemma label_tail_inj m1 d1 m2 d2 :
  0 <= m1 < 100 -> 0 <= d1 < 100 -> 0 <= m2 < 100 -> 0 <= d2 < 100 ->
  "-" +:+ pad m1 +:+ "-" +:+ pad d1 = "-" +:+ pad m2 +:+ "-" +:+ pad d2 ->
  m1 = m2 /\ d1 = d2.
Proof.
  intros Hm1 Hd1 Hm2 Hd2 Heq.
  rewrite !(append_cons "-" EmptyString), !append_nil in Heq.
  injection Heq as Heq.
  apply append_inj_tail in Heq as [Hm Hd].
  - injection Hd as Hd. split; apply pad_inj; assumption.
  - cbn [String.length]. rewrite !pad_length by assumption. reflexivity.
Qed.

Lemma label_tail_length m d :
  0 <= m < 100 -> 0 <= d < 100 ->
  String.length ("-" +:+ pad m +:+ "-" +:+ pad d) = 6%nat.
Proof.
  intros Hm Hd. rewrite !length_append, !pad_length by assumption. reflexivity.
Qed.

Lemma toISO_inj d1 d2 : toISO d1 = toISO d2 -> d1 = d2.
Proof.
  unfold toISO. intros Heq.
  pose proof (getMonth_range d1). pose proof (getMonth_range d2).
  pose proof (getDate_range d1). pose proof (getDate_range d2).
  apply append_inj_tail in Heq as [Hy Htail].
  - apply (inj pretty) in Hy.
    apply label_tail_inj in Htail as [Hm Hd]; try lia.
    rewrite <- (MakeDay_fields d1), <- (MakeDay_fields d2).
    f_equal; [exact Hy|lia|exact Hd].
  - rewrite !label_tail_length by lia. reflexivity.
Qed.

Lemma window_labels_NoDup now : NoDup (window_labels now).
Proof.
  apply NoDup_alt. intros i j x Hi Hj.
  pose proof (lookup_lt_Some _ _ _ Hi) as Hli.
  pose proof (lookup_lt_Some _ _ _ Hj) as Hlj.
  rewrite window_labels_length in Hli, Hlj.
  rewrite window_labels_lookup in Hi, Hj by assumption.
  injection Hi as <-. injection Hj as Hj. apply toISO_inj in Hj. lia.
Qed.


(** The example of the specification: the window ending 2024-06-15. *)
Example rollingWindowSeries_2024_06_15 :
  d_date <$> (last (rollingWindowSeries Sample.three (MakeDay 2024 5 15)
                                        Sample.no_filter) ≫= id)
  = Some "2024-06-15"%string.
Proof. vm_compute. reflexivity. Qed.

Lemma chart_add_unmatched now m t :
  chart_inv now m -> JSString.key (t_date t) ∉ window_labels now ->
  chart_add m t = m.
Proof.
  intros Hinv Hk. unfold chart_add. cbv zeta.
  pose proof (Hinv (JSString.key (t_date t))) as H.
  destruct (m !! JSString.key (t_date t)); [|reflexivity].
  destruct H as [H _]. contradiction.
Qed.

Lemma chartDaily_skip now before after t :
  JSString.key (t_date t) ∉ window_labels now ->
  chartDaily now (before ++ t :: after) = chartDaily now (before ++ after).
Proof.
  intros Hk. unfold chartDaily.
  destruct (chart_init_spec now) as (map0 & -> & Hlk).
  rewrite !fold_left_app. cbn [fold_left].
  rewrite (chart_add_unmatched now); [reflexivity| |exact Hk].
  apply chart_fold_inv, chart_init_inv, Hlk.
Qed.

(** C9: a transaction whose date field, taken as a property key, is not
    literally one of the 30 labels of the window changes nothing: the series
    is the one computed without it, before and after filtering.  Dates are
    compared as strings, never parsed. *)
Theorem chartDaily_exact_label_match (now : Date) (f : Filters)
  (before after : list Transaction) (t : Transaction) :
  JSString.key (t_date t) ∉ window_labels now ->
  chartDaily now (before ++ t :: after) = chartDaily now (before ++ after) /\
  rollingWindowSeries (before ++ t :: after) now f =
    rollingWindowSeries (before ++ after) now f.
Proof.
  intros Hk. split; [apply chartDaily_skip, Hk|].
  unfold rollingWindowSeries, filtered. rewrite !List.filter_app. cbn [List.filter].
  destruct (inType f t && inCategory f t && inText f t && inDate f t);
    [apply chartDaily_skip, Hk|reflexivity].
Qed.

Lemma chartDaily_exact_label_match_witness :
  (JSString.key (t_date Sample2.timed) ∉ window_labels (MakeDay 2024 5 15)) /\
  chartDaily (MakeDay 2024 5 15) ([Sample2.on_day] ++ Sample2.timed :: []) =
    chartDaily (MakeDay 2024 5 15) ([Sample2.on_day] ++ []).
Proof.
  assert (H : JSString.key (t_date Sample2.timed)
              ∉ window_labels (MakeDay 2024 5 15)).
  { apply (bool_decide_unpack _). vm_compute. exact I. }
  split; [exact H|].
  exact (proj1 (chartDaily_exact_label_match (MakeDay 2024 5 15)
                  Sample.no_filter [Sample2.on_day] [] Sample2.timed H)).
Defined.

(** ** Daily series of the current month *)

Section DailyFacts.
Import Legacy Daily.

Variables (currentYear currentMonth : Z).
Hypothesis Hyear : 99 < currentYear.
Hypothesis Hmonth : 0 <= currentMonth <= 11.

Lemma newDate_literal m dt : newDate currentYear m dt = MakeDay currentYear m dt.
Proof.
  unfold newDate. destruct (Z.leb_spec currentYear 99); [lia|].
  rewrite andb_false_r. reflexivity.
Qed.

(** The day count read off [new Date(y, m + 1, 0)] is the calendar's. *)
Lemma daysInMonth_calendar :
  Daily.daysInMonth currentYear currentMonth =
  JSDate.daysInMonth currentYear currentMonth.
Proof.
  unfold Daily.daysInMonth.
  rewrite newDate_literal, MakeDay_month_end by exact Hmonth.
  apply getDate_MakeDay; [exact Hmonth|].
  pose proof (daysInMonth_range currentYear currentMonth). lia.
Qed.

Lemma dateLabels_lookup (k : nat) :
  Z.of_nat k < JSDate.daysInMonth currentYear currentMonth ->
  dateLabels currentYear currentMonth !! k =
  Some (format_yyyy_MM_dd (MakeDay currentYear currentMonth (Z.of_nat k + 1))).
Proof.
  intros Hk. unfold dateLabels. rewrite list_lookup_fmap, daysInMonth_calendar.
  rewrite lookup_seqZ_lt by lia. cbn [fmap option_fmap option_map].
  rewrite newDate_literal, Z.add_0_l. reflexivity.
Qed.

(** Inside one month the label fixes the day. *)
Lemma format_same_month d1 d2 :
  getFullYear d1 = getFullYear d2 -> getMonth d1 = getMonth d2 ->
  format_yyyy_MM_dd d1 = format_yyyy_MM_dd d2 -> d1 = d2.
Proof.
  intros Hy Hm Hf. unfold format_yyyy_MM_dd in Hf. cbv zeta in Hf.
  rewrite Hy, Hm in Hf.
  apply (inj (String.append _)) in Hf. apply (inj (String.append _)) in Hf.
  apply (inj (String.append _)) in Hf. apply (inj (String.append _)) in Hf.
  pose proof (getDate_range d1). pose proof (getDate_range d2).
  apply pad_inj in Hf; [|lia..].
  rewrite <- (MakeDay_fields d1), <- (MakeDay_fields d2). congruence.
Qed.

Lemma byDate_fold (xs : list Transaction) (m : gmap string Z) (k : string) :
  get_or_0
    (fold_left
       (fun byDate tx =>
          let key := format_yyyy_MM_dd (date tx) in
          <[key := get_or_0 byDate key + amount tx]> byDate) xs m) k =
  get_or_0 m k +
  sum_where amount (fun t => String.eqb (format_yyyy_MM_dd (date t)) k) xs.
Proof.
  revert m. induction xs as [|t xs IH]; intros m.
  - unfold sum_where. simpl. lia.
  - cbn [fold_left]. rewrite IH. unfold sum_where. cbn [List.filter].
    unfold get_or_0 at 1.
    destruct (String.eqb_spec (format_yyyy_MM_dd (date t)) k) as [->|Hne].
    + rewrite lookup_insert_eq. cbn [default map foldr]. unfold id. lia.
    + rewrite lookup_insert_ne by exact Hne. fold (get_or_0 m k). lia.
Qed.

Lemma sum_where_ext {A} (amt : A -> Z) (p q : A -> bool) (xs : list A) :
  (forall x, x ∈ xs -> p x = q x) -> sum_where amt p xs = sum_where amt q xs.
Proof.
  unfold sum_where. induction xs as [|x xs IH]; intros H; [reflexivity|].
  cbn [List.filter]. rewrite (H x) by left.
  assert (Hxs : forall y, y ∈ xs -> p y = q y) by (intros y Hy; apply H; now right).
  destruct (q x); cbn [map foldr]; rewrite (IH Hxs); reflexivity.
Qed.

Lemma sum_where_filter {A} (amt : A -> Z) (p q : A -> bool) (xs : list A) :
  sum_where amt p (List.filter q xs) = sum_where amt (fun x => q x && p x) xs.
Proof.
  unfold sum_where. induction xs as [|x xs IH]; [reflexivity|].
  cbn [List.filter]. destruct (q x); cbn [List.filter andb];
    [destruct (p x); cbn [map foldr]|]; rewrite IH; reflexivity.
Qed.

(** The sum shown for a day of the month: the expenses dated that day. *)
Lemma lineData_day (transactions : list Transaction) (dt : Z) :
  1 <= dt <= JSDate.daysInMonth currentYear currentMonth ->
  get_or_0 (byDate currentYear currentMonth transactions)
           (format_yyyy_MM_dd (MakeDay currentYear currentMonth dt)) =
  sum_where amount
    (fun t => is_expense t && (date t =? MakeDay currentYear currentMonth dt))
    transactions.
Proof.
  intros Hdt. unfold byDate. rewrite byDate_fold.
  unfold get_or_0 at 1. rewrite lookup_empty. cbn [default]. unfold id.
  unfold monthExpenseTx, expenseTx. rewrite !sum_where_filter, Z.add_0_l.
  apply sum_where_ext. intros t _.
  destruct (is_expense t); cbn [andb]; [|reflexivity].
  pose proof (getFullYear_MakeDay currentYear currentMonth dt Hmonth Hdt) as Hy.
  pose proof (getMonth_MakeDay currentYear currentMonth dt Hmonth Hdt) as Hm.
  destruct (Z.eqb_spec (date t) (MakeDay currentYear currentMonth dt)) as [->|Hne].
  - rewrite Hy, Hm, !Z.eqb_refl, String.eqb_refl. reflexivity.
  - destruct (Z.eqb_spec (getMonth (date t)) currentMonth) as [Em|];
      [|reflexivity].
    destruct (Z.eqb_spec (getFullYear (date t)) currentYear) as [Ey|];
      [|reflexivity].
    cbn [andb]. apply String.eqb_neq. intros Hf. apply Hne.
    apply format_same_month; congruence.
Qed.

End DailyFacts.

Lemma sum_where_none {A} (amt : A -> Z) (p : A -> bool) (xs : list A) :
  (forall x, x ∈ xs -> p x = false) -> sum_where amt p xs = 0.
Proof.
  intros H. rewrite (sum_where_ext amt p (fun _ => false) xs H).
  clear H. unfold sum_where. induction xs as [|x xs IH]; [reflexivity|exact IH].
Qed.

Lemma dailySeries_length (transactions : list Legacy.Transaction) y m :
  length (Daily.dailySeriesForMonth transactions y m) =
  Z.to_nat (Daily.daysInMonth y m).
Proof.
  unfold Daily.dailySeriesForMonth, Daily.lineData, Daily.dateLabels.
  rewrite length_zip_with, !length_map, length_seqZ. lia.
Qed.

(** C4: for a year the Date constructor takes literally (above 99) and a
    month 0..11, the daily series has one entry per day of the month, as
    many as the leap-year-aware calendar gives; entry k (from 0) is labelled
    with day k + 1 of that month and carries the sum of the expense amounts
    dated that day, hence 0 when no expense falls on it.  For no
    transactions and February 2024 the series has 29 entries, all 0. *)
Theorem dailySeriesForMonth_dense (transactions : list Legacy.Transaction)
  (currentYear currentMonth : Z) :
  99 < currentYear -> 0 <= currentMonth <= 11 ->
  length (Daily.dailySeriesForMonth transactions currentYear currentMonth) =
    Z.to_nat (JSDate.daysInMonth currentYear currentMonth) /\
  (forall k : nat,
     Z.of_nat k < JSDate.daysInMonth currentYear currentMonth ->
     exists day : Date,
       getFullYear day = currentYear /\ getMonth day = currentMonth /\
       getDate day = Z.of_nat k + 1 /\
       Daily.dailySeriesForMonth transactions currentYear currentMonth !! k =
         Some (format_yyyy_MM_dd day,
               sum_where Legacy.amount
                 (fun t => Legacy.is_expense t && (Legacy.date t =? day))
                 transactions) /\
       ((forall t, t ∈ transactions -> Legacy.is_expense t = true ->
                   Legacy.date t <> day) ->
        snd <$> Daily.dailySeriesForMonth transactions currentYear currentMonth
                  !! k = Some 0)) /\
  length (Daily.dailySeriesForMonth [] 2024 1) = 29%nat /\
  Forall (fun p => snd p = 0) (Daily.dailySeriesForMonth [] 2024 1).
Proof.
  intros Hy Hm. split; [|split; [|split]].
  - rewrite dailySeries_length, (daysInMonth_calendar _ _ Hy Hm). reflexivity.
  - intros k Hk.
    set (day := MakeDay currentYear currentMonth (Z.of_nat k + 1)).
    assert (Hdt : 1 <= Z.of_nat k + 1 <= JSDate.daysInMonth currentYear currentMonth)
      by lia.
    assert (Hentry :
      Daily.dailySeriesForMonth transactions currentYear currentMonth !! k =
      Some (format_yyyy_MM_dd day,
            sum_where Legacy.amount
              (fun t => Legacy.is_expense t && (Legacy.date t =? day))
              transactions)).
    { unfold Daily.dailySeriesForMonth, Daily.lineData.
      rewrite lookup_zip_with, list_lookup_fmap.
      rewrite (dateLabels_lookup _ _ Hy Hm k Hk).
      cbn [fmap option_fmap option_map mbind option_bind].
      rewrite (lineData_day _ _ Hm transactions _ Hdt). reflexivity. }
    exists day. split; [apply getFullYear_MakeDay; assumption|].
    split; [apply getMonth_MakeDay; assumption|].
    split; [apply getDate_MakeDay; assumption|].
    split; [exact Hentry|].
    intros Hnone. rewrite Hentry. cbn [fmap option_fmap option_map snd].
    f_equal. apply sum_where_none. intros t Ht.
    destruct (Legacy.is_expense t) eqn:He; [|reflexivity]. cbn [andb].
    apply Z.eqb_neq, Hnone; assumption.
  - vm_compute. reflexivity.
  - apply Forall_forall. intros p Hp. apply list_elem_of_In in Hp.
    vm_compute in Hp.
    repeat (destruct Hp as [<-|Hp]; [reflexivity|]). destruct Hp.
Qed.

Lemma dailySeriesForMonth_dense_witness :
  99 < 2024 /\ 0 <= 1 <= 11 /\
  length (Daily.dailySeriesForMonth [] 2024 1) =
    Z.to_nat (JSDate.daysInMonth 2024 1).
Proof.
  assert (Hy : 99 < 2024) by lia. assert (Hm : 0 <= 1 <= 11) by lia.
  split; [exact Hy|]. split; [exact Hm|].
  exact (proj1 (dailySeriesForMonth_dense [] 2024 1 Hy Hm)).
Defined.

(** ** Expenses of the current month *)

Section MonthlyFacts.
Variable DateParse : string -> option Date.

Lemma monthlyExpenses_fold current txs total :
  fold_left
    (fun total t =>
       if negb (type_is t "expense") || JSString.absent (t_date t)
       then total
       else
         match DateParse (JSString.key (t_date t)) with
         | None => total
         | Some d =>
             if (getFullYear d =? fst current) && (getMonth d =? snd current)
             then total + t_amount t
             else total
         end) txs total =
  total + sum_where t_amount (counts_in_month DateParse current) txs.
Proof.
  revert total. induction txs as [|t txs IH]; intros total.
  - unfold sum_where. simpl. lia.
  - cbn [fold_left]. rewrite IH. unfold sum_where. cbn [List.filter].
    unfold counts_in_month at 2.
    destruct (type_is t "expense"); cbn [negb orb andb]; [|lia].
    destruct (t_date t) as [[|c s]|]; simpl; try lia.
    destruct (DateParse (String c s)) as [d|]; [|lia].
    destruct ((getFullYear d =? fst current) && (getMonth d =? snd current));
      simpl; lia.
Qed.

(** The sum runs over the records typed exactly "expense" whose date is
    present, parses and lies in the current year and month; nothing else
    enters, and no record raises an error. *)
Lemma monthlyExpenses_sum current txs :
  monthlyExpenses DateParse current txs =
  sum_where t_amount (counts_in_month DateParse current) txs.
Proof.
  unfold monthlyExpenses. destruct current as [year month].
  pose proof (monthlyExpenses_fold (year, month) txs 0) as H.
  cbn [fst snd] in H. rewrite H. lia.
Qed.

End MonthlyFacts.

(** C5, at the failing input: a record without a type field, dated inside
    the reference month, has effective type "expense" but adds nothing to
    the expenses of the month, whatever host parses the date; the totals of
    the view count the same record as an expense. *)
Theorem monthlyExpenses_skips_untyped :
  effective_type (t_type Sample.untyped) = "expense"%string /\
  (getFullYear <$> isoDateOnly "2024-06-10", getMonth <$> isoDateOnly "2024-06-10")
    = (Some 2024, Some 5) /\
  currentMonth (MakeDay 2024 5 15) = (2024, 5) /\
  (forall DateParse current,
     monthlyExpenses DateParse current [Sample.untyped] = 0) /\
  expense (sums [Sample.untyped]) = 200.
Proof.
  split; [reflexivity|]. split; [vm_compute; reflexivity|].
  split; [vm_compute; reflexivity|]. split; [|vm_compute; reflexivity].
  intros DateParse [year month]. reflexivity.
Qed.

(** ** Stable sorting *)

Section StableSort.
Context {A : Type} (le : A -> A -> bool).
Hypothesis le_total : forall a b, le a b = true \/ le b a = true.
Hypothesis le_trans : forall a b c, le a b = true -> le b c = true -> le a c = true.

Lemma insert_sorted_perm x l : Permutation (insert_sorted le x l) (x :: l).
Proof.
  induction l as [|y l IH]; cbn [insert_sorted]; [reflexivity|].
  destruct (le x y); [reflexivity|].
  rewrite IH. apply perm_swap.
Qed.

Lemma stable_sort_perm l : Permutation (stable_sort le l) l.
Proof.
  induction l as [|x l IH]; [reflexivity|].
  cbn [stable_sort foldr]. fold (stable_sort le l).
  rewrite insert_sorted_perm. now apply perm_skip.
Qed.

Lemma insert_sorted_sorted x l :
  StronglySorted (fun a b => le a b = true) l ->
  StronglySorted (fun a b => le a b = true) (insert_sorted le x l).
Proof.
  induction 1 as [|y l Hs IH Hy]; cbn [insert_sorted].
  - repeat constructor.
  - destruct (le x y) eqn:Exy.
    + constructor; [constructor; assumption|].
      constructor; [exact Exy|].
      eapply List.Forall_impl; [|exact Hy]. intros z Hz. cbn beta in *. eauto.
    + constructor; [exact IH|].
      assert (Hyx : le y x = true) by (destruct (le_total x y); congruence).
      eapply Permutation_Forall; [symmetry; apply insert_sorted_perm|].
      constructor; assumption.
Qed.

Lemma stable_sort_sorted l :
  StronglySorted (fun a b => le a b = true) (stable_sort le l).
Proof.
  induction l as [|x l IH]; [constructor|].
  cbn [stable_sort foldr]. apply insert_sorted_sorted, IH.
Qed.

(** Elements that may stand before each other keep their relative order. *)
Lemma insert_sorted_stable (p : A -> bool) x l :
  (forall y, p x = true -> p y = true -> le x y = true) ->
  List.filter p (insert_sorted le x l) = List.filter p (x :: l).
Proof.
  intros Hp. induction l as [|y l IH]; cbn [insert_sorted]; [reflexivity|].
  destruct (le x y) eqn:Exy; [reflexivity|].
  cbn [List.filter] in *. rewrite IH.
  destruct (p x) eqn:Epx, (p y) eqn:Epy; try reflexivity.
  rewrite Hp in Exy by auto. discriminate.
Qed.

Lemma stable_sort_stable (p : A -> bool) l :
  (forall x y, p x = true -> p y = true -> le x y = true) ->
  List.filter p (stable_sort le l) = List.filter p l.
Proof.
  intros Hp. induction l as [|x l IH]; [reflexivity|].
  cbn [stable_sort foldr]. fold (stable_sort le l).
  rewrite insert_sorted_stable by (intros y; apply Hp).
  cbn [List.filter]. rewrite IH. reflexivity.
Qed.

Lemma stable_sort_length l : length (stable_sort le l) = length l.
Proof. apply Permutation_length, stable_sort_perm. Qed.

End StableSort.

Lemma stable_sort_map {A B} (g : B -> A) (leA : A -> A -> bool)
  (leB : B -> B -> bool) (l : list B) :
  (forall a b, leB a b = leA (g a) (g b)) ->
  map g (stable_sort leB l) = stable_sort leA (map g l).
Proof.
  intros Hg. induction l as [|x l IH]; [reflexivity|].
  cbn [stable_sort foldr map]. fold (stable_sort leB l).
  fold (stable_sort leA (map g l)). rewrite <- IH.
  generalize (stable_sort leB l) as s. clear IH.
  induction s as [|y s IHs]; [reflexivity|].
  cbn [insert_sorted map]. rewrite Hg.
  destruct (leA (g x) (g y)); cbn [map]; [reflexivity|]. now rewrite IHs.
Qed.

Lemma by_expense_desc_total a b :
  by_expense_desc a b = true \/ by_expense_desc b a = true.
Proof. unfold by_expense_desc. rewrite !Z.leb_le. lia. Qed.

Lemma by_expense_desc_trans a b c :
  by_expense_desc a b = true -> by_expense_desc b c = true ->
  by_expense_desc a c = true.
Proof. unfold by_expense_desc. rewrite !Z.leb_le. lia. Qed.

(** ** Grouping by category *)

Lemma first_seen_snoc ks k :
  first_seen (ks ++ [k]) =
  if bool_decide (k ∈ first_seen ks) then first_seen ks else first_seen ks ++ [k].
Proof. unfold first_seen. rewrite fold_left_app. reflexivity. Qed.

Lemma first_seen_elem ks k : k ∈ first_seen ks <-> k ∈ ks.
Proof.
  induction ks as [|x ks IH] using rev_ind.
  - reflexivity.
  - rewrite first_seen_snoc, elem_of_app, list_elem_of_singleton.
    case_bool_decide as Hx.
    + rewrite IH. split; [auto|]. intros [H| ->]; [exact H|].
      apply IH, Hx.
    + rewrite elem_of_app, list_elem_of_singleton, IH. reflexivity.
Qed.

Lemma first_seen_NoDup ks : NoDup (first_seen ks).
Proof.
  induction ks as [|x ks IH] using rev_ind.
  - constructor.
  - rewrite first_seen_snoc. case_bool_decide as Hx; [exact IH|].
    apply NoDup_app. split; [exact IH|]. split; [|apply NoDup_singleton].
    intros y Hy Hy'. apply list_elem_of_singleton in Hy'. subst. contradiction.
Qed.

Lemma sum_where_app {A} (amt : A -> Z) p (xs ys : list A) :
  sum_where amt p (xs ++ ys) = sum_where amt p xs + sum_where amt p ys.
Proof.
  unfold sum_where. rewrite List.filter_app, map_app.
  induction (map amt (List.filter p xs)) as [|z zs IH]; cbn [foldr app]; lia.
Qed.

Lemma category_sum_snoc k xs t :
  category_sum k (xs ++ [t]) =
  category_sum k xs +
  (if type_is t "expense" && String.eqb (t_category t) k then t_amount t else 0).
Proof.
  unfold category_sum. rewrite sum_where_app. f_equal.
  unfold sum_where. cbn [List.filter].
  destruct (type_is t "expense" && String.eqb (t_category t) k);
    cbn [map foldr]; lia.
Qed.

Lemma own_lookup_map {V} (mk : string -> V) (keys : list string) k :
  own_lookup k (map (fun k' => (k', mk k')) keys) =
  if bool_decide (k ∈ keys) then Some (mk k) else None.
Proof.
  unfold own_lookup. induction keys as [|x keys IH].
  - reflexivity.
  - cbn [map List.find fst]. destruct (String.eqb_spec x k) as [->|Hne].
    + rewrite bool_decide_eq_true_2 by left. reflexivity.
    + rewrite IH. apply option_eq. intros v.
      rewrite !(bool_decide_ext (k ∈ x :: keys) (k ∈ keys)); [reflexivity|].
      rewrite elem_of_cons. split; [intros [?|?]; [congruence|assumption]|auto].
Qed.

Lemma encounter_not_inherited txs k : k ∈ encounter txs -> inherited k = false.
Proof.
  unfold encounter. rewrite first_seen_elem, list_elem_of_In, in_map_iff.
  intros (t & <- & Ht). apply filter_In in Ht as [_ Ht].
  apply andb_true_iff in Ht as [_ Ht]. now apply negb_true_iff in Ht.
Qed.

Lemma category_sum_unseen txs k :
  k ∉ encounter txs -> inherited k = false -> category_sum k txs = 0.
Proof.
  intros Hk Hi. unfold category_sum. apply sum_where_none. intros t Ht.
  destruct (type_is t "expense") eqn:Et; [|reflexivity]. cbn [andb].
  apply String.eqb_neq. intros <-. apply Hk. unfold encounter.
  rewrite first_seen_elem, list_elem_of_In. apply in_map, filter_In.
  split; [now apply list_elem_of_In|]. now rewrite Et, Hi.
Qed.

Lemma encounter_snoc txs t :
  encounter (txs ++ [t]) =
  if type_is t "expense" && negb (inherited (t_category t))
  then (if bool_decide (t_category t ∈ encounter txs) then encounter txs
        else encounter txs ++ [t_category t])
  else encounter txs.
Proof.
  unfold encounter. rewrite List.filter_app. cbn [List.filter].
  destruct (type_is t "expense" && negb (inherited (t_category t))).
  - rewrite map_app. cbn [map]. apply first_seen_snoc.
  - now rewrite app_nil_r.
Qed.

(** The dictionary after the loop, in closed form. *)
Lemma agg_of_closed txs :
  agg_of txs = map (fun k => (k, slot_of txs k)) (encounter txs).
Proof.
  induction txs as [|t xs IH] using rev_ind; [reflexivity|].
  unfold agg_of in *. rewrite fold_left_app. cbn [fold_left]. rewrite IH.
  unfold agg_step. cbv zeta. rewrite encounter_snoc.
  destruct (type_is t "expense") eqn:Et; cbn [negb andb].
  - rewrite own_lookup_map. case_bool_decide as Hk.
    + rewrite (encounter_not_inherited xs _ Hk). cbn [negb].
      unfold own_alter. rewrite map_map. apply map_ext. intros k'. cbn [fst snd].
      unfold slot_of. rewrite category_sum_snoc, Et. cbn [andb s_category s_expense].
      rewrite (String.eqb_sym (t_category t) k').
      destruct (String.eqb k' (t_category t)); [reflexivity|].
      now rewrite Z.add_0_r.
    + destruct (inherited (t_category t)) eqn:Ei; cbn [negb].
      * apply map_ext_in. intros k' Hk'. unfold slot_of.
        rewrite category_sum_snoc, Et. cbn [andb].
        destruct (String.eqb_spec (t_category t) k') as [<-|]; [|now rewrite Z.add_0_r].
        exfalso. apply Hk. now apply list_elem_of_In.
      * rewrite map_app. cbn [map]. f_equal.
        -- apply map_ext_in. intros k' Hk'. unfold slot_of.
           rewrite category_sum_snoc, Et. cbn [andb].
           destruct (String.eqb_spec (t_category t) k') as [<-|]; [|now rewrite Z.add_0_r].
           exfalso. apply Hk. now apply list_elem_of_In.
        -- unfold slot_of. rewrite category_sum_snoc, Et, String.eqb_refl.
           cbn [andb s_category s_expense].
           rewrite (category_sum_unseen xs _ Hk Ei). reflexivity.
  - apply map_ext. intros k'. unfold slot_of.
    rewrite category_sum_snoc, Et. cbn [andb]. now rewrite Z.add_0_r.
Qed.

Lemma omap_index_map {V} (mk : string -> V) (keys : list string) :
  omap (fun p : string * V => (fun n => (n, snd p)) <$> arrayIndex (fst p))
       (map (fun k => (k, mk k)) keys) =
  map (fun p : N * string => (fst p, mk (snd p)))
      (omap (fun k => (fun n => (n, k)) <$> arrayIndex k) keys).
Proof.
  induction keys as [|k keys IH]; [reflexivity|].
  simpl. destruct (arrayIndex k); simpl; [f_equal|]; exact IH.
Qed.

Lemma Object_values_closed {V} (mk : string -> V) (keys : list string) :
  Object_values (map (fun k => (k, mk k)) keys) = map mk (values_order keys).
Proof.
  unfold Object_values, values_order. cbv zeta. rewrite map_app. f_equal.
  - rewrite omap_index_map.
    rewrite <- (stable_sort_map (fun p : N * string => (fst p, mk (snd p)))
                  (fun a b => (fst a <=? fst b)%N)
                  (fun a b => (fst a <=? fst b)%N)) by reflexivity.
    rewrite !map_map. reflexivity.
  - induction keys as [|k keys IH]; [reflexivity|].
    cbn [map List.filter fst]. destruct (bool_decide (arrayIndex k = None));
      cbn [map snd]; now rewrite IH.
Qed.

Lemma byCategory_closed txs :
  byCategory txs =
  take 10 (stable_sort by_expense_desc
             (map (slot_of txs) (values_order (encounter txs)))).
Proof.
  unfold byCategory, Array_sort.
  rewrite agg_of_closed, (Object_values_closed (slot_of txs)). reflexivity.
Qed.

Lemma index_part_filter (ks : list string) :
  map snd (omap (fun k => (fun n => (n, k)) <$> arrayIndex k) ks) =
  List.filter (fun k => negb (bool_decide (arrayIndex k = None))) ks.
Proof.
  induction ks as [|k ks IH]; [reflexivity|].
  simpl. destruct (arrayIndex k) as [n|]; simpl; [f_equal|]; exact IH.
Qed.

Lemma index_part_tagged (ks : list string) :
  Forall (fun p => arrayIndex (snd p) = Some (fst p))
         (omap (fun k => (fun n => (n, k)) <$> arrayIndex k) ks).
Proof.
  induction ks as [|k ks IH]; [constructor|].
  simpl. destruct (arrayIndex k) as [n|] eqn:E; simpl; [|exact IH].
  constructor; [exact E|exact IH].
Qed.

Lemma filter_split_perm {A} (p : A -> bool) (l : list A) :
  Permutation (List.filter (fun x => negb (p x)) l ++ List.filter p l) l.
Proof.
  induction l as [|x l IH]; [reflexivity|].
  cbn [List.filter]. destruct (p x); cbn [negb app].
  - rewrite <- Permutation_middle. now apply perm_skip.
  - now apply perm_skip.
Qed.

Lemma values_order_perm ks : Permutation (values_order ks) ks.
Proof.
  unfold values_order.
  rewrite (Permutation_map snd (stable_sort_perm _ _)), index_part_filter.
  apply filter_split_perm.
Qed.

(** Where no key is an array index, [Object.values] follows insertion. *)
Lemma values_order_named ks :
  (forall k, k ∈ ks -> arrayIndex k = None) -> values_order ks = ks.
Proof.
  intros H. unfold values_order.
  assert (Hidx : omap (fun k => (fun n => (n, k)) <$> arrayIndex k) ks = []).
  { induction ks as [|k ks IH]; [reflexivity|].
    simpl. rewrite (H k) by left. simpl.
    apply IH. intros k' Hk'. apply H. now right. }
  rewrite Hidx. cbn [stable_sort foldr map app]. clear Hidx.
  induction ks as [|k ks IH]; [reflexivity|].
  cbn [List.filter]. rewrite (H k) by left.
  rewrite bool_decide_eq_true_2 by reflexivity. f_equal.
  apply IH. intros k' Hk'. apply H. now right.
Qed.

Lemma values_order_index_sorted ks :
  StronglySorted index_le
    (map snd
       (stable_sort (fun a b => (fst a <=? fst b)%N)
          (omap (fun k => (fun n => (n, k)) <$> arrayIndex k) ks))).
Proof.
  set (l := omap _ ks).
  assert (Htag : Forall (fun p => arrayIndex (snd p) = Some (fst p))
                        (stable_sort (fun a b => (fst a <=? fst b)%N) l)).
  { eapply Permutation_Forall;
      [symmetry; apply stable_sort_perm|apply index_part_tagged]. }
  assert (Hs : StronglySorted (fun a b : N * string => (fst a <=? fst b)%N = true)
                 (stable_sort (fun a b => (fst a <=? fst b)%N) l)).
  { apply stable_sort_sorted.
    - intros a b. rewrite !N.leb_le. lia.
    - intros a b c. rewrite !N.leb_le. lia. }
  revert Htag Hs. generalize (stable_sort (fun a b => (fst a <=? fst b)%N) l).
  intros s Htag Hs. induction Hs as [|p s Hs IH Hp]; [constructor|].
  apply Forall_cons in Htag as [Hp1 Htag]. cbn [map]. constructor; [auto|].
  clear IH Hs. induction s as [|q s IHs]; [constructor|].
  apply Forall_cons in Htag as [Hq Htag]. apply Forall_cons in Hp as [Hpq Hp].
  cbn [map]. constructor; [|auto].
  exists (fst p), (fst q). apply N.leb_le in Hpq. auto.
Qed.

Lemma StronglySorted_weaken {A} (R S : A -> A -> Prop) (l : list A) :
  (forall a b, R a b -> S a b) -> StronglySorted R l -> StronglySorted S l.
Proof.
  intros HRS. induction 1 as [|x l Hs IH Hx]; constructor; [exact IH|].
  eapply List.Forall_impl; [|exact Hx]. intros b. apply HRS.
Qed.

Lemma StronglySorted_split {A} (R : A -> A -> Prop) (l1 l2 : list A) :
  StronglySorted R (l1 ++ l2) ->
  StronglySorted R l1 /\ forall a b, a ∈ l1 -> b ∈ l2 -> R a b.
Proof.
  induction l1 as [|x l1 IH]; cbn [app]; intros Hs.
  - split; [constructor|]. intros a b Ha. inversion Ha.
  - inversion Hs as [|? ? Hs' Hx]; subst. destruct (IH Hs') as [H1 H2].
    rewrite Forall_app in Hx. destruct Hx as [Hx1 Hx2]. split.
    + constructor; assumption.
    + intros a b Ha Hb. apply elem_of_cons in Ha as [->|Ha]; [|auto].
      rewrite Forall_forall in Hx2. auto.
Qed.

Lemma sorted_slots_sorted txs :
  StronglySorted (fun a b => s_expense b <= s_expense a) (sorted_slots txs).
Proof.
  eapply StronglySorted_weaken;
    [|apply stable_sort_sorted;
      [apply by_expense_desc_total|apply by_expense_desc_trans]].
  intros a b. unfold by_expense_desc. rewrite Z.leb_le. lia.
Qed.

Lemma sorted_slots_perm txs :
  Permutation (sorted_slots txs) (map (slot_of txs) (encounter txs)).
Proof.
  unfold sorted_slots. rewrite stable_sort_perm.
  apply Permutation_map, values_order_perm.
Qed.

Lemma sorted_slots_ties txs v :
  List.filter (fun s => s_expense s =? v) (sorted_slots txs) =
  List.filter (fun s => s_expense s =? v)
              (map (slot_of txs) (values_order (encounter txs))).
Proof.
  apply stable_sort_stable. intros x y Hx Hy.
  apply Z.eqb_eq in Hx, Hy. unfold by_expense_desc. apply Z.leb_le. lia.
Qed.

(** C7, counterexample: Food and 7 tie at 5 and Food is met first, yet 7
    comes first in the output, because [Object.values] lists array-index
    names before all others. *)
Lemma byCategory_tie_index_first :
  encounter Sample3.tie = ["Food"; "7"]%string /\
  byCategory Sample3.tie =
    [{| s_category := "7"; s_expense := 5 |};
     {| s_category := "Food"; s_expense := 5 |}].
Proof. split; vm_compute; reflexivity. Qed.

(** C7, amended: the top categories are the first ten of a list [full] of
    the category sums that is sorted by descending amount and in which
    entries of equal amount keep the order [Object.values] gives the
    categories: names that are array indices first, by ascending number
    ([idx]), then every other name in first-encounter order.  When no
    category name is an array index, ties are in first-encounter order.
    The output is a function of the input list alone. *)
Theorem byCategory_order (txs : list Transaction) :
  exists (idx : list string) (full : list Slot),
    byCategory txs = take 10 full /\
    StronglySorted (fun a b => s_expense b <= s_expense a) full /\
    StronglySorted (fun a b => s_expense b <= s_expense a) (byCategory txs) /\
    Permutation full (map (slot_of txs) (encounter txs)) /\
    (forall v,
       List.filter (fun s => s_expense s =? v) full =
       List.filter (fun s => s_expense s =? v)
         (map (slot_of txs)
              (idx ++ List.filter (fun k => bool_decide (arrayIndex k = None))
                                  (encounter txs)))) /\
    Permutation idx
      (List.filter (fun k => negb (bool_decide (arrayIndex k = None)))
                   (encounter txs)) /\
    StronglySorted index_le idx /\
    ((forall k, k ∈ encounter txs -> arrayIndex k = None) ->
     forall v,
       List.filter (fun s => s_expense s =? v) full =
       List.filter (fun s => s_expense s =? v)
                   (map (slot_of txs) (encounter txs))).
Proof.
  exists (map snd
            (stable_sort (fun a b => (fst a <=? fst b)%N)
               (omap (fun k => (fun n => (n, k)) <$> arrayIndex k)
                     (encounter txs)))),
         (sorted_slots txs).
  pose proof (sorted_slots_sorted txs) as Hsorted.
  split; [apply byCategory_closed|]. split; [exact Hsorted|]. split.
  { rewrite byCategory_closed. fold (sorted_slots txs).
    rewrite <- (take_drop 10 (sorted_slots txs)) in Hsorted.
    apply StronglySorted_split in Hsorted. apply Hsorted. }
  split; [apply sorted_slots_perm|]. split; [apply sorted_slots_ties|].
  split.
  { rewrite (Permutation_map snd (stable_sort_perm _ _)), index_part_filter.
    reflexivity. }
  split; [apply values_order_index_sorted|].
  intros Hnamed v. rewrite sorted_slots_ties, values_order_named by exact Hnamed.
  reflexivity.
Qed.

(** *** How many categories are kept *)

(** At most ten entries, and as many as there are categories in the
    dictionary up to ten; whatever is left out has an amount no larger
    than anything kept. *)
Lemma byCategory_top10 txs :
  length (byCategory txs) = Nat.min 10 (length (encounter txs)) /\
  exists dropped,
    Permutation (byCategory txs ++ dropped)
                (map (slot_of txs) (encounter txs)) /\
    forall a b, a ∈ byCategory txs -> b ∈ dropped ->
                s_expense b <= s_expense a.
Proof.
  rewrite byCategory_closed. fold (sorted_slots txs). split.
  - rewrite length_take, (Permutation_length (sorted_slots_perm txs)),
      length_map. reflexivity.
  - exists (drop 10 (sorted_slots txs)). rewrite take_drop.
    split; [apply sorted_slots_perm|].
    pose proof (sorted_slots_sorted txs) as Hs.
    rewrite <- (take_drop 10 (sorted_slots txs)) in Hs.
    apply StronglySorted_split in Hs. apply Hs.
Qed.

(** Without inherited names among the expense categories, the dictionary
    holds every distinct expense category. *)
Lemma encounter_all txs :
  (forall t, t ∈ txs -> type_is t "expense" = true ->
             inherited (t_category t) = false) ->
  encounter txs =
  first_seen (map t_category (List.filter (fun t => type_is t "expense") txs)).
Proof.
  intros H. unfold encounter. do 2 f_equal.
  induction txs as [|t txs IH]; [reflexivity|].
  cbn [List.filter]. destruct (type_is t "expense") eqn:Et; cbn [andb].
  - rewrite (H t) by (try left; assumption). cbn [negb]. f_equal.
    apply IH. intros t' Ht'. apply H. now right.
  - apply IH. intros t' Ht'. apply H. now right.
Qed.

(** C10, at the failing input: eleven distinct expense categories, the
    largest sum (1000) recorded under the name "constructor".  Ten entries
    come back, none of them "constructor", each with a smaller amount. *)
Theorem byCategory_drops_inherited_name :
  length (first_seen (map t_category
            (List.filter (fun t => type_is t "expense") Sample3.eleven)))
    = 11%nat /\
  category_sum "constructor" Sample3.eleven = 1000 /\
  length (byCategory Sample3.eleven) = 10%nat /\
  map s_category (byCategory Sample3.eleven) =
    ["J"; "I"; "H"; "G"; "F"; "E"; "D"; "C"; "B"; "A"]%string /\
  Forall (fun s => s_expense s < 1000) (byCategory Sample3.eleven).
Proof.
  split; [vm_compute; reflexivity|]. split; [vm_compute; reflexivity|].
  split; [vm_compute; reflexivity|]. split; [vm_compute; reflexivity|].
  apply Forall_forall. intros s Hs. apply list_elem_of_In in Hs.
  vm_compute in Hs.
  repeat (destruct Hs as [<-|Hs]; [reflexivity|]). destruct Hs.
Qed.

(** ** The store: what a call leaves behind *)

Module StoreFacts.

Lemma unchanged_refl (h : Store.heap) : Store.unchanged h h.
Proof. intros l o H. exact H. Qed.

Lemma unchanged_trans (h1 h2 h3 : Store.heap) :
  Store.unchanged h1 h2 -> Store.unchanged h2 h3 -> Store.unchanged h1 h3.
Proof. intros H12 H23 l o H. apply H23, H12, H. Qed.

Lemma fresh_None (h : Store.heap) : h !! fresh (dom h) = None.
Proof. apply not_elem_of_dom, is_fresh. Qed.

Lemma unchanged_fresh (h0 h : Store.heap) l :
  Store.unchanged h0 h -> h !! l = None -> h0 !! l = None.
Proof.
  intros Hu Hl. destruct (h0 !! l) as [o|] eqn:E; [|reflexivity].
  apply Hu in E. congruence.
Qed.

(** Writing to an object that did not exist at the start keeps the start. *)
Lemma unchanged_write (h0 h : Store.heap) l o :
  Store.unchanged h0 h -> h0 !! l = None -> Store.unchanged h0 (<[l := o]> h).
Proof.
  intros Hu Hl l' o' H. rewrite lookup_insert_ne by congruence. apply Hu, H.
Qed.

Lemma unchanged_alloc (h0 h : Store.heap) o :
  Store.unchanged h0 h -> Store.unchanged h0 (<[fresh (dom h) := o]> h).
Proof.
  intros Hu. apply unchanged_write; [exact Hu|].
  eapply unchanged_fresh; [exact Hu|apply fresh_None].
Qed.

Lemma foldM_ext {A B} (f g : B -> A -> Store.M B) b xs h :
  (forall b x h, f b x h = g b x h) -> Store.foldM f b xs h = Store.foldM g b xs h.
Proof.
  intros Hfg. revert b h. induction xs as [|x xs IH]; intros b h; [reflexivity|].
  cbn [Store.foldM]. unfold Store.bind. rewrite Hfg.
  destruct (g b x h) as [[b' h']|]; [apply IH|reflexivity].
Qed.

Lemma read_tx_ok (h : Store.heap) l t :
  h !! l = Some (Store.OTx t) -> Store.read_tx (Store.Ref l) h = Some (t, h).
Proof.
  intros H. unfold Store.read_tx, Store.bind, Store.read. rewrite H. reflexivity.
Qed.

(** A loop that only reads its records runs like the fold over the records
    and leaves the store as it was. *)
Lemma foldM_read_tx {B} (g : B -> Store.val -> Transaction -> B)
  (h : Store.heap) ls txs b :
  Forall2 (fun l t => h !! l = Some (Store.OTx t)) ls txs ->
  Store.foldM (fun b v => Store.bind (Store.read_tx v)
                            (fun t => Store.ret (g b v t)))
              b (map Store.Ref ls) h =
  Some (fold_left (fun b p => g b (Store.Ref (fst p)) (snd p)) (zip ls txs) b, h).
Proof.
  intros Hall. revert b. induction Hall as [|l t ls txs Hl _ IH]; intros b.
  - reflexivity.
  - cbn [map Store.foldM]. unfold Store.bind at 1. unfold Store.bind at 1.
    rewrite (read_tx_ok h l t Hl). unfold Store.ret at 1. apply IH.
Qed.

Lemma fold_left_zip_snd {A B C} (g : B -> C -> B) (ls : list A) (xs : list C) b :
  length ls = length xs ->
  fold_left (fun b p => g b (snd p)) (zip ls xs) b = fold_left g xs b.
Proof.
  revert xs b. induction ls as [|l ls IH]; intros [|x xs] b Hlen;
    try discriminate; [reflexivity|].
  cbn [zip zip_with fold_left snd]. apply IH. now injection Hlen.
Qed.

Lemma read_arr_ok (h : Store.heap) arr els :
  h !! arr = Some (Store.OArr els) -> Store.read_arr arr h = Some (els, h).
Proof.
  intros H. unfold Store.read_arr, Store.bind, Store.read. rewrite H. reflexivity.
Qed.

(** [sums] over the store returns the totals and changes nothing. *)
Lemma sums_store (h : Store.heap) arr txs :
  Store.tx_array h arr txs -> Store.sums arr h = Some (sums txs, h).
Proof.
  intros (ls & Harr & Hall). unfold Store.sums.
  unfold Store.bind at 1. rewrite (read_arr_ok h arr _ Harr).
  unfold Store.bind at 1.
  rewrite (foldM_ext _
             (fun b v => Store.bind (Store.read_tx v)
                (fun t => Store.ret
                   (if type_is t "income" then (fst b + t_amount t, snd b)
                    else (fst b, snd b + t_amount t))))).
  2:{ intros [i e] v h'. reflexivity. }
  rewrite (foldM_read_tx (fun b _ t =>
             if type_is t "income" then (fst b + t_amount t, snd b)
             else (fst b, snd b + t_amount t)) h ls txs (0, 0) Hall).
  rewrite (fold_left_zip_snd
             (fun b t => if type_is t "income" then (fst b + t_amount t, snd b)
                         else (fst b, snd b + t_amount t)))
    by (eapply Forall2_length; exact Hall).
  unfold Store.ret, sums. do 2 f_equal.
  assert (Hfold : forall xs acc,
    fold_left (fun b t => if type_is t "income" then (fst b + t_amount t, snd b)
                          else (fst b, snd b + t_amount t)) xs acc =
    fold_left (fun '(income, expense) t =>
                 if type_is t "income" then (income + t_amount t, expense)
                 else (income, expense + t_amount t)) xs acc).
  { induction xs as [|x xs IH]; intros [i e]; [reflexivity|].
    cbn [fold_left fst snd]. apply IH. }
  rewrite Hfold.
  destruct (fold_left _ txs (0, 0)) as [i e]. reflexivity.
Qed.

(** [monthlyExpenses] over the store returns the sum and changes nothing. *)
Lemma monthlyExpenses_store DateParse current (h : Store.heap) arr txs :
  Store.tx_array h arr txs ->
  Store.monthlyExpenses DateParse current arr h =
  Some (monthlyExpenses DateParse current txs, h).
Proof.
  intros (ls & Harr & Hall). unfold Store.monthlyExpenses.
  unfold Store.bind at 1. rewrite (read_arr_ok h arr _ Harr).
  rewrite (foldM_read_tx (fun total _ t =>
             if negb (type_is t "expense") ||
                JSString.absent (t_date t)
             then total
             else match DateParse (JSString.key (t_date t)) with
                  | None => total
                  | Some d =>
                      if (getFullYear d =? fst current) &&
                         (getMonth d =? snd current)
                      then total + t_amount t else total
                  end) h ls txs 0 Hall).
  rewrite (fold_left_zip_snd
             (fun total t =>
                if negb (type_is t "expense") ||
                   JSString.absent (t_date t)
                then total
                else match DateParse (JSString.key (t_date t)) with
                     | None => total
                     | Some d =>
                         if (getFullYear d =? fst current) &&
                            (getMonth d =? snd current)
                         then total + t_amount t else total
                     end))
    by (eapply Forall2_length; exact Hall).
  unfold monthlyExpenses. destruct current as [year month]. reflexivity.
Qed.

(** [filtered] over the store allocates one array, holding the references
    of the records that pass, and changes nothing else. *)
Lemma filtered_store f (h : Store.heap) arr txs :
  Store.tx_array h arr txs ->
  exists out h',
    Store.filtered f arr h = Some (out, h') /\
    Store.unchanged h h' /\ h !! out = None /\
    Store.tx_array h' out (filtered f txs).
Proof.
  intros (ls & Harr & Hall). unfold Store.filtered.
  unfold Store.bind at 1. rewrite (read_arr_ok h arr _ Harr).
  unfold Store.bind at 1.
  rewrite (foldM_read_tx (fun kept v t =>
             if inType f t && inCategory f t && inText f t && inDate f t
             then kept ++ [v] else kept) h ls txs [] Hall).
  unfold Store.alloc. cbv zeta.
  set (kept := fold_left _ (zip ls txs) []).
  exists (fresh (dom h)), (<[fresh (dom h) := Store.OArr kept]> h).
  split; [reflexivity|]. split; [apply unchanged_alloc, unchanged_refl|].
  split; [apply fresh_None|].
  assert (Hkept : forall acc_l acc_t,
    Forall2 (fun l t => h !! l = Some (Store.OTx t)) acc_l acc_t ->
    exists ls',
      fold_left (fun kept p =>
                   if inType f (snd p) && inCategory f (snd p) &&
                      inText f (snd p) && inDate f (snd p)
                   then kept ++ [Store.Ref (fst p)] else kept)
                (zip ls txs) (map Store.Ref acc_l) = map Store.Ref ls' /\
      Forall2 (fun l t => h !! l = Some (Store.OTx t)) ls'
              (acc_t ++ filtered f txs)).
  { clear kept Harr. induction Hall as [|l t ls txs Hl _ IH]; intros acc_l acc_t Hacc.
    - exists acc_l. split; [reflexivity|]. now rewrite app_nil_r.
    - cbn [zip zip_with fold_left fst snd]. unfold filtered. cbn [List.filter].
      destruct (inType f t && inCategory f t && inText f t && inDate f t).
      + destruct (IH (acc_l ++ [l]) (acc_t ++ [t])) as (ls' & E & H').
        { apply Forall2_app; [exact Hacc|]. constructor; [exact Hl|constructor]. }
        exists ls'. rewrite map_app in E. split; [exact E|].
        rewrite <- app_assoc in H'. exact H'.
      + apply IH, Hacc. }
  destruct (Hkept [] []) as (ls' & E & H'); [constructor|].
  exists ls'. split.
  - rewrite lookup_insert_eq. f_equal. f_equal. exact E.
  - eapply Forall2_impl; [exact H'|]. intros l t Hl. cbn beta in *.
    rewrite lookup_insert_ne; [exact Hl|].
    intros <-. rewrite fresh_None in Hl. discriminate.
Qed.

Lemma read_legacy_ok (h : Store.heap) l t :
  h !! l = Some (Store.OLegacyTx t) ->
  Store.read_legacy (Store.Ref l) h = Some (t, h).
Proof.
  intros H. unfold Store.read_legacy, Store.bind, Store.read. rewrite H.
  reflexivity.
Qed.

(** The daily series over the store reads the records and changes nothing. *)
Lemma dailySeries_store (h : Store.heap) arr txs y m :
  Store.legacy_array h arr txs ->
  Store.dailySeriesForMonth arr y m h =
  Some (Daily.dailySeriesForMonth txs y m, h).
Proof.
  intros (ls & Harr & Hall). unfold Store.dailySeriesForMonth.
  unfold Store.bind at 1. rewrite (read_arr_ok h arr _ Harr).
  unfold Store.bind at 1. unfold Store.mapM.
  assert (Hmap : forall acc,
    Store.foldM (fun acc x => Store.bind (Store.read_legacy x)
                                (fun y => Store.ret (acc ++ [y])))
                acc (map Store.Ref ls) h = Some (acc ++ txs, h)).
  { clear Harr. induction Hall as [|l t ls txs Hl _ IH]; intros acc.
    - cbn [map Store.foldM]. now rewrite app_nil_r.
    - cbn [map Store.foldM]. unfold Store.bind at 1. unfold Store.bind at 1.
      rewrite (read_legacy_ok h l t Hl). unfold Store.ret at 1.
      rewrite IH, <- app_assoc. reflexivity. }
  rewrite Hmap. reflexivity.
Qed.

(** *** The 30-day series over the store *)

Lemma chart_sim_alloc h0 h m pm d e :
  chart_sim h0 h m pm ->
  chart_sim h0 (<[fresh (dom h) := Store.OEntry e]> h)
            (<[d := fresh (dom h)]> m) (<[d := e]> pm).
Proof.
  intros (Hu & Hrel & Hfresh & Hinj).
  assert (Hnew : forall k, m !! k <> Some (fresh (dom h))).
  { intros k Hk. specialize (Hrel k). rewrite Hk in Hrel.
    unfold entry_rel in Hrel. destruct (pm !! k); [|exact Hrel].
    rewrite fresh_None in Hrel. discriminate. }
  split; [apply unchanged_alloc, Hu|]. split; [|split].
  - intros k. destruct (decide (d = k)) as [->|Hne].
    + rewrite !lookup_insert_eq. cbn. apply lookup_insert_eq.
    + rewrite !lookup_insert_ne by exact Hne.
      specialize (Hrel k). unfold entry_rel in *.
      destruct (m !! k) as [l|] eqn:Hk, (pm !! k); try exact Hrel.
      rewrite lookup_insert_ne; [exact Hrel|].
      intros <-. exact (Hnew k Hk).
  - intros k l. destruct (decide (d = k)) as [->|Hne].
    + rewrite lookup_insert_eq. intros [= <-].
      eapply unchanged_fresh; [exact Hu|apply fresh_None].
    + rewrite lookup_insert_ne by exact Hne. apply Hfresh.
  - intros k1 k2 l.
    destruct (decide (d = k1)) as [<-|H1], (decide (d = k2)) as [<-|H2];
      rewrite ?lookup_insert_eq, ?lookup_insert_ne by assumption.
    + reflexivity.
    + intros [= <-] Hk. destruct (Hnew k2 Hk).
    + intros Hk [= <-]. destruct (Hnew k1 Hk).
    + apply Hinj.
Qed.

Lemma chart_init_store_fold now h0 cnt :
  forall dates m pm h,
    chart_sim h0 h m pm ->
    exists m' h',
      Store.foldM
        (fun '(dates, map) i =>
           let d := daysAgo now i in
           Store.bind
             (Store.alloc (Store.OEntry {| d_date := d; d_income := 0;
                                           d_expense := 0; d_net := 0 |}))
             (fun l => Store.ret (dates ++ [d], <[d := l]> map)))
        (dates, m) cnt h =
        Some ((fst (fold_left
                      (fun '(dates, map) i =>
                         let d := daysAgo now i in
                         (dates ++ [d],
                          <[d := {| d_date := d; d_income := 0; d_expense := 0;
                                    d_net := 0 |}]> map))
                      cnt (dates, pm)), m'), h') /\
      chart_sim h0 h' m'
        (snd (fold_left
                (fun '(dates, map) i =>
                   let d := daysAgo now i in
                   (dates ++ [d],
                    <[d := {| d_date := d; d_income := 0; d_expense := 0;
                              d_net := 0 |}]> map))
                cnt (dates, pm))).
Proof.
  induction cnt as [|i cnt IH]; intros dates m pm h Hsim.
  - exists m, h. split; [reflexivity|exact Hsim].
  - cbn [Store.foldM fold_left]. unfold Store.bind at 1. cbv zeta.
    unfold Store.bind at 1. unfold Store.alloc at 1. cbv zeta.
    unfold Store.ret at 1.
    apply IH, chart_sim_alloc, Hsim.
Qed.

Lemma chart_sim_empty h0 : chart_sim h0 h0 ∅ ∅.
Proof.
  split; [apply unchanged_refl|]. split; [|split].
  - intros k. rewrite !lookup_empty. exact I.
  - intros k l. rewrite lookup_empty. discriminate.
  - intros k1 k2 l. rewrite lookup_empty. discriminate.
Qed.

Lemma chart_add_store h0 h m pm lt t :
  chart_sim h0 h m pm -> h0 !! lt = Some (Store.OTx t) ->
  exists h', Store.chart_add m (Store.Ref lt) h = Some (tt, h') /\
             chart_sim h0 h' m (chart_add pm t).
Proof.
  intros (Hu & Hrel & Hfresh & Hinj) Hlt.
  unfold Store.chart_add, chart_add. unfold Store.bind at 1.
  rewrite (read_tx_ok h lt t (Hu _ _ Hlt)). cbv zeta.
  pose proof (Hrel (JSString.key (t_date t))) as Hk. unfold entry_rel in Hk.
  destruct (m !! JSString.key (t_date t)) as [l|] eqn:Hm,
           (pm !! JSString.key (t_date t)) as [e|] eqn:Hpm; try contradiction.
  - unfold Store.bind, Store.read_entry, Store.bind, Store.read. rewrite Hk.
    unfold Store.ret, Store.write. rewrite Hk.
    eexists. split; [reflexivity|].
    split; [apply unchanged_write; [exact Hu|eapply Hfresh; exact Hm]|].
    split; [|split; [exact Hfresh|exact Hinj]].
    intros k. destruct (decide (JSString.key (t_date t) = k)) as [<-|Hne].
    + rewrite Hm, lookup_insert_eq. cbn. apply lookup_insert_eq.
    + rewrite (lookup_insert_ne pm) by exact Hne.
      specialize (Hrel k). unfold entry_rel in *.
      destruct (m !! k) as [l'|] eqn:Hk', (pm !! k); try exact Hrel.
      rewrite lookup_insert_ne; [exact Hrel|].
      intros <-. apply Hne. eapply Hinj; eassumption.
  - exists h. split; [reflexivity|]. repeat split; assumption.
Qed.

Lemma chart_loop_store h0 m ls txs :
  Forall2 (fun l t => h0 !! l = Some (Store.OTx t)) ls txs ->
  forall h pm,
    chart_sim h0 h m pm ->
    exists h',
      Store.foldM (fun _ v => Store.chart_add m v) tt (map Store.Ref ls) h =
        Some (tt, h') /\
      chart_sim h0 h' m (fold_left chart_add txs pm).
Proof.
  induction 1 as [|l t ls txs Hl _ IH]; intros h pm Hsim.
  - exists h. split; [reflexivity|exact Hsim].
  - cbn [map Store.foldM fold_left]. unfold Store.bind at 1.
    destruct (chart_add_store h0 h m pm l t Hsim Hl) as (h1 & -> & Hsim1).
    apply IH, Hsim1.
Qed.

Lemma chart_init_store now (h : Store.heap) :
  exists m h',
    Store.chart_init now h = Some ((fst (chart_init now), m), h') /\
    chart_sim h h' m (snd (chart_init now)).
Proof.
  unfold Store.chart_init, chart_init.
  apply chart_init_store_fold, chart_sim_empty.
Qed.

(** [chartDaily] over the store: a new array of new entry objects, holding
    what the pure model computes; every object of the start is unchanged. *)
Lemma chartDaily_store now (h : Store.heap) arr txs :
  Store.tx_array h arr txs ->
  exists out h' els,
    Store.chartDaily now arr h = Some (out, h') /\
    Store.unchanged h h' /\ h !! out = None /\
    h' !! out = Some (Store.OArr els) /\
    Forall2 (Store.new_object Store.OEntry h h') els (chartDaily now txs).
Proof.
  intros (ls & Harr & Hall). unfold Store.chartDaily, chartDaily.
  destruct (chart_init_store now h) as (m & h1 & Hinit & Hsim1).
  unfold Store.bind at 1. rewrite Hinit. cbv zeta. cbn [fst snd].
  destruct (chart_init now) as [dates pm0] eqn:Hpure.
  cbn [fst snd] in *.
  unfold Store.bind at 1.
  rewrite (read_arr_ok h1 arr _ (proj1 Hsim1 _ _ Harr)).
  destruct (chart_loop_store h m ls txs Hall h1 pm0 Hsim1) as (h2 & Hloop & Hsim2).
  unfold Store.bind at 1. rewrite Hloop. unfold Store.alloc. cbv zeta.
  destruct Hsim2 as (Hu & Hrel & Hfresh & _).
  eexists _, _, _. split; [reflexivity|].
  split; [apply unchanged_alloc, Hu|].
  split; [eapply unchanged_fresh; [exact Hu|apply fresh_None]|].
  split; [apply lookup_insert_eq|].
  assert (Hgen : forall o ds,
    Forall2 (Store.new_object Store.OEntry h (<[fresh (dom h2) := o]> h2))
      (map (fun d => from_option Store.Ref Store.Undefined (m !! d)) ds)
      (map (fun d => fold_left chart_add txs pm0 !! d) ds)).
  { intros o ds. induction ds as [|d ds IHd]; cbn [map]; constructor;
      [|exact IHd].
    specialize (Hrel d). unfold entry_rel in Hrel. unfold Store.new_object.
    destruct (m !! d) as [l|] eqn:Hm, (fold_left chart_add txs pm0 !! d);
      cbn [from_option]; try exact Hrel.
    split; [eapply Hfresh; exact Hm|].
    rewrite lookup_insert_ne; [exact Hrel|].
    intros <-. rewrite fresh_None in Hrel. discriminate. }
  apply Hgen.
Qed.

(** *** The top categories over the store *)

Lemma NoDup_map_inj {A B} (f : A -> B) (l : list A) x y :
  NoDup (map f l) -> x ∈ l -> y ∈ l -> f x = f y -> x = y.
Proof.
  induction l as [|z l IH]; intros Hnd Hx Hy Hf; [inversion Hx|].
  cbn [map] in Hnd. apply NoDup_cons in Hnd as [Hz Hnd].
  apply elem_of_cons in Hx as [->|Hx], Hy as [->|Hy].
  - reflexivity.
  - exfalso. apply Hz. rewrite Hf. apply list_elem_of_In, in_map.
    now apply list_elem_of_In.
  - exfalso. apply Hz. rewrite <- Hf. apply list_elem_of_In, in_map.
    now apply list_elem_of_In.
  - auto.
Qed.

Lemma own_lookup_values {V W} (g : V -> W) k (o : list (string * V)) :
  own_lookup k (map (fun p => (fst p, g (snd p))) o) = g <$> own_lookup k o.
Proof.
  unfold own_lookup. induction o as [|p o IH]; [reflexivity|].
  cbn [map List.find fst]. destruct (String.eqb (fst p) k); [reflexivity|exact IH].
Qed.

Lemma own_lookup_Some {V} k (o : list (string * V)) v :
  own_lookup k o = Some v -> (k, v) ∈ o.
Proof.
  unfold own_lookup. induction o as [|[k' v'] o IH]; [discriminate|].
  cbn [List.find fst]. destruct (String.eqb_spec k' k) as [->|Hne].
  - intros [= <-]. left.
  - intros H. right. auto.
Qed.

Lemma own_lookup_None {V} k (o : list (string * V)) :
  own_lookup k o = None -> k ∉ map fst o.
Proof.
  unfold own_lookup. induction o as [|[k' v'] o IH]; [intros _ H; inversion H|].
  cbn [List.find fst map]. destruct (String.eqb_spec k' k) as [->|Hne].
  - discriminate.
  - intros H Hin. apply elem_of_cons in Hin as [->|Hin]; [congruence|].
    exact (IH H Hin).
Qed.

Lemma agg_step_store h0 h agg lt t :
  agg_sim h0 h agg -> h0 !! lt = Some (Store.OTx t) ->
  exists agg' h',
    Store.agg_step agg (Store.Ref lt) h = Some (agg', h') /\
    agg_sim h0 h' agg' /\
    slots_of h' agg' = agg_step (slots_of h agg) t.
Proof.
  intros (Hu & Hobj & Hlocs & Hkeys) Hlt.
  unfold Store.agg_step, agg_step. unfold Store.bind at 1.
  rewrite (read_tx_ok h lt t (Hu _ _ Hlt)).
  destruct (type_is t "expense"); cbn [negb].
  2:{ exists agg, h. split; [reflexivity|]. split; [|reflexivity].
      exact (conj Hu (conj Hobj (conj Hlocs Hkeys))). }
  cbv zeta. unfold slots_of at 2. rewrite own_lookup_values.
  destruct (own_lookup (t_category t) agg) as [l|] eqn:Hlk;
    cbn [fmap option_fmap option_map].
  - apply own_lookup_Some in Hlk as Hin.
    destruct (Hobj _ Hin) as [Hl0 [s Hs]]. cbn [snd] in Hl0, Hs.
    unfold Store.bind at 1. unfold Store.read_slot, Store.bind at 1, Store.read.
    rewrite Hs. unfold Store.ret at 1.
    unfold Store.bind at 1. unfold Store.write. rewrite Hs.
    unfold Store.ret.
    eexists _, _. split; [reflexivity|]. split.
    + split; [apply unchanged_write; assumption|].
      split; [|split; assumption].
      intros p Hp. destruct (Hobj p Hp) as [Hp0 [s' Hs']]. split; [exact Hp0|].
      destruct (decide (snd p = l)) as [->|Hne].
      * rewrite lookup_insert_eq. eauto.
      * rewrite lookup_insert_ne by congruence. eauto.
    + unfold slots_of, own_alter. rewrite map_map. apply map_ext_in.
      intros p Hp. apply list_elem_of_In in Hp. cbn [fst snd].
      destruct (String.eqb_spec (fst p) (t_category t)) as [Hk|Hk].
      * assert (p = (t_category t, l)) as ->.
        { eapply (NoDup_map_inj fst); eauto. }
        cbn [fst snd]. unfold slot_at. rewrite lookup_insert_eq, Hs. reflexivity.
      * assert (snd p <> l).
        { intros Hpl. apply Hk.
          change (fst p = fst (t_category t, l)). f_equal.
          eapply (NoDup_map_inj snd); eauto. }
        unfold slot_at. rewrite lookup_insert_ne by congruence. reflexivity.
  - destruct (inherited (t_category t)).
    { exists agg, h. split; [reflexivity|]. split; [|reflexivity].
      exact (conj Hu (conj Hobj (conj Hlocs Hkeys))). }
    unfold Store.bind at 1. unfold Store.alloc at 1. cbv zeta.
    unfold Store.bind at 1. unfold Store.write. rewrite lookup_insert_eq.
    unfold Store.ret. rewrite insert_insert_eq.
    set (l := fresh (dom h)).
    assert (Hl : h !! l = None) by apply fresh_None.
    assert (Hnl : forall p, p ∈ agg -> snd p <> l).
    { intros p Hp Hpl. destruct (Hobj p Hp) as [_ [s Hs]]. congruence. }
    eexists _, _. split; [reflexivity|]. split.
    + split; [apply unchanged_write;
              [exact Hu|eapply unchanged_fresh; [exact Hu|exact Hl]]|].
      split; [|split].
      * intros p Hp. apply elem_of_app in Hp as [Hp|Hp].
        -- destruct (Hobj p Hp) as [Hp0 [s Hs]]. split; [exact Hp0|].
           rewrite lookup_insert_ne by (apply not_eq_sym, Hnl, Hp). eauto.
        -- apply list_elem_of_singleton in Hp as ->. cbn [snd]. split.
           ++ eapply unchanged_fresh; [exact Hu|exact Hl].
           ++ rewrite lookup_insert_eq. eauto.
      * rewrite map_app. apply NoDup_app. split; [exact Hlocs|].
        split; [|apply NoDup_singleton].
        intros x Hx Hx'. apply list_elem_of_singleton in Hx' as ->.
        apply list_elem_of_In, in_map_iff in Hx as (p & Hp1 & Hp2).
        apply (Hnl p); [now apply list_elem_of_In|exact Hp1].
      * rewrite map_app. apply NoDup_app. split; [exact Hkeys|].
        split; [|apply NoDup_singleton].
        intros x Hx Hx'. apply list_elem_of_singleton in Hx' as ->.
        exact (own_lookup_None _ _ Hlk Hx).
    + unfold slots_of. rewrite map_app. cbn [map fst snd]. f_equal.
      * apply map_ext_in. intros p Hp. apply list_elem_of_In in Hp.
        unfold slot_at. rewrite lookup_insert_ne by (apply not_eq_sym, Hnl, Hp).
        reflexivity.
      * unfold slot_at. rewrite lookup_insert_eq. reflexivity.
Qed.

Lemma agg_loop_store h0 ls txs :
  Forall2 (fun l t => h0 !! l = Some (Store.OTx t)) ls txs ->
  forall h agg,
    agg_sim h0 h agg ->
    exists agg' h',
      Store.foldM Store.agg_step agg (map Store.Ref ls) h = Some (agg', h') /\
      agg_sim h0 h' agg' /\
      slots_of h' agg' = fold_left agg_step txs (slots_of h agg).
Proof.
  induction 1 as [|l t ls txs Hl _ IH]; intros h agg Hsim.
  - exists agg, h. split; [reflexivity|]. split; [exact Hsim|reflexivity].
  - cbn [map Store.foldM fold_left]. unfold Store.bind at 1.
    destruct (agg_step_store h0 h agg l t Hsim Hl) as (agg1 & h1 & -> & Hsim1 & E1).
    destruct (IH h1 agg1 Hsim1) as (agg2 & h2 & E & Hsim2 & E2).
    exists agg2, h2. split; [exact E|]. split; [exact Hsim2|].
    rewrite E2, E1. reflexivity.
Qed.

Lemma Object_values_map {V W} (g : V -> W) (o : list (string * V)) :
  Object_values (map (fun p => (fst p, g (snd p))) o) = map g (Object_values o).
Proof.
  unfold Object_values. cbv zeta. rewrite map_app. f_equal.
  - assert (E : omap (fun p : string * W =>
                        (fun n => (n, snd p)) <$> arrayIndex (fst p))
                     (map (fun p => (fst p, g (snd p))) o) =
                map (fun q : N * V => (fst q, g (snd q)))
                    (omap (fun p : string * V =>
                             (fun n => (n, snd p)) <$> arrayIndex (fst p)) o)).
    { induction o as [|p o IH]; [reflexivity|].
      simpl. destruct (arrayIndex (fst p)); simpl; [f_equal|]; exact IH. }
    rewrite E.
    rewrite <- (stable_sort_map (fun q : N * V => (fst q, g (snd q)))
                  (fun a b => (fst a <=? fst b)%N)
                  (fun a b => (fst a <=? fst b)%N)) by reflexivity.
    rewrite !map_map. reflexivity.
  - induction o as [|p o IH]; [reflexivity|].
    cbn [map List.filter fst]. destruct (bool_decide (arrayIndex (fst p) = None));
      cbn [map snd]; now rewrite IH.
Qed.

Lemma Object_values_elem {V} (o : list (string * V)) x :
  x ∈ Object_values o -> x ∈ map snd o.
Proof.
  unfold Object_values. cbv zeta. rewrite elem_of_app. intros [H|H].
  - apply list_elem_of_In, in_map_iff in H as (q & <- & Hq).
    apply list_elem_of_In in Hq.
    rewrite (stable_sort_perm _ _) in Hq.
    apply list_elem_of_omap in Hq as (p & Hp & Hq).
    destruct (arrayIndex (fst p)); [|discriminate].
    injection Hq as <-. cbn [snd].
    apply list_elem_of_In, in_map. now apply list_elem_of_In.
  - apply list_elem_of_In, in_map_iff in H as (p & <- & Hp).
    apply filter_In in Hp as [Hp _]. apply list_elem_of_In, in_map, Hp.
Qed.

Lemma omap_Ref (ls : list Store.loc) :
  omap (fun v => match v with Store.Ref l => Some l | _ => None end)
       (map Store.Ref ls) = ls.
Proof. induction ls as [|l ls IH]; [reflexivity|]. simpl. f_equal. exact IH. Qed.

Lemma expense_of_insert_arr (h : Store.heap) lv els l :
  h !! lv = None ->
  Store.expense_of (<[lv := Store.OArr els]> h) l = s_expense (slot_at h l).
Proof.
  intros Hlv. unfold Store.expense_of, slot_at.
  destruct (decide (lv = l)) as [<-|Hne].
  - rewrite lookup_insert_eq, Hlv. reflexivity.
  - rewrite lookup_insert_ne by exact Hne.
    destruct (h !! l) as [[]|]; reflexivity.
Qed.

Lemma agg_sim_empty h0 : agg_sim h0 h0 [].
Proof.
  split; [apply unchanged_refl|]. split; [intros p Hp; inversion Hp|].
  split; constructor.
Qed.

(** [byCategory] over the store: a new array of new slot objects (sorted
    in an array of its own before the copy), holding what the pure model
    computes; every object of the start is unchanged. *)
Lemma byCategory_store (h : Store.heap) arr txs :
  Store.tx_array h arr txs ->
  exists out h' els,
    Store.byCategory arr h = Some (out, h') /\
    Store.unchanged h h' /\ h !! out = None /\
    h' !! out = Some (Store.OArr els) /\
    Forall2 (Store.new_object Store.OSlot h h') els (map Some (byCategory txs)).
Proof.
  intros (ls & Harr & Hall). unfold Store.byCategory.
  unfold Store.bind at 1. rewrite (read_arr_ok h arr _ Harr).
  destruct (agg_loop_store h ls txs Hall h [] (agg_sim_empty h))
    as (agg & h2 & Hloop & (Hu & Hobj & _ & _) & Hslots).
  unfold Store.bind at 1. rewrite Hloop.
  unfold Store.bind at 1. unfold Store.alloc at 1. cbv zeta.
  set (lv := fresh (dom h2)).
  assert (Hlv : h2 !! lv = None) by apply fresh_None.
  set (locs := Object_values agg).
  unfold Store.bind at 1. unfold Store.sort_in_place.
  rewrite lookup_insert_eq, omap_Ref. unfold Array_sort.
  set (h3 := <[lv := Store.OArr (map Store.Ref locs)]> h2).
  set (sorted := stable_sort
                   (fun a b => Store.expense_of h3 b - Store.expense_of h3 a <=? 0)
                   locs).
  replace (<[lv := Store.OArr (map Store.Ref sorted)]> h3)
    with (<[lv := Store.OArr (map Store.Ref sorted)]> h2)
    by (unfold h3; now rewrite insert_insert_eq).
  unfold Store.bind at 1. unfold Store.read_arr, Store.bind at 1, Store.read.
  rewrite lookup_insert_eq. unfold Store.ret at 1. unfold Store.alloc. cbv zeta.
  set (h4 := <[lv := Store.OArr (map Store.Ref sorted)]> h2).
  set (out := fresh (dom h4)).
  assert (Hout : h4 !! out = None) by apply fresh_None.
  assert (Hu4 : Store.unchanged h h4).
  { apply unchanged_write; [exact Hu|].
    eapply unchanged_fresh; [exact Hu|exact Hlv]. }
  exists out, (<[out := Store.OArr (take 10 (map Store.Ref sorted))]> h4),
         (take 10 (map Store.Ref sorted)).
  split; [reflexivity|]. split; [apply unchanged_alloc, Hu4|].
  split; [eapply unchanged_fresh; [exact Hu4|exact Hout]|].
  split; [apply lookup_insert_eq|].
  (* the pure result, read through the store *)
  assert (Hpure : byCategory txs = map (slot_at h2) (take 10 sorted)).
  { unfold byCategory, Array_sort, agg_of. cbn [slots_of map] in Hslots.
    rewrite <- Hslots. unfold slots_of. rewrite Object_values_map.
    fold locs. rewrite <- firstn_map. f_equal.
    rewrite <- (stable_sort_map (slot_at h2)
                  (fun a b => s_expense b - s_expense a <=? 0)
                  (fun a b => Store.expense_of h3 b - Store.expense_of h3 a <=? 0));
      [reflexivity|].
    intros a b. unfold h3. rewrite !expense_of_insert_arr by exact Hlv.
    reflexivity. }
  rewrite Hpure, firstn_map, !map_map.
  assert (Hin : forall l, l ∈ take 10 sorted ->
                 h !! l = None /\ exists s, h2 !! l = Some (Store.OSlot s)).
  { intros l Hl. apply (subseteq_take 10 sorted) in Hl.
    unfold sorted in Hl. rewrite (stable_sort_perm _ _) in Hl.
    apply Object_values_elem, list_elem_of_In, in_map_iff in Hl as (p & <- & Hp).
    apply Hobj. now apply list_elem_of_In. }
  clear Hpure.
  assert (Hgen : forall o ks,
    (forall l, l ∈ ks ->
       h !! l = None /\ exists s, h2 !! l = Some (Store.OSlot s)) ->
    Forall2 (Store.new_object Store.OSlot h (<[out := o]> h4))
            (map Store.Ref ks) (map (fun x => Some (slot_at h2 x)) ks)).
  { intros o ks Hks. induction ks as [|l rest IH]; cbn [map]; constructor.
    - destruct (Hks l) as [Hl0 [s Hs]]; [left|].
      unfold Store.new_object. split; [exact Hl0|].
      assert (l <> lv) by congruence.
      assert (Hl4 : h4 !! l = Some (Store.OSlot s)).
      { unfold h4. rewrite lookup_insert_ne by congruence. exact Hs. }
      rewrite lookup_insert_ne by congruence.
      rewrite Hl4. unfold slot_at. rewrite Hs. reflexivity.
    - apply IH. intros l' Hl'. apply Hks. now right. }
  apply Hgen, Hin.
Qed.

Lemma new_object_start {X} (mk : X -> Store.obj) (h0 h1 h2 : Store.heap) els xs :
  Store.unchanged h0 h1 ->
  Forall2 (Store.new_object mk h1 h2) els xs ->
  Forall2 (Store.new_object mk h0 h2) els xs.
Proof.
  intros Hu H. eapply Forall2_impl; [exact H|].
  intros [|l] [x|]; cbn; try tauto.
  intros [Hl Hx]. split; [eapply unchanged_fresh; eassumption|exact Hx].
Qed.

End StoreFacts.



(** * Further properties *)

(** ** What the 30-day series holds *)

Lemma chart_fold_lookup txs :
  forall (m : gmap string DayEntry) k,
    (forall e, m !! k = Some e -> d_net e = d_income e - d_expense e) ->
    fold_left chart_add txs m !! k =
    (fun e => {| d_date := d_date e;
                 d_income := d_income e + day_income k txs;
                 d_expense := d_expense e + day_expense k txs;
                 d_net := (d_income e + day_income k txs) -
                          (d_expense e + day_expense k txs) |}) <$> m !! k.
Proof.
  induction txs as [|t txs IH]; intros m k Hnet.
  - cbn [fold_left]. unfold day_income, day_expense, sum_where. cbn.
    destruct (m !! k) as [e|] eqn:E; cbn; [|reflexivity].
    rewrite !Z.add_0_r, <- (Hnet e eq_refl). destruct e; reflexivity.
  - cbn [fold_left]. rewrite IH.
    + unfold chart_add. cbv zeta.
      unfold day_income, day_expense, sum_where. cbn [List.filter].
      destruct (m !! JSString.key (t_date t)) as [e0|] eqn:E0.
      * destruct (String.eqb_spec (JSString.key (t_date t)) k) as [<-|Hne].
        -- rewrite lookup_insert_eq, E0. cbn [fmap option_fmap option_map].
           destruct (type_is t "income"); cbn [andb negb map foldr d_date
             d_income d_expense]; f_equal; f_equal; lia.
        -- rewrite lookup_insert_ne by exact Hne. rewrite !andb_false_r.
           reflexivity.
      * destruct (String.eqb_spec (JSString.key (t_date t)) k) as [<-|Hne].
        -- rewrite E0. reflexivity.
        -- rewrite !andb_false_r. reflexivity.
    + intros e. unfold chart_add. cbv zeta.
      destruct (m !! JSString.key (t_date t)) as [e0|] eqn:E0; [|apply Hnet].
      destruct (decide (JSString.key (t_date t) = k)) as [<-|Hne].
      * rewrite lookup_insert_eq. intros [= <-]. reflexivity.
      * rewrite lookup_insert_ne by exact Hne. apply Hnet.
Qed.

Lemma chartDaily_closed now txs :
  chartDaily now txs = map (fun d => Some (day_entry txs d)) (window_labels now).
Proof.
  unfold chartDaily. destruct (chart_init_spec now) as (map0 & -> & Hlk).
  apply map_ext_in. intros d Hd. apply list_elem_of_In in Hd.
  rewrite chart_fold_lookup.
  - rewrite Hlk, decide_True by exact Hd. cbn. unfold day_entry.
    rewrite !Z.add_0_l. reflexivity.
  - intros e. rewrite Hlk. destruct (decide _); [|discriminate].
    intros [= <-]. reflexivity.
Qed.

Lemma window_labels_seq now :
  window_labels now =
  map (fun k => toISO (now - 29 + Z.of_nat k)) (seq 0 30).
Proof.
  apply list_eq. intros i. rewrite (list_lookup_fmap _ (seq 0 30)).
  destruct (lt_dec i 30) as [Hi|Hi].
  - rewrite window_labels_lookup by exact Hi.
    rewrite lookup_seq_lt by exact Hi. reflexivity.
  - rewrite lookup_seq_ge by lia. apply lookup_ge_None.
    rewrite window_labels_length. lia.
Qed.


Lemma sum_where_or {A} (amt : A -> Z) (p q r : A -> bool) (xs : list A) :
  (forall x, q x = true -> r x = true -> False) ->
  sum_where amt (fun x => p x && (q x || r x)) xs =
  sum_where amt (fun x => p x && q x) xs + sum_where amt (fun x => p x && r x) xs.
Proof.
  intros Hdisj. unfold sum_where. induction xs as [|x xs IH]; [reflexivity|].
  cbn [List.filter]. specialize (Hdisj x).
  destruct (p x), (q x), (r x); cbn [andb orb map foldr];
    first [lia | exfalso; auto].
Qed.

Lemma sum_over_labels (p : Transaction -> bool) (ds : list string) txs :
  NoDup ds ->
  foldr Z.add 0
    (map (fun d => sum_where t_amount
                     (fun t => p t && String.eqb (JSString.key (t_date t)) d)
                     txs) ds) =
  sum_where t_amount (fun t => p t && dated_in ds t) txs.
Proof.
  induction 1 as [|d ds Hd Hnd IH]; cbn [map foldr].
  - symmetry. apply sum_where_none. intros t _. unfold dated_in.
    rewrite bool_decide_eq_false_2; [apply andb_false_r|]. intros H; inversion H.
  - rewrite IH, <- sum_where_or.
    + apply sum_where_ext. intros t _. f_equal. unfold dated_in.
      destruct (String.eqb_spec (JSString.key (t_date t)) d) as [->|Hne].
      * rewrite (bool_decide_eq_true_2 (_ ∈ _ :: _)) by left. reflexivity.
      * cbn [orb]. apply bool_decide_ext. rewrite elem_of_cons. tauto.
    + intros t Hq Hr. apply String.eqb_eq in Hq. unfold dated_in in Hr.
      apply bool_decide_eq_true in Hr. congruence.
Qed.

Lemma sums_raw (txs : list Transaction) :
  sums txs =
  {| income := sum_where t_amount (fun t => type_is t "income") txs;
     expense := sum_where t_amount (fun t => negb (type_is t "income")) txs;
     balance := sum_where t_amount (fun t => type_is t "income") txs -
                sum_where t_amount (fun t => negb (type_is t "income")) txs |}.
Proof.
  unfold sums.
  assert (H : forall xs i e,
    fold_left (fun '(income, expense) t =>
                 if type_is t "income" then (income + t_amount t, expense)
                 else (income, expense + t_amount t)) xs (i, e) =
    (i + sum_where t_amount (fun t => type_is t "income") xs,
     e + sum_where t_amount (fun t => negb (type_is t "income")) xs)).
  { induction xs as [|t xs IH]; intros i e.
    - unfold sum_where. cbn. f_equal; lia.
    - cbn [fold_left]. unfold sum_where in *. cbn [List.filter].
      destruct (type_is t "income"); cbn [negb]; rewrite IH;
        cbn [map foldr]; f_equal; lia. }
  rewrite H, !Z.add_0_l. reflexivity.
Qed.

Lemma series_total_entries (field : DayEntry -> Z) txs ds :
  series_total field (map (fun d => Some (day_entry txs d)) ds) =
  foldr Z.add 0 (map (fun d => field (day_entry txs d)) ds).
Proof. unfold series_total. rewrite map_map. reflexivity. Qed.

Lemma foldr_sub (f g : string -> Z) ds :
  foldr Z.add 0 (map (fun d => f d - g d) ds) =
  foldr Z.add 0 (map f ds) - foldr Z.add 0 (map g ds).
Proof. induction ds as [|d ds IH]; cbn [map foldr]; lia. Qed.


(** ** Dates compared as strings *)

Lemma pretty_four_digits_check :
  forallb (fun y => String.eqb (pretty y) (four_digits y)) (seqZ 1000 9000) = true.
Proof. vm_compute. reflexivity. Qed.

Lemma pretty_four_digits y :
  1000 <= y <= 9999 -> JSString.ofInt y = four_digits y.
Proof.
  intros Hy. pose proof pretty_four_digits_check as H.
  rewrite forallb_forall in H. specialize (H y).
  rewrite <- list_elem_of_In, elem_of_seqZ in H.
  apply String.eqb_eq, H. lia.
Qed.

Lemma dchar_compare a b :
  0 <= a <= 9 -> 0 <= b <= 9 -> Ascii.compare (dchar a) (dchar b) = (a ?= b).
Proof.
  intros Ha Hb. unfold Ascii.compare, dchar.
  rewrite !Ascii.N_ascii_embedding by lia.
  rewrite <- N2Z.inj_compare, !N2Z.inj_add, !Z2N.id by lia.
  apply Z.add_compare_mono_l.
Qed.

Lemma compare_four_digits y1 y2 :
  1000 <= y1 <= 9999 -> 1000 <= y2 <= 9999 ->
  String.compare (four_digits y1) (four_digits y2) = (y1 ?= y2).
Proof.
  intros H1 H2. unfold four_digits. cbn [String.compare].
  rewrite !dchar_compare by (Z.div_mod_to_equations; lia).
  symmetry.
  destruct (Z.compare_spec (y1 / 1000) (y2 / 1000));
    [|apply Z.compare_lt_iff; Z.div_mod_to_equations; lia
     |apply Z.compare_gt_iff; Z.div_mod_to_equations; lia].
  destruct (Z.compare_spec (y1 / 100 mod 10) (y2 / 100 mod 10));
    [|apply Z.compare_lt_iff; Z.div_mod_to_equations; lia
     |apply Z.compare_gt_iff; Z.div_mod_to_equations; lia].
  destruct (Z.compare_spec (y1 / 10 mod 10) (y2 / 10 mod 10));
    [|apply Z.compare_lt_iff; Z.div_mod_to_equations; lia
     |apply Z.compare_gt_iff; Z.div_mod_to_equations; lia].
  destruct (Z.compare_spec (y1 mod 10) (y2 mod 10));
    [apply Z.compare_eq_iff|apply Z.compare_lt_iff|apply Z.compare_gt_iff];
    Z.div_mod_to_equations; lia.
Qed.

Lemma pad_compare_check :
  forallb (fun n =>
             forallb (fun m => comparison_eqb (String.compare (pad n) (pad m))
                                              (n ?= m))
                     (seqZ 0 100))
          (seqZ 0 100) = true.
Proof. vm_compute. reflexivity. Qed.

Lemma pad_compare n m :
  0 <= n < 100 -> 0 <= m < 100 -> String.compare (pad n) (pad m) = (n ?= m).
Proof.
  intros Hn Hm. pose proof pad_compare_check as H.
  rewrite forallb_forall in H. specialize (H n).
  rewrite <- list_elem_of_In, elem_of_seqZ in H. specialize (H ltac:(lia)).
  rewrite forallb_forall in H. specialize (H m).
  rewrite <- list_elem_of_In, elem_of_seqZ in H. specialize (H ltac:(lia)).
  destruct (String.compare (pad n) (pad m)), (n ?= m);
    first [reflexivity | discriminate H].
Qed.

Lemma compare_append (a1 a2 b1 b2 : string) :
  String.length a1 = String.length a2 ->
  String.compare (a1 +:+ b1) (a2 +:+ b2) =
  match String.compare a1 a2 with
  | Eq => String.compare b1 b2
  | c => c
  end.
Proof.
  revert a2. induction a1 as [|c1 a1 IH]; intros [|c2 a2] Hlen;
    try discriminate Hlen.
  - reflexivity.
  - rewrite !append_cons. cbn [String.compare].
    destruct (Ascii.compare c1 c2); [|reflexivity..].
    apply IH. now injection Hlen.
Qed.

Lemma monthOfYearDay_mono leap w1 w2 :
  0 <= leap <= 1 -> w1 <= w2 ->
  monthOfYearDay leap w1 <= monthOfYearDay leap w2.
Proof.
  intros Hl Hw. unfold monthOfYearDay.
  repeat match goal with
         | |- context [?a <? ?b] => destruct (Z.ltb_spec a b)
         end; lia.
Qed.

(** Days are ordered as their year, month and day are. *)
Lemma fields_compare_day d1 d2 : fields_compare d1 d2 = (d1 ?= d2).
Proof.
  unfold fields_compare. symmetry.
  pose proof (YearFromDay_spec d1) as S1. pose proof (YearFromDay_spec d2) as S2.
  fold (getFullYear d1) in S1. fold (getFullYear d2) in S2.
  destruct (Z.compare_spec (getFullYear d1) (getFullYear d2)) as [Ey|Hy|Hy].
  - assert (Hw : d1 - d2 = DayWithinYear d1 - DayWithinYear d2).
    { unfold DayWithinYear. fold (getFullYear d1) (getFullYear d2).
      rewrite Ey. lia. }
    pose proof (InLeapYear_range (getFullYear d2)) as Hl.
    assert (Hm1 : getMonth d1 =
                  monthOfYearDay (InLeapYear (getFullYear d2)) (DayWithinYear d1)).
    { unfold getMonth. fold (getFullYear d1). now rewrite Ey. }
    assert (Hm2 : getMonth d2 =
                  monthOfYearDay (InLeapYear (getFullYear d2)) (DayWithinYear d2))
      by reflexivity.
    destruct (Z.compare_spec (getMonth d1) (getMonth d2)) as [Em|Hm|Hm].
    + assert (Hd : getDate d1 - getDate d2 = d1 - d2).
      { unfold getDate. cbv zeta. fold (getFullYear d1) (getFullYear d2).
        fold (getMonth d1) (getMonth d2). rewrite Ey. 
        replace (monthOfYearDay (InLeapYear (getFullYear d2)) (DayWithinYear d1))
          with (getMonth d1) by exact Hm1.
        replace (monthOfYearDay (InLeapYear (getFullYear d2)) (DayWithinYear d2))
          with (getMonth d2) by exact Hm2.
        rewrite Em. lia. }
      destruct (Z.compare_spec (getDate d1) (getDate d2));
        [apply Z.compare_eq_iff|apply Z.compare_lt_iff|apply Z.compare_gt_iff];
        lia.
    + apply Z.compare_lt_iff.
      destruct (Z.le_gt_cases (DayWithinYear d2) (DayWithinYear d1)) as [Hle|Hlt];
        [|lia].
      pose proof (monthOfYearDay_mono _ _ _ Hl Hle). lia.
    + apply Z.compare_gt_iff.
      destruct (Z.le_gt_cases (DayWithinYear d1) (DayWithinYear d2)) as [Hle|Hlt];
        [|lia].
      pose proof (monthOfYearDay_mono _ _ _ Hl Hle). lia.
  - apply Z.compare_lt_iff.
    assert (getFullYear d1 + 1 = getFullYear d2 \/
            getFullYear d1 + 1 < getFullYear d2) as [E|L] by lia.
    + rewrite E in S1. lia.
    + pose proof (DayFromYear_lt _ _ L). lia.
  - apply Z.compare_gt_iff.
    assert (getFullYear d2 + 1 = getFullYear d1 \/
            getFullYear d2 + 1 < getFullYear d1) as [E|L] by lia.
    + rewrite E in S2. lia.
    + pose proof (DayFromYear_lt _ _ L). lia.
Qed.

Lemma toISO_compare d1 d2 :
  1000 <= getFullYear d1 <= 9999 -> 1000 <= getFullYear d2 <= 9999 ->
  String.compare (toISO d1) (toISO d2) = (d1 ?= d2).
Proof.
  intros H1 H2. rewrite <- fields_compare_day. unfold toISO, fields_compare.
  pose proof (getMonth_range d1). pose proof (getMonth_range d2).
  pose proof (getDate_range d1). pose proof (getDate_range d2).
  rewrite !pretty_four_digits by assumption.
  rewrite compare_append by reflexivity.
  rewrite compare_four_digits by assumption.
  destruct (getFullYear d1 ?= getFullYear d2); [|reflexivity..].
  rewrite !(append_cons "-" EmptyString), !append_nil.
  cbn [String.compare]. change (Ascii.compare "-" "-") with Eq. cbv iota.
  rewrite compare_append by (rewrite !pad_length by lia; reflexivity).
  rewrite pad_compare by lia.
  rewrite (Z.add_comm (getMonth d1) 1), (Z.add_comm (getMonth d2) 1),
    Z.add_compare_mono_l.
  destruct (getMonth d1 ?= getMonth d2); [|reflexivity..].
  cbn [String.compare]. change (Ascii.compare "-" "-") with Eq. cbv iota.
  apply pad_compare; lia.
Qed.

Lemma toISO_leb d1 d2 :
  1000 <= getFullYear d1 <= 9999 -> 1000 <= getFullYear d2 <= 9999 ->
  JSString.le (toISO d1) (toISO d2) = (d1 <=? d2).
Proof.
  intros H1 H2. unfold JSString.le, String.leb, Z.leb.
  rewrite toISO_compare by assumption. reflexivity.
Qed.

(** X3: for days whose year has four digits, the labels written by toISO
    compare as strings the way the days compare on the calendar, so the
    string comparisons of the date filter are comparisons of dates. *)
Theorem toISO_order (d1 d2 : Date) :
  1000 <= getFullYear d1 <= 9999 -> 1000 <= getFullYear d2 <= 9999 ->
  JSString.le (toISO d1) (toISO d2) = (d1 <=? d2).
Proof.
  intros H1 H2. unfold JSString.le, String.leb, Z.leb.
  rewrite toISO_compare by assumption. reflexivity.
Qed.

Ltac year_in_range := split; apply Z.leb_le; vm_compute; reflexivity.

Lemma toISO_order_witness :
  1000 <= getFullYear Sample5.first_of_june <= 9999 /\
  1000 <= getFullYear Sample5.today <= 9999 /\
  JSString.le (toISO Sample5.first_of_june) (toISO Sample5.today) =
    (Sample5.first_of_june <=? Sample5.today).
Proof.
  assert (H1 : 1000 <= getFullYear Sample5.first_of_june <= 9999)
    by year_in_range.
  assert (H2 : 1000 <= getFullYear Sample5.today <= 9999) by year_in_range.
  split; [exact H1|]. split; [exact H2|].
  exact (toISO_order Sample5.first_of_june Sample5.today H1 H2).
Defined.

Lemma toISO_not_falsy d : JSString.falsy (toISO d) = false.
Proof.
  unfold toISO. destruct (JSString.ofInt (getFullYear d)); reflexivity.
Qed.

Lemma inDate_labels f t s e d :
  1000 <= getFullYear s <= 9999 -> 1000 <= getFullYear e <= 9999 ->
  1000 <= getFullYear d <= 9999 ->
  startDate f = toISO s -> endDate f = toISO e ->
  t_date t = Some (toISO d) ->
  inDate f t = (s <=? d) && (d <=? e).
Proof.
  intros Hs He Hd Es Ee Et. unfold inDate. rewrite Es, Ee, Et.
  rewrite !toISO_not_falsy. cbn [orb date_ge date_le].
  unfold JSString.le. fold (JSString.le (toISO s) (toISO d)).
  fold (JSString.le (toISO d) (toISO e)).
  rewrite !toISO_leb by assumption. reflexivity.
Qed.

(** X4: when both date bounds of the filter are labels of days s and e, a
    record dated with the label of day d passes the date test exactly when
    s <= d <= e, both ends included (years of four digits); a record
    without a date never passes it. *)
Theorem date_filter_range (f : Filters) (t : Transaction) (s e d : Date) :
  1000 <= getFullYear s <= 9999 -> 1000 <= getFullYear e <= 9999 ->
  1000 <= getFullYear d <= 9999 ->
  startDate f = toISO s -> endDate f = toISO e ->
  (t_date t = Some (toISO d) -> inDate f t = (s <=? d) && (d <=? e)) /\
  (t_date t = None -> inDate f t = false).
Proof.
  intros Hs He Hd Es Ee. split.
  - intros Et. apply inDate_labels; assumption.
  - intros Et. unfold inDate. rewrite Es, Et, toISO_not_falsy. reflexivity.
Qed.

Lemma date_filter_range_witness :
  1000 <= getFullYear Sample5.first_of_june <= 9999 /\
  1000 <= getFullYear Sample5.today <= 9999 /\
  startDate Sample5.june_filter = toISO Sample5.first_of_june /\
  endDate Sample5.june_filter = toISO Sample5.today /\
  t_date Sample2.on_day = Some (toISO Sample5.today) /\
  inDate Sample5.june_filter Sample2.on_day =
    (Sample5.first_of_june <=? Sample5.today) &&
    (Sample5.today <=? Sample5.today).
Proof.
  assert (H1 : 1000 <= getFullYear Sample5.first_of_june <= 9999)
    by year_in_range.
  assert (H2 : 1000 <= getFullYear Sample5.today <= 9999) by year_in_range.
  assert (Hd : t_date Sample2.on_day = Some (toISO Sample5.today))
    by (vm_compute; reflexivity).
  split; [exact H1|]. split; [exact H2|].
  split; [reflexivity|]. split; [reflexivity|]. split; [exact Hd|].
  exact (proj1 (date_filter_range Sample5.june_filter Sample2.on_day
                  Sample5.first_of_june Sample5.today Sample5.today
                  H1 H2 H2 eq_refl eq_refl) Hd).
Defined.



(** ** The largest categories *)

Lemma encounter_elem txs k :
  k ∈ encounter txs <->
  inherited k = false /\
  exists t, t ∈ txs /\ type_is t "expense" = true /\ t_category t = k.
Proof.
  unfold encounter. rewrite first_seen_elem, list_elem_of_In, in_map_iff. split.
  - intros (t & Hk & Hin). apply filter_In in Hin. destruct Hin as [Hin Hp].
    apply andb_true_iff in Hp. destruct Hp as [Ht Hi].
    apply negb_true_iff in Hi. subst k. split; [exact Hi|].
    exists t. rewrite list_elem_of_In. auto.
  - intros (Hi & t & Hin & Ht & Hk). exists t. split; [exact Hk|].
    apply filter_In. rewrite <- list_elem_of_In. split; [exact Hin|].
    rewrite Ht, Hk, Hi. reflexivity.
Qed.

(** X6: [byCategory] returns min(10, n) entries, n the number of distinct
    categories of the expense records whose name is not inherited from
    Object.prototype; no category occurs twice; every entry carries the sum
    of the expense amounts of its category; and every such category that is
    left out has a sum no larger than any entry shown. *)
Theorem byCategory_largest (filtered : list Transaction) :
  length (byCategory filtered) = Nat.min 10 (length (encounter filtered)) /\
  NoDup (map s_category (byCategory filtered)) /\
  (forall s, s ∈ byCategory filtered ->
     s_expense s = category_sum (s_category s) filtered /\
     inherited (s_category s) = false /\
     exists t, t ∈ filtered /\ type_is t "expense" = true /\
               t_category t = s_category s) /\
  (forall t, t ∈ filtered -> type_is t "expense" = true ->
     inherited (t_category t) = false ->
     slot_of filtered (t_category t) ∈ byCategory filtered \/
     forall s, s ∈ byCategory filtered ->
               category_sum (t_category t) filtered <= s_expense s).
Proof.
  destruct (byCategory_top10 filtered) as (Hlen & dropped & Hperm & Hle).
  split; [exact Hlen|].
  assert (Hin : forall s, s ∈ byCategory filtered ++ dropped <->
                          exists k, s = slot_of filtered k /\ k ∈ encounter filtered).
  { intros s. rewrite !list_elem_of_In.
    split.
    - intros H. apply (Permutation_in _ Hperm) in H.
      apply in_map_iff in H. destruct H as (k & <- & Hk).
      exists k. rewrite list_elem_of_In. auto.
    - intros (k & -> & Hk). apply (Permutation_in _ (Permutation_sym Hperm)).
      apply in_map_iff. exists k. rewrite <- list_elem_of_In. auto. }
  split; [|split].
  - assert (Hnd : NoDup (map s_category (byCategory filtered ++ dropped))).
    { apply (Permutation_map s_category) in Hperm.
      rewrite map_map in Hperm. cbn [slot_of s_category] in Hperm.
      rewrite map_id in Hperm.
      rewrite Hperm. apply first_seen_NoDup. }
    rewrite map_app in Hnd. apply NoDup_app in Hnd. apply Hnd.
  - intros s Hs.
    destruct (proj1 (Hin s)) as (k & -> & Hk).
    { apply elem_of_app. left. exact Hs. }
    cbn [slot_of s_category s_expense]. split; [reflexivity|].
    apply encounter_elem, Hk.
  - intros t Ht Hty Hi.
    assert (Hk : t_category t ∈ encounter filtered).
    { apply encounter_elem. split; [exact Hi|]. exists t. auto. }
    assert (Hs : slot_of filtered (t_category t)
                   ∈ byCategory filtered ++ dropped).
    { apply Hin. exists (t_category t). auto. }
    apply elem_of_app in Hs. destruct Hs as [Hs|Hs]; [left; exact Hs|].
    right. intros s Hs'. exact (Hle s _ Hs' Hs).
Qed.

(** ** Views filtered by type *)

Lemma filtered_type f txs t :
  t ∈ filtered f txs -> typeFilter f <> "all"%string ->
  t_type t = Some (typeFilter f).
Proof.
  intros Hin Hf. apply filtered_elem in Hin. destruct Hin as (_ & Hty & _).
  unfold inType in Hty. rewrite bool_decide_eq_false_2 in Hty by exact Hf.
  cbn [orb] in Hty. unfold type_is in Hty. apply bool_decide_eq_true in Hty.
  exact Hty.
Qed.

Lemma agg_of_no_expense txs :
  (forall t, t ∈ txs -> type_is t "expense" = false) -> agg_of txs = [].
Proof.
  intros H. rewrite agg_of_closed. unfold encounter.
  replace (List.filter _ txs) with (@nil Transaction); [reflexivity|].
  symmetry. induction txs as [|t txs IH]; [reflexivity|].
  cbn [List.filter]. rewrite (H t) by left. cbn [andb].
  apply IH. intros t' Ht'. apply H. right. exact Ht'.
Qed.

(** X7: in a view filtered on the type income every listed record has type
    income, the expense total is 0, the balance is the income total and the
    category list is empty; in a view filtered on the type expense every
    listed record has the type field expense (records without a type are
    not listed), the income total is 0 and the balance is minus the expense
    total. *)
Theorem type_filter_views (f : Filters) (transactions : list Transaction) :
  (typeFilter f = "income"%string ->
   (forall t, t ∈ filtered f transactions -> t_type t = Some "income"%string) /\
   expense (sums (filtered f transactions)) = 0 /\
   balance (sums (filtered f transactions)) =
     income (sums (filtered f transactions)) /\
   byCategory (filtered f transactions) = []) /\
  (typeFilter f = "expense"%string ->
   (forall t, t ∈ filtered f transactions -> t_type t = Some "expense"%string) /\
   income (sums (filtered f transactions)) = 0 /\
   balance (sums (filtered f transactions)) =
     - expense (sums (filtered f transactions))).
Proof.
  split; intros Hf.
  - assert (Hty : forall t, t ∈ filtered f transactions ->
                            t_type t = Some "income"%string).
    { intros t Ht. rewrite <- Hf. apply (filtered_type f transactions t Ht).
      rewrite Hf. discriminate. }
    split; [exact Hty|].
    assert (He : sum_where t_amount (fun t => negb (type_is t "income"))
                   (filtered f transactions) = 0).
    { apply sum_where_none. intros t Ht. unfold type_is.
      rewrite (Hty t Ht). reflexivity. }
    rewrite sums_raw. cbn [income expense balance]. rewrite He.
    split; [reflexivity|]. split; [lia|].
    unfold byCategory. rewrite agg_of_no_expense; [reflexivity|].
    intros t Ht. unfold type_is. rewrite (Hty t Ht). reflexivity.
  - assert (Hty : forall t, t ∈ filtered f transactions ->
                            t_type t = Some "expense"%string).
    { intros t Ht. rewrite <- Hf. apply (filtered_type f transactions t Ht).
      rewrite Hf. discriminate. }
    split; [exact Hty|].
    assert (Hi : sum_where t_amount (fun t => type_is t "income")
                   (filtered f transactions) = 0).
    { apply sum_where_none. intros t Ht. unfold type_is.
      rewrite (Hty t Ht). reflexivity. }
    rewrite sums_raw. cbn [income expense balance]. rewrite Hi.
    split; [reflexivity|]. lia.
Qed.

Lemma type_filter_views_witness :
  typeFilter Sample6.income_only = "income"%string /\
  expense (sums (filtered Sample6.income_only Sample6.mixed)) = 0 /\
  byCategory (filtered Sample6.income_only Sample6.mixed) = [].
Proof.
  split; [reflexivity|].
  destruct (proj1 (type_filter_views Sample6.income_only Sample6.mixed)
              eq_refl) as (_ & He & _ & Hc).
  split; [exact He|exact Hc].
Defined.

(** ** Independence of the order of the records *)

Lemma sum_where_perm {A} (amt : A -> Z) p (xs ys : list A) :
  Permutation xs ys -> sum_where amt p xs = sum_where amt p ys.
Proof.
  intros H. induction H as [|x xs ys H IH|x y xs|xs ys zs H1 IH1 H2 IH2].
  - reflexivity.
  - unfold sum_where in *. cbn [List.filter]. destruct (p x); cbn; lia.
  - unfold sum_where. cbn [List.filter]. destruct (p x), (p y); cbn; lia.
  - lia.
Qed.

Lemma filter_perm {A} (p : A -> bool) (xs ys : list A) :
  Permutation xs ys -> Permutation (List.filter p xs) (List.filter p ys).
Proof.
  intros H. induction H as [|x xs ys H IH|x y xs|xs ys zs H1 IH1 H2 IH2].
  - constructor.
  - cbn [List.filter]. destruct (p x); [constructor|]; exact IH.
  - cbn [List.filter]. destruct (p x), (p y); try reflexivity. constructor.
  - etransitivity; eassumption.
Qed.



(** ** Dictionaries of sums *)

Section SumByFacts.
Context {A : Type} (keyf : A -> string) (amt : A -> Z).

Lemma sum_keys_snoc xs x :
  sum_keys keyf (xs ++ [x]) =
  if String.eqb (keyf x) "__proto__" then sum_keys keyf xs
  else if bool_decide (keyf x ∈ sum_keys keyf xs) then sum_keys keyf xs
       else sum_keys keyf xs ++ [keyf x].
Proof.
  unfold sum_keys. rewrite List.filter_app. cbn [List.filter].
  destruct (String.eqb (keyf x) "__proto__"); cbn [negb].
  - now rewrite app_nil_r.
  - rewrite map_app. cbn [map]. apply first_seen_snoc.
Qed.

Lemma sum_keys_elem xs k :
  k ∈ sum_keys keyf xs <->
  k <> "__proto__"%string /\ exists x, x ∈ xs /\ keyf x = k.
Proof.
  unfold sum_keys. rewrite first_seen_elem, list_elem_of_In, in_map_iff. split.
  - intros (x & Hk & Hin). apply filter_In in Hin. destruct Hin as [Hin Hp].
    apply negb_true_iff, String.eqb_neq in Hp. subst k.
    split; [exact Hp|]. exists x. rewrite list_elem_of_In. auto.
  - intros (Hne & x & Hin & Hk). exists x. split; [exact Hk|].
    apply filter_In. rewrite <- list_elem_of_In. split; [exact Hin|].
    apply negb_true_iff, String.eqb_neq. congruence.
Qed.

Lemma sum_cell_snoc xs x k :
  sum_cell keyf amt (xs ++ [x]) k =
  match sum_cell keyf amt xs k with
  | CNum z => CNum (z + if String.eqb (keyf x) k then amt x else 0)
  | CText => CText
  end.
Proof.
  unfold sum_cell. destruct (inherited k); [reflexivity|].
  rewrite sum_where_app. unfold sum_where at 2. cbn [List.filter].
  destruct (String.eqb (keyf x) k); cbn; f_equal; lia.
Qed.

Lemma sum_cell_other xs x k :
  keyf x <> k \/ inherited k = true ->
  sum_cell keyf amt (xs ++ [x]) k = sum_cell keyf amt xs k.
Proof.
  intros H. rewrite sum_cell_snoc. unfold sum_cell.
  destruct (inherited k) eqn:Ei; [reflexivity|].
  destruct H as [H|H]; [|discriminate].
  apply String.eqb_neq in H. rewrite H. f_equal. lia.
Qed.

Lemma sum_unseen xs k :
  k ∉ sum_keys keyf xs -> k <> "__proto__"%string ->
  sum_where amt (fun x => String.eqb (keyf x) k) xs = 0.
Proof.
  intros Hk Hne. apply sum_where_none. intros x Hx.
  apply String.eqb_neq. intros He. apply Hk, sum_keys_elem.
  split; [exact Hne|]. exists x. auto.
Qed.

Lemma sum_by_closed xs :
  sum_by keyf amt xs =
  map (fun k => (k, sum_cell keyf amt xs k)) (sum_keys keyf xs).
Proof.
  induction xs as [|x xs IH] using rev_ind; [reflexivity|].
  unfold sum_by in *. rewrite fold_left_app. cbn [fold_left]. rewrite IH.
  unfold sum_into. rewrite own_lookup_map, sum_keys_snoc.
  case_bool_decide as Hk.
  - assert (Hne : String.eqb (keyf x) "__proto__" = false).
    { apply String.eqb_neq. apply sum_keys_elem in Hk. apply Hk. }
    rewrite Hne.
    destruct (sum_cell keyf amt xs (keyf x)) as [z|] eqn:Ec.
    + unfold own_alter. rewrite map_map. apply map_ext. intros k'.
      cbn [fst snd]. rewrite sum_cell_snoc.
      rewrite (String.eqb_sym k' (keyf x)).
      destruct (String.eqb_spec (keyf x) k') as [<-|Hn].
      * rewrite Ec. reflexivity.
      * destruct (sum_cell keyf amt xs k'); [|reflexivity].
        now rewrite Z.add_0_r.
    + unfold own_alter. rewrite map_map. apply map_ext. intros k'.
      cbn [fst snd]. rewrite sum_cell_snoc.
      rewrite (String.eqb_sym k' (keyf x)).
      destruct (String.eqb_spec (keyf x) k') as [<-|Hn].
      * rewrite Ec. reflexivity.
      * destruct (sum_cell keyf amt xs k'); [|reflexivity].
        now rewrite Z.add_0_r.
  - destruct (inherited (keyf x)) eqn:Ei.
    + destruct (String.eqb (keyf x) "__proto__") eqn:Ep.
      * apply map_ext_in. intros k' Hk'. f_equal. symmetry.
        apply sum_cell_other.
        destruct (String.eqb_spec (keyf x) k') as [<-|Hn]; [right|left]; auto.
      * rewrite map_app. cbn [map]. f_equal.
        -- apply map_ext_in. intros k' Hk'. f_equal. symmetry.
           apply sum_cell_other.
           destruct (String.eqb_spec (keyf x) k') as [<-|Hn]; [right|left]; auto.
        -- unfold sum_cell. rewrite Ei. reflexivity.
    + assert (Hne : keyf x <> "__proto__"%string).
      { intros He. rewrite He in Ei. vm_compute in Ei. discriminate. }
      apply String.eqb_neq in Hne as Hne'. rewrite Hne'.
      rewrite map_app. cbn [map]. f_equal.
      * apply map_ext_in. intros k' Hk'. f_equal. symmetry.
        apply sum_cell_other. left. intros <-. apply Hk.
        now apply list_elem_of_In.
      * rewrite sum_cell_snoc. unfold sum_cell. rewrite Ei.
        rewrite (sum_unseen xs _ Hk Hne), String.eqb_refl. reflexivity.
Qed.

End SumByFacts.

Lemma fold_left_if {A B} (p : A -> bool) (f : B -> A -> B) xs init :
  fold_left (fun acc x => if p x then f acc x else acc) xs init =
  fold_left f (List.filter p xs) init.
Proof.
  revert init. induction xs as [|x xs IH]; intros init; [reflexivity|].
  cbn [fold_left List.filter]. destruct (p x); cbn [fold_left]; apply IH.
Qed.

Lemma Object_entries_closed {V} (mk : string -> V) (keys : list string) :
  Object_entries (map (fun k => (k, mk k)) keys) =
  map (fun k => (k, mk k)) (values_order keys).
Proof.
  unfold Object_entries. rewrite map_map. cbn [fst].
  apply (Object_values_closed (fun k => (k, mk k))).
Qed.

Lemma Object_keys_closed {V} (mk : string -> V) (keys : list string) :
  Object_keys (map (fun k => (k, mk k)) keys) = values_order keys.
Proof.
  unfold Object_keys. rewrite map_map. cbn [fst].
  rewrite (Object_values_closed (fun k => k)). apply map_id.
Qed.

Lemma values_order_elem ks k : k ∈ values_order ks <-> k ∈ ks.
Proof. now rewrite (values_order_perm ks). Qed.

Lemma inherited_proto : inherited "__proto__" = true.
Proof. vm_compute. reflexivity. Qed.

Lemma pieData_closed filtered :
  pieData filtered =
  map (fun k => (k, if inherited k then CText
                    else CNum (category_sum k filtered)))
      (values_order
         (sum_keys t_category
                   (List.filter (fun t => type_is t "expense") filtered))).
Proof.
  unfold pieData.
  rewrite (fold_left_if (fun t => type_is t "expense")
             (fun agg t => sum_into agg (t_category t) (t_amount t))).
  fold (sum_by t_category t_amount
          (List.filter (fun t => type_is t "expense") filtered)).
  rewrite sum_by_closed, Object_entries_closed. apply map_ext. intros k.
  unfold sum_cell, category_sum. rewrite sum_where_filter. reflexivity.
Qed.

Lemma byCategory_elem txs s :
  s ∈ byCategory txs -> exists k, s = slot_of txs k /\ k ∈ encounter txs.
Proof.
  intros Hs. destruct (byCategory_top10 txs) as (_ & dropped & Hperm & _).
  assert (H : s ∈ map (slot_of txs) (encounter txs)).
  { rewrite <- Hperm. apply elem_of_app. left. exact Hs. }
  apply list_elem_of_In, in_map_iff in H. destruct H as (k & <- & Hk).
  exists k. rewrite list_elem_of_In. auto.
Qed.

(** X9: the pie of the tracker against its list of top categories.  The pie
    has one entry per category of the expense records, [__proto__] apart,
    no name twice.  Under a name that is not inherited from Object.prototype
    the value is the sum of the expense amounts of the category, so every
    entry of [byCategory] is an entry of the pie with the same amount.
    Under an inherited name the value is a text, not a number, and the
    category is not in [byCategory]; under [__proto__] there is no entry. *)
Theorem pieData_matches (filtered : list Transaction) :
  NoDup (map fst (pieData filtered)) /\
  (forall s, s ∈ byCategory filtered ->
     (s_category s, CNum (s_expense s)) ∈ pieData filtered) /\
  (forall t, t ∈ filtered -> type_is t "expense" = true ->
     t_category t <> "__proto__"%string ->
     (t_category t,
      if inherited (t_category t) then CText
      else CNum (category_sum (t_category t) filtered)) ∈ pieData filtered) /\
  (forall k c, (k, c) ∈ pieData filtered ->
     k <> "__proto__"%string /\
     (inherited k = true -> c = CText /\
        forall s, s ∈ byCategory filtered -> s_category s <> k) /\
     exists t, t ∈ filtered /\ type_is t "expense" = true /\ t_category t = k).
Proof.
  rewrite pieData_closed.
  set (E := List.filter (fun t => type_is t "expense") filtered).
  assert (HE : forall k, k ∈ values_order (sum_keys t_category E) <->
     k <> "__proto__"%string /\
     exists t, t ∈ filtered /\ type_is t "expense" = true /\ t_category t = k).
  { intros k. rewrite values_order_elem, sum_keys_elem. unfold E. split.
    - intros (Hne & t & Hin & Hk). split; [exact Hne|]. exists t.
      apply list_elem_of_In, filter_In in Hin. rewrite list_elem_of_In. tauto.
    - intros (Hne & t & Hin & Ht & Hk). split; [exact Hne|]. exists t.
      split; [|exact Hk]. apply list_elem_of_In, filter_In.
      rewrite <- list_elem_of_In. auto. }
  split; [|split; [|split]].
  - rewrite map_map. cbn [fst]. rewrite map_id.
    rewrite (values_order_perm (sum_keys t_category E)).
    apply first_seen_NoDup.
  - intros s Hs. destruct (byCategory_elem filtered s Hs) as (k & -> & Hk).
    apply encounter_elem in Hk. destruct Hk as (Hi & t & Hin & Ht & Hc).
    cbn [slot_of s_category s_expense].
    apply list_elem_of_In, in_map_iff. exists k. rewrite Hi.
    split; [reflexivity|]. apply list_elem_of_In, HE.
    split; [|exists t; auto]. intros ->. rewrite inherited_proto in Hi.
    discriminate.
  - intros t Hin Ht Hne. apply list_elem_of_In, in_map_iff.
    exists (t_category t). split; [reflexivity|].
    apply list_elem_of_In, HE. split; [exact Hne|]. exists t. auto.
  - intros k c Hkc. apply list_elem_of_In, in_map_iff in Hkc.
    destruct Hkc as (k' & Heq & Hk'). injection Heq as -> <-.
    apply list_elem_of_In, HE in Hk'. destruct Hk' as (Hne & Hex).
    split; [exact Hne|]. split; [|exact Hex].
    intros Hi. rewrite Hi. split; [reflexivity|].
    intros s Hs Hc. destruct (byCategory_elem filtered s Hs) as (k0 & -> & Hk0).
    cbn [slot_of s_category] in Hc. subst k0.
    apply encounter_not_inherited in Hk0. congruence.
Qed.

(** ** Keys that are neither inherited names nor array indices *)

Lemma has_dash_append a b : has_dash (a +:+ b) = has_dash a || has_dash b.
Proof.
  induction a as [|c a IH]; [reflexivity|].
  rewrite append_cons. cbn [has_dash]. rewrite IH. apply orb_assoc.
Qed.

Lemma has_dash_digits s acc : has_dash s = true -> JSString.digits acc s = None.
Proof.
  revert acc. induction s as [|c s IH]; intros acc H; [discriminate|].
  cbn [has_dash] in H. cbn [JSString.digits].
  destruct (Ascii.eqb_spec c "-") as [->|Hc]; [reflexivity|].
  cbn [orb] in H. destruct (JSString.digit c); [apply IH, H|reflexivity].
Qed.

Lemma inherited_no_dash :
  forallb (fun n => negb (has_dash n)) inherited_names = true.
Proof. vm_compute. reflexivity. Qed.

Lemma has_dash_plain k :
  has_dash k = true -> inherited k = false /\ arrayIndex k = None.
Proof.
  intros H. split.
  - unfold inherited. apply bool_decide_eq_false_2. intros Hin.
    pose proof inherited_no_dash as Hn. rewrite forallb_forall in Hn.
    apply list_elem_of_In, Hn in Hin. rewrite H in Hin. discriminate.
  - unfold arrayIndex. rewrite has_dash_digits by exact H. reflexivity.
Qed.

Lemma omap_cell_number {K} (f : K -> Z) (ks : list K) :
  omap cell_number (map (fun k => CNum (f k)) ks) = map f ks.
Proof. induction ks as [|k ks IH]; [reflexivity|]. simpl. f_equal. exact IH. Qed.

Lemma sum_where_all {A} (amt : A -> Z) (p : A -> bool) (xs : list A) :
  (forall x, x ∈ xs -> p x = true) ->
  sum_where amt p xs = foldr Z.add 0 (map amt xs).
Proof.
  intros H. unfold sum_where. f_equal. f_equal.
  induction xs as [|x xs IH]; [reflexivity|].
  cbn [List.filter]. rewrite (H x) by left. f_equal. apply IH.
  intros y Hy. apply H. right. exact Hy.
Qed.

Lemma sum_over_index {A I} (amt : A -> Z) (p : A -> bool) (q : I -> A -> bool)
  (ids : list I) (xs : list A) :
  NoDup ids ->
  (forall i j x, i ∈ ids -> j ∈ ids -> q i x = true -> q j x = true -> i = j) ->
  foldr Z.add 0 (map (fun i => sum_where amt (fun x => p x && q i x) xs) ids) =
  sum_where amt (fun x => p x && existsb (fun i => q i x) ids) xs.
Proof.
  induction 1 as [|i ids Hi Hnd IH]; intros Hdisj; cbn [map foldr existsb].
  - symmetry. apply sum_where_none. intros x _. apply andb_false_r.
  - rewrite IH.
    + symmetry. apply sum_where_or. intros x Hq Hr.
      apply existsb_exists in Hr. destruct Hr as (j & Hj & Hqj).
      apply list_elem_of_In in Hj.
      assert (i = j) by (apply (Hdisj i j x); [left|right| |]; auto).
      subst j. contradiction.
    + intros a b x Ha Hb. apply Hdisj; right; assumption.
Qed.

Section SumByTotals.
Context {A : Type} (keyf : A -> string) (amt : A -> Z).

Lemma sum_by_values xs :
  Object_keys (sum_by keyf amt xs) = values_order (sum_keys keyf xs) /\
  Object_values (sum_by keyf amt xs) =
    map (sum_cell keyf amt xs) (Object_keys (sum_by keyf amt xs)).
Proof.
  rewrite sum_by_closed, Object_keys_closed, Object_values_closed. auto.
Qed.

Lemma sum_data_total xs :
  (forall x, x ∈ xs -> inherited (keyf x) = false) ->
  foldr Z.add 0 (omap cell_number (Object_values (sum_by keyf amt xs))) =
  foldr Z.add 0 (map amt xs).
Proof.
  intros Hp. destruct (sum_by_values xs) as [Hk ->]. rewrite Hk.
  set (ks := values_order (sum_keys keyf xs)).
  assert (Hks : forall k, k ∈ ks <->
                          k <> "__proto__"%string /\ exists x, x ∈ xs /\ keyf x = k).
  { intros k. unfold ks. rewrite values_order_elem. apply sum_keys_elem. }
  assert (Hnd : NoDup ks).
  { unfold ks. rewrite (values_order_perm (sum_keys keyf xs)).
    apply first_seen_NoDup. }
  rewrite (map_ext_in (sum_cell keyf amt xs)
             (fun k => CNum (sum_where amt (fun x => String.eqb (keyf x) k) xs))).
  - rewrite omap_cell_number.
    rewrite (map_ext _ (fun k => sum_where amt
               (fun x => true && String.eqb (keyf x) k) xs)) by reflexivity.
    rewrite (sum_over_index amt (fun _ => true)
               (fun k x => String.eqb (keyf x) k) ks xs Hnd).
    + apply sum_where_all. intros x Hx. cbn [andb].
      apply existsb_exists. exists (keyf x). rewrite String.eqb_refl.
      split; [|reflexivity]. apply list_elem_of_In, Hks.
      split; [|exists x; auto]. intros He. specialize (Hp x Hx).
      rewrite He, inherited_proto in Hp. discriminate.
    + intros i j x _ _ H1 H2. apply String.eqb_eq in H1, H2. congruence.
  - intros k Hk'. apply list_elem_of_In, Hks in Hk'.
    destruct Hk' as (_ & x & Hx & <-). unfold sum_cell.
    rewrite (Hp x Hx). reflexivity.
Qed.

Lemma sum_by_plain xs :
  (forall x, x ∈ xs -> inherited (keyf x) = false /\ arrayIndex (keyf x) = None) ->
  Object_keys (sum_by keyf amt xs) = first_seen (map keyf xs) /\
  Object_values (sum_by keyf amt xs) =
    map (fun k => CNum (sum_where amt (fun x => String.eqb (keyf x) k) xs))
        (first_seen (map keyf xs)).
Proof.
  intros Hp.
  assert (Hkeys : sum_keys keyf xs = first_seen (map keyf xs)).
  { unfold sum_keys. f_equal. f_equal.
    induction xs as [|x xs' IH]; [reflexivity|]. cbn [List.filter].
    destruct (String.eqb_spec (keyf x) "__proto__") as [He|Hne].
    - destruct (Hp x) as [Hi _]; [left|].
      rewrite He, inherited_proto in Hi. discriminate.
    - cbn [negb]. f_equal. apply IH. intros y Hy. apply Hp. right. exact Hy. }
  assert (Hin : forall k, k ∈ first_seen (map keyf xs) ->
                          inherited k = false /\ arrayIndex k = None).
  { intros k Hk. apply first_seen_elem, list_elem_of_In, in_map_iff in Hk.
    destruct Hk as (x & <- & Hx). apply Hp, list_elem_of_In, Hx. }
  destruct (sum_by_values xs) as [Hk ->]. rewrite Hk, Hkeys.
  rewrite values_order_named by (intros k Hk'; apply Hin, Hk').
  split; [reflexivity|]. apply map_ext_in. intros k Hk'.
  apply list_elem_of_In, Hin in Hk'. unfold sum_cell.
  destruct Hk' as [-> _]. reflexivity.
Qed.

End SumByTotals.

(** ** Bars by month *)

Lemma padStart_four_digits y :
  JSString.padStart 4 "0" (four_digits y) = four_digits y.
Proof. reflexivity. Qed.

Lemma format_month_four_digits d :
  1000 <= getFullYear d <= 9999 ->
  LegacyViews.format_yyyy_MM d =
  four_digits (getFullYear d) +:+ "-" +:+ pad (getMonth d + 1).
Proof.
  intros Hy. unfold LegacyViews.format_yyyy_MM. cbv zeta.
  destruct (Z.ltb_spec 0 (getFullYear d)) as [_|Hn]; [|lia].
  rewrite pretty_four_digits by exact Hy. rewrite padStart_four_digits.
  reflexivity.
Qed.

Lemma format_month_same d1 d2 :
  1000 <= getFullYear d1 <= 9999 -> 1000 <= getFullYear d2 <= 9999 ->
  (LegacyViews.format_yyyy_MM d1 = LegacyViews.format_yyyy_MM d2 <->
   LegacyViews.isSameMonth d1 d2 = true).
Proof.
  intros H1 H2. unfold LegacyViews.isSameMonth.
  rewrite andb_true_iff, !Z.eqb_eq.
  rewrite !format_month_four_digits by assumption.
  pose proof (getMonth_range d1). pose proof (getMonth_range d2).
  split.
  - intros Heq. apply append_inj_tail in Heq as [Hy Hm].
    + rewrite <- !pretty_four_digits in Hy by assumption.
      apply (inj pretty) in Hy.
      rewrite !(append_cons "-" EmptyString), !append_nil in Hm.
      injection Hm as Hm. apply pad_inj in Hm; lia.
    + rewrite !length_append, !pad_length by lia. reflexivity.
  - intros [-> ->]. reflexivity.
Qed.

Lemma format_month_dash d : has_dash (LegacyViews.format_yyyy_MM d) = true.
Proof.
  unfold LegacyViews.format_yyyy_MM. cbv zeta. rewrite !has_dash_append.
  change (has_dash "-") with true. cbn [orb]. apply orb_true_r.
Qed.



(** ** Balances by wallet *)

Lemma reduce_filter (p : Legacy.Transaction -> bool) xs :
  Legacy.reduce_amount (List.filter p xs) = sum_where Legacy.amount p xs.
Proof. unfold Legacy.reduce_amount. rewrite reduce_sum. apply Z.add_0_l. Qed.

Lemma sum_where_split {A} (amt : A -> Z) (p q : A -> bool) (xs : list A) :
  sum_where amt p xs =
  sum_where amt (fun x => p x && q x) xs +
  sum_where amt (fun x => p x && negb (q x)) xs.
Proof.
  unfold sum_where. induction xs as [|x xs IH]; [reflexivity|].
  cbn [List.filter]. destruct (p x), (q x); cbn [andb negb map foldr]; lia.
Qed.

Lemma wallet_cash_bank t :
  LegacyViews.wallet_is "cash" t = true ->
  LegacyViews.wallet_is "bank" t = true -> False.
Proof.
  unfold LegacyViews.wallet_is. intros H1 H2.
  apply bool_decide_eq_true in H1, H2. congruence.
Qed.

Lemma wallet_parts (p : Legacy.Transaction -> bool) xs :
  sum_where Legacy.amount p xs =
  sum_where Legacy.amount (fun t => p t && LegacyViews.wallet_is "cash" t) xs +
  sum_where Legacy.amount (fun t => p t && LegacyViews.wallet_is "bank" t) xs +
  sum_where Legacy.amount
    (fun t => p t && negb (LegacyViews.wallet_is "cash" t) &&
              negb (LegacyViews.wallet_is "bank" t)) xs.
Proof.
  rewrite (sum_where_split Legacy.amount p (LegacyViews.wallet_is "cash")).
  rewrite (sum_where_split Legacy.amount
             (fun t => p t && negb (LegacyViews.wallet_is "cash" t))
             (LegacyViews.wallet_is "bank")).
  rewrite (sum_where_ext Legacy.amount
             (fun t => p t && negb (LegacyViews.wallet_is "cash" t) &&
                       LegacyViews.wallet_is "bank" t)
             (fun t => p t && LegacyViews.wallet_is "bank" t)); [lia|].
  intros t _. destruct (p t); [|reflexivity]. cbn [andb].
  destruct (LegacyViews.wallet_is "cash" t) eqn:Ec; [|reflexivity].
  destruct (LegacyViews.wallet_is "bank" t) eqn:Eb; [|reflexivity].
  destruct (wallet_cash_bank t Ec Eb).
Qed.


(** ** The line chart against the tile of the month and the calendar *)

Lemma getDate_in_month d :
  1 <= getDate d <= JSDate.daysInMonth (getFullYear d) (getMonth d).
Proof.
  unfold getDate, getMonth, getFullYear. cbv zeta.
  pose proof (DayWithinYear_range d) as Hw. revert Hw.
  unfold InLeapYear, JSDate.daysInMonth.
  set (w := DayWithinYear d). destruct (isLeap (YearFromDay d));
    unfold monthOfYearDay;
    repeat match goal with
           | |- context [?a <? ?b] => destruct (Z.ltb_spec a b)
           end; cbn [monthStart]; intros; lia.
Qed.

Lemma in_month_day y m d :
  0 <= m <= 11 ->
  existsb (fun i => d =? MakeDay y m (i + 1)) (seqZ 0 (JSDate.daysInMonth y m)) =
  (getFullYear d =? y) && (getMonth d =? m).
Proof.
  intros Hm. apply eq_true_iff_eq.
  rewrite existsb_exists, andb_true_iff, !Z.eqb_eq. split.
  - intros (i & Hi & Hd). apply list_elem_of_In, elem_of_seqZ in Hi.
    apply Z.eqb_eq in Hd. subst d.
    split; [apply getFullYear_MakeDay|apply getMonth_MakeDay]; lia.
  - intros [Hy Hmo]. exists (getDate d - 1).
    pose proof (getDate_in_month d) as Hr. rewrite Hy, Hmo in Hr. split.
    + apply list_elem_of_In, elem_of_seqZ. lia.
    + apply Z.eqb_eq. replace (getDate d - 1 + 1) with (getDate d) by lia.
      rewrite <- Hy, <- Hmo. symmetry. apply MakeDay_fields.
Qed.

Lemma lineData_closed y m transactions :
  99 < y -> 0 <= m <= 11 ->
  Daily.lineData y m transactions =
  map (fun i => sum_where Legacy.amount
                  (fun t => Legacy.is_expense t &&
                            (Legacy.date t =? MakeDay y m (i + 1)))
                  transactions)
      (seqZ 0 (JSDate.daysInMonth y m)).
Proof.
  intros Hy Hm. unfold Daily.lineData, Daily.dateLabels.
  rewrite (daysInMonth_calendar y m Hy Hm), map_map.
  apply map_ext_in. intros i Hi. apply list_elem_of_In, elem_of_seqZ in Hi.
  rewrite (newDate_literal y Hy). apply (lineData_day y m Hm). lia.
Qed.



Lemma sum_three_parts {A} (amt : A -> Z) (p q : A -> bool) (xs : list A) :
  (forall x, p x = true -> q x = true -> False) ->
  foldr Z.add 0 (map amt xs) =
  sum_where amt p xs + sum_where amt q xs +
  sum_where amt (fun x => negb (p x) && negb (q x)) xs.
Proof.
  intros Hd. unfold sum_where. induction xs as [|x xs IH]; [reflexivity|].
  cbn [List.filter map foldr]. specialize (Hd x).
  destruct (p x), (q x); cbn [andb negb map foldr];
    first [lia | exfalso; auto].
Qed.



(** ** The text search *)

Lemma prefix_spec sub s :
  String.prefix sub s = true <-> exists b, s = sub +:+ b.
Proof.
  revert s. induction sub as [|c sub IH]; intros s.
  - cbn [String.prefix]. split; [intros _; exists s; reflexivity|].
    destruct s; reflexivity.
  - destruct s as [|c' s]; cbn [String.prefix].
    + split; [discriminate|]. intros (b & Hb). rewrite append_cons in Hb.
      discriminate.
    + destruct (ascii_dec c c') as [<-|Hne].
      * rewrite IH. split; intros (b & Hb); exists b.
        -- rewrite append_cons. now f_equal.
        -- rewrite append_cons in Hb. now injection Hb.
      * split; [discriminate|]. intros (b & Hb). rewrite append_cons in Hb.
        injection Hb as Hc _. congruence.
Qed.

Lemma includes_spec s sub :
  JSString.includes s sub = true <-> exists a b, s = a +:+ sub +:+ b.
Proof.
  induction s as [|c s IH]; cbn [JSString.includes].
  - rewrite orb_false_r, prefix_spec. split.
    + intros (b & Hb). exists EmptyString, b. exact Hb.
    + intros (a & b & Hab). destruct a as [|c a].
      * exists b. exact Hab.
      * rewrite append_cons in Hab. discriminate.
  - rewrite orb_true_iff, prefix_spec, IH. split.
    + intros [(b & Hb)|(a & b & Hab)].
      * exists EmptyString, b. exact Hb.
      * exists (String c a), b. rewrite append_cons. now f_equal.
    + intros (a & b & Hab). destruct a as [|c' a].
      * left. exists b. exact Hab.
      * right. rewrite append_cons in Hab. injection Hab as _ Hab.
        exists a, b. exact Hab.
Qed.

Lemma lower_char_idem c :
  JSString.lower_char (JSString.lower_char c) = JSString.lower_char c.
Proof. destruct c as [[] [] [] [] [] [] [] []]; reflexivity. Qed.

Lemma toLowerCase_idem s :
  JSString.toLowerCase (JSString.toLowerCase s) = JSString.toLowerCase s.
Proof.
  induction s as [|c s IH]; [reflexivity|].
  cbn [JSString.toLowerCase]. now rewrite lower_char_idem, IH.
Qed.

Lemma toLowerCase_falsy s :
  JSString.falsy (JSString.toLowerCase s) = JSString.falsy s.
Proof. destruct s; reflexivity. Qed.

Lemma falsy_empty s : JSString.falsy s = true <-> s = ""%string.
Proof. destruct s; split; intros H; try reflexivity; discriminate. Qed.


(** ** The forms *)

Lemma digit_le c v : JSString.digit c = Some v -> (v <= 9)%N.
Proof.
  unfold JSString.digit. cbv zeta.
  destruct (N.leb_spec 48 (N_of_ascii c)); cbn [andb]; [|discriminate].
  destruct (N.leb_spec (N_of_ascii c) 57); [|discriminate].
  intros [= <-]. lia.
Qed.

Lemma digits_keep s acc :
  exists n, JSString.digits acc (keep_digits s) = Some n.
Proof.
  revert acc. induction s as [|c s IH]; intros acc.
  - exists acc. reflexivity.
  - cbn [keep_digits]. unfold is_digit.
    destruct (JSString.digit c) as [v|] eqn:Ev; [|apply IH].
    cbn [JSString.digits]. rewrite Ev. apply IH.
Qed.

Lemma digits_bound s acc n :
  JSString.digits acc s = Some n ->
  (n < (acc + 1) * 10 ^ N.of_nat (String.length s))%N.
Proof.
  revert acc. induction s as [|c s IH]; intros acc H.
  - cbn in H. injection H as <-. cbn [String.length]. lia.
  - cbn [JSString.digits] in H.
    destruct (JSString.digit c) as [v|] eqn:Ev; [|discriminate].
    apply digit_le in Ev. apply IH in H. cbn [String.length].
    rewrite Nat2N.inj_succ, N.pow_succ_r'. nia.
Qed.

Lemma Number_keep typed :
  (String.length (keep_digits typed) <= 15)%nat ->
  0 <= Number_digits (keep_digits typed) < 10 ^ 15.
Proof.
  intros Hlen. unfold Number_digits.
  destruct (digits_keep typed 0%N) as (n & Hn). rewrite Hn. cbn [default].
  unfold id. apply digits_bound in Hn.
  assert (Hp : (10 ^ N.of_nat (String.length (keep_digits typed)) <= 10 ^ 15)%N).
  { apply N.pow_le_mono_r; lia. }
  change (10 ^ 15) with (Z.of_N (10 ^ 15)%N).
  set (X := (10 ^ N.of_nat (String.length (keep_digits typed)))%N) in *.
  set (P := (10 ^ 15)%N) in *. lia.
Qed.

(** X16: the amount of the transaction form.  Whatever is typed, the field
    keeps its ASCII digits only; with at most 15 digits kept, submitting is
    refused exactly when they write 0 (no digit at all included), and a
    submitted payload carries the number written, a positive integer below
    10^15, together with the type, category, note and date of the form. *)
Theorem TxForm_amount_positive (typed type category note date : string) :
  (String.length (TxForm.amount_typed typed) <= 15)%nat ->
  (TxForm.submit type (TxForm.amount_typed typed) category note date = None <->
   Number_digits (keep_digits typed) = 0) /\
  (forall p,
     TxForm.submit type (TxForm.amount_typed typed) category note date = Some p ->
     0 < p_amount p < 10 ^ 15 /\
     p_amount p = Number_digits (keep_digits typed) /\
     p_type p = type /\ p_category p = category /\ p_note p = note /\
     p_date p = date).
Proof.
  unfold TxForm.amount_typed. intros Hlen.
  pose proof (Number_keep typed Hlen) as Hn.
  unfold TxForm.submit. cbv zeta.
  destruct (Z.eqb_spec (Number_digits (keep_digits typed)) 0) as [H0|H0].
  - cbn [orb]. split; [tauto|]. discriminate.
  - cbn [orb].
    destruct (Z.leb_spec (Number_digits (keep_digits typed)) 0) as [Hle|Hgt].
    + lia.
    + split; [split; [discriminate|contradiction]|].
      intros p [= <-]. cbn. repeat split; lia.
Qed.

Lemma TxForm_amount_positive_witness :
  (String.length (TxForm.amount_typed Sample9.with_letters) <= 15)%nat /\
  forall p,
    TxForm.submit "expense" (TxForm.amount_typed Sample9.with_letters)
                  "Food" "Coffee" "2024-06-15" = Some p ->
    0 < p_amount p < 10 ^ 15 /\
    p_amount p = Number_digits (keep_digits Sample9.with_letters) /\
    p_type p = "expense"%string /\ p_category p = "Food"%string /\
    p_note p = "Coffee"%string /\ p_date p = "2024-06-15"%string.
Proof.
  assert (H : (String.length (TxForm.amount_typed Sample9.with_letters) <= 15)%nat)
    by (vm_compute; lia).
  split; [exact H|].
  exact (proj2 (TxForm_amount_positive Sample9.with_letters "expense"
                  "Food" "Coffee" "2024-06-15" H)).
Defined.

(** ** The progress of the budget *)

Lemma budget_percent_closed (b e : Z) :
  0 < b ->
  budgetProgressPercent (Some b) e =
  Z.min 100 (Z.max 0 ((200 * e + b) / (2 * b))).
Proof.
  intros Hb. destruct b as [|p|p]; try lia.
  unfold budgetProgressPercent, budgetSpentRatio, budgetIsSet.
  change (0 <? Z.pos p) with true. cbn [andb].
  unfold Math_min, Math_round, Qle_bool, Qdiv, Qinv, Qmult, Qplus, Qfloor,
    inject_Z. cbn [Qnum Qden].
  destruct (Z.leb_spec (1 * Z.pos (1 * p)) (e * 1 * 1)) as [Hle|Hgt].
  - cbn [Qnum Qden].
    change ((1 * 100 * 2 + 1 * Z.pos (1 * 1)) / Z.pos (1 * 1 * 2)) with 100.
    assert (100 <= (200 * e + Z.pos p) / (2 * Z.pos p)).
    { apply Z.div_le_lower_bound; lia. }
    lia.
  - cbn [Qnum Qden]. f_equal. f_equal. f_equal; lia.
Qed.



(** X18: the budget form.  Whatever is typed, the field keeps its ASCII
    digits; with at most 15 of them the form always saves, and what it
    saves is the number written, never negative.  Typing no digit, or only
    zeros, saves 0, and a saved 0 is derived as no budget: not set, no
    remaining amount, 0 percent, not exceeded.  A positive budget is set
    and its remaining amount is the budget minus the expenses. *)
Theorem budget_form_saves (typed : string) (monthlyExpense : Z) :
  (String.length (BudgetForm.input_typed typed) <= 15)%nat ->
  exists next,
    BudgetForm.handleSubmit (BudgetForm.input_typed typed) = Some next /\
    next = Number_digits (keep_digits typed) /\ 0 <= next < 10 ^ 15 /\
    (next = 0 ->
     deriveBudgetStatus (Some next) monthlyExpense =
       {| isSet := false; remaining := None; spentRatio := 0%Q; percent := 0;
          isOverBudget := false |}) /\
    (0 < next ->
     isSet (deriveBudgetStatus (Some next) monthlyExpense) = true /\
     remaining (deriveBudgetStatus (Some next) monthlyExpense) =
       Some (next - monthlyExpense)).
Proof.
  unfold BudgetForm.input_typed. intros Hlen.
  pose proof (Number_keep typed Hlen) as Hn.
  exists (Number_digits (keep_digits typed)).
  unfold BudgetForm.handleSubmit. cbv zeta.
  destruct (Z.ltb_spec (Number_digits (keep_digits typed)) 0) as [Hneg|_];
    [lia|].
  split; [reflexivity|]. split; [reflexivity|]. split; [exact Hn|]. split.
  - intros ->. reflexivity.
  - intros Hpos. apply Z.ltb_lt in Hpos as Hpos'.
    cbn [deriveBudgetStatus isSet remaining]. unfold budgetRemaining.
    cbn [budgetIsSet fmap option_fmap option_map]. rewrite Hpos'. auto.
Qed.

Lemma budget_form_saves_witness :
  (String.length (BudgetForm.input_typed "") <= 15)%nat /\
  exists next,
    BudgetForm.handleSubmit (BudgetForm.input_typed "") = Some next /\
    next = Number_digits (keep_digits "") /\ 0 <= next < 10 ^ 15 /\
    (next = 0 ->
     deriveBudgetStatus (Some next) 100 =
       {| isSet := false; remaining := None; spentRatio := 0%Q; percent := 0;
          isOverBudget := false |}) /\
    (0 < next ->
     isSet (deriveBudgetStatus (Some next) 100) = true /\
     remaining (deriveBudgetStatus (Some next) 100) = Some (next - 100)).
Proof.
  assert (H : (String.length (BudgetForm.input_typed "") <= 15)%nat)
    by (vm_compute; lia).
  split; [exact H|]. exact (budget_form_saves "" 100 H).
Defined.

(** ** The local store *)

Lemma sums_cons t txs :
  income (sums (t :: txs)) =
    income (sums txs) + (if type_is t "income" then t_amount t else 0) /\
  expense (sums (t :: txs)) =
    expense (sums txs) + (if type_is t "income" then 0 else t_amount t) /\
  balance (sums (t :: txs)) =
    balance (sums txs) +
    (if type_is t "income" then t_amount t else - t_amount t).
Proof.
  rewrite !sums_raw. cbn [income expense balance]. unfold sum_where.
  cbn [List.filter]. destruct (type_is t "income");
    cbn [negb map foldr]; repeat split; lia.
Qed.


(** ** The quote tile *)

(** X20: the index of the quote tile.  Over n > 0 quotes, from an index in
    0..n-1 both buttons lead to an index in 0..n-1 again, so a quote is
    always shown; the two buttons undo each other; next from the last quote
    leads to the first one and previous from the first one to the last. *)
Theorem quote_index_in_range (n prev : Z) :
  0 < n -> 0 <= prev < n ->
  0 <= LegacyViews.handlePrevQuote n prev < n /\
  0 <= LegacyViews.handleNextQuote n prev < n /\
  LegacyViews.handleNextQuote n (LegacyViews.handlePrevQuote n prev) = prev /\
  LegacyViews.handlePrevQuote n (LegacyViews.handleNextQuote n prev) = prev /\
  LegacyViews.handleNextQuote n (n - 1) = 0 /\
  LegacyViews.handlePrevQuote n 0 = n - 1.
Proof.
  intros Hn Hp. unfold LegacyViews.handlePrevQuote, LegacyViews.handleNextQuote.
  repeat match goal with
         | |- context [?a =? ?b] => destruct (Z.eqb_spec a b)
         end; lia.
Qed.

Lemma quote_index_in_range_witness :
  0 < 5 /\ 0 <= 4 < 5 /\ 0 <= LegacyViews.handleNextQuote 5 4 < 5.
Proof.
  assert (H1 : 0 < 5) by lia. assert (H2 : 0 <= 4 < 5) by lia.
  split; [exact H1|]. split; [exact H2|].
  exact (proj1 (proj2 (quote_index_in_range 5 4 H1 H2))).
Defined.

(** ** The CSV export *)

Lemma count_char_append c a b :
  count_char c (a +:+ b) = (count_char c a + count_char c b)%nat.
Proof.
  induction a as [|x a IH]; [reflexivity|].
  rewrite append_cons. cbn [count_char]. rewrite IH. lia.
Qed.

Lemma pretty_N_char_digit n : is_digit (pretty_N_char n) = true.
Proof.
  unfold pretty_N_char.
  repeat match goal with
         | |- context [match ?x with _ => _ end] => destruct x
         end; reflexivity.
Qed.

Lemma count_pretty_go c x s :
  is_digit c = false ->
  count_char c (pretty_N_go x s) = count_char c s.
Proof.
  intros Hc. revert s. induction (N.lt_wf_0 x) as [x _ IH]; intros s.
  destruct (N.eq_dec x 0%N) as [->|Hx]; [reflexivity|].
  rewrite pretty_N_go_step by lia. rewrite IH by (apply N.div_lt; lia).
  cbn [count_char].
  destruct (Ascii.eqb_spec (pretty_N_char (x mod 10)%N) c) as [He|_];
    [|reflexivity].
  rewrite <- He, pretty_N_char_digit in Hc. discriminate.
Qed.

Lemma count_pretty_N c (x : N) :
  is_digit c = false -> count_char c (pretty x) = O.
Proof.
  intros Hc. unfold pretty, pretty_N. destruct (decide (x = 0%N)).
  - cbn [count_char]. destruct (Ascii.eqb_spec "0" c) as [<-|_];
      [discriminate|reflexivity].
  - now rewrite count_pretty_go.
Qed.

Lemma count_ofInt c z :
  is_digit c = false -> c <> "-"%char -> count_char c (JSString.ofInt z) = O.
Proof.
  intros Hc Hd. unfold JSString.ofInt, pretty, pretty_Z. destruct z as [|p|p].
  - cbn [count_char]. destruct (Ascii.eqb_spec "0" c) as [<-|_];
      [discriminate|reflexivity].
  - apply (count_pretty_N c (N.pos p) Hc).
  - rewrite (append_cons "-" EmptyString), append_nil. cbn [count_char].
    destruct (Ascii.eqb_spec "-" c) as [He|_]; [congruence|].
    apply (count_pretty_N c (N.pos p) Hc).
Qed.

Lemma count_join c sep xs :
  count_char c (Csv.join sep xs) =
  (foldr Nat.add 0 (map (count_char c) xs) +
   (length xs - 1) * count_char c sep)%nat.
Proof.
  induction xs as [|x xs IH]; [reflexivity|].
  destruct xs as [|y xs].
  - cbn. lia.
  - change (Csv.join sep (x :: y :: xs))
      with (x +:+ sep +:+ Csv.join sep (y :: xs)).
    rewrite !count_char_append, IH. cbn [map foldr length]. lia.
Qed.

Lemma count_replace_newlines s :
  count_char Csv.newline (Csv.replace_newlines s) = O /\
  count_char "," (Csv.replace_newlines s) = count_char "," s.
Proof.
  induction s as [|c s [IH1 IH2]]; [split; reflexivity|].
  cbn [Csv.replace_newlines count_char]. rewrite IH1, IH2.
  destruct (Ascii.eqb_spec c Csv.newline) as [->|Hn]; [split; reflexivity|].
  split; [|reflexivity].
  destruct (Ascii.eqb_spec c Csv.newline); [contradiction|reflexivity].
Qed.

Lemma count_row c t :
  is_digit c = false -> c <> "-"%char ->
  count_char c (Csv.row t) =
  (field_count c t + 4 * count_char c ",")%nat.
Proof.
  intros Hc Hd. unfold Csv.row, field_count. rewrite count_join.
  cbn [map foldr length]. rewrite (count_ofInt c _ Hc Hd). lia.
Qed.

Lemma foldr_add_zero {A} (f : A -> nat) (xs : list A) :
  (forall x, x ∈ xs -> f x = O) -> foldr Nat.add 0%nat (map f xs) = O.
Proof.
  intros H. induction xs as [|x xs IH]; [reflexivity|].
  cbn [map foldr]. rewrite (H x) by left. rewrite IH; [reflexivity|].
  intros y Hy. apply H. right. exact Hy.
Qed.

(** X21: the text of the CSV export.  A row has its four separating commas
    plus the commas that occur in the type, the category, the note and the
    date of the record: nothing is quoted, so the row has five fields
    exactly when none of them holds a comma.  Line breaks of the note are
    replaced, those of the other fields are not.  The text has one line
    break after the header, one between two rows and those the rows bring:
    for n records without line breaks in type, category and date it has
    max(1, n) line breaks, that is the header and one line per record. *)
Theorem exportCSV_shape (filtered : list Transaction) :
  (forall t,
     count_char "," (Csv.row t) =
       (4 + count_char "," (Csv.shown (t_type t)) + count_char "," (t_category t) +
        count_char "," (or_else (t_note t) "") +
        count_char "," (Csv.shown (t_date t)))%nat /\
     count_char Csv.newline (Csv.row t) =
       (count_char Csv.newline (Csv.shown (t_type t)) +
        count_char Csv.newline (t_category t) +
        count_char Csv.newline (Csv.shown (t_date t)))%nat) /\
  count_char Csv.newline (Csv.exportCSV filtered) =
    (1 + (length filtered - 1) +
     foldr Nat.add 0 (map (fun t => count_char Csv.newline (Csv.row t)) filtered))%nat /\
  ((forall t, t ∈ filtered -> count_char Csv.newline (Csv.row t) = O) ->
   count_char Csv.newline (Csv.exportCSV filtered) =
     Nat.max 1 (length filtered)).
Proof.
  assert (Hall : count_char Csv.newline (Csv.exportCSV filtered) =
    (1 + (length filtered - 1) +
     foldr Nat.add 0 (map (fun t => count_char Csv.newline (Csv.row t)) filtered))%nat).
  { unfold Csv.exportCSV, Csv.rows. rewrite !count_char_append, count_join.
    rewrite length_map, map_map.
    change (count_char Csv.newline Csv.header) with O.
    change (count_char Csv.newline (String Csv.newline "")) with 1%nat. lia. }
  split; [|split].
  - intros t. split.
    + rewrite count_row by (reflexivity || discriminate).
      unfold field_count.
      rewrite (proj2 (count_replace_newlines (or_else (t_note t) ""))).
      change (count_char "," ",") with 1%nat. lia.
    + rewrite count_row by (reflexivity || discriminate).
      unfold field_count.
      rewrite (proj1 (count_replace_newlines (or_else (t_note t) ""))).
      change (count_char Csv.newline ",") with O. lia.
  - exact Hall.
  - intros Hrows. rewrite Hall.
    rewrite (foldr_add_zero _ filtered Hrows).
    destruct filtered; cbn [length]; lia.
Qed.

(** ** The older transaction form *)



(** ** Labels of days *)

Lemma toISO_format d :
  1000 <= getFullYear d <= 9999 -> toISO d = format_yyyy_MM_dd d.
Proof.
  intros Hy. unfold toISO, format_yyyy_MM_dd. cbv zeta.
  destruct (Z.ltb_spec 0 (getFullYear d)) as [_|Hn]; [|lia].
  rewrite pretty_four_digits by exact Hy. rewrite padStart_four_digits.
  reflexivity.
Qed.


(** X24: for a day whose year has four digits the label written by
    [toISO] has ten characters and is the text date-fns writes for the
    pattern yyyy-MM-dd, so the tracker and the older components label a
    day alike; and the label determines the day. *)
Theorem toISO_matches_format (d : Date) :
  1000 <= getFullYear d <= 9999 ->
  toISO d = format_yyyy_MM_dd d /\
  String.length (toISO d) = 10%nat /\
  (forall d', toISO d' = toISO d -> d' = d).
Proof.
  intros Hy. split; [apply toISO_format, Hy|]. split.
  - unfold toISO. rewrite pretty_four_digits by exact Hy.
    pose proof (getMonth_range d). pose proof (getDate_range d).
    rewrite !length_append, !pad_length by lia. reflexivity.
  - intros d' H. apply toISO_inj, H.
Qed.

Lemma toISO_matches_format_witness :
  1000 <= getFullYear Sample5.today <= 9999 /\
  toISO Sample5.today = format_yyyy_MM_dd Sample5.today.
Proof.
  assert (H : 1000 <= getFullYear Sample5.today <= 9999) by year_in_range.
  split; [exact H|]. exact (proj1 (toISO_matches_format Sample5.today H)).
Defined.

(** ** Writing a number and reading it back *)

Lemma pretty_go_app x s : pretty_N_go x s = pretty_N_go x "" +:+ s.
Proof.
  revert s. induction (N.lt_wf_0 x) as [x _ IH]; intros s.
  destruct (N.eq_dec x 0%N) as [->|Hx]; [reflexivity|].
  assert (Hlt : (x / 10 < x)%N) by (apply N.div_lt; lia).
  rewrite (pretty_N_go_step x s), (pretty_N_go_step x "") by lia.
  rewrite (IH _ Hlt (String (pretty_N_char (x mod 10)%N) s)).
  rewrite (IH _ Hlt (String (pretty_N_char (x mod 10)%N) "")).
  rewrite append_assoc. reflexivity.
Qed.

Lemma digits_app acc a b :
  JSString.digits acc (a +:+ b) =
  match JSString.digits acc a with
  | Some n => JSString.digits n b
  | None => None
  end.
Proof.
  revert acc. induction a as [|c a IH]; intros acc; [reflexivity|].
  rewrite append_cons. cbn [JSString.digits].
  destruct (JSString.digit c); [apply IH|reflexivity].
Qed.

Lemma digit_pretty_char d :
  (d < 10)%N -> JSString.digit (pretty_N_char d) = Some d.
Proof.
  intros Hd.
  assert (Hc : (d = 0 \/ d = 1 \/ d = 2 \/ d = 3 \/ d = 4 \/ d = 5 \/ d = 6 \/
                d = 7 \/ d = 8 \/ d = 9)%N) by lia.
  repeat (destruct Hc as [->|Hc]; [reflexivity|]). subst d. reflexivity.
Qed.

Lemma digits_pretty_go x : JSString.digits 0 (pretty_N_go x "") = Some x.
Proof.
  induction (N.lt_wf_0 x) as [x _ IH].
  destruct (N.eq_dec x 0%N) as [->|Hx]; [reflexivity|].
  rewrite pretty_N_go_step by lia. rewrite pretty_go_app, digits_app.
  rewrite IH by (apply N.div_lt; lia). cbn [JSString.digits].
  rewrite digit_pretty_char by (apply N.mod_lt; lia).
  f_equal. pose proof (N.div_mod x 10). lia.
Qed.

Lemma Number_ofInt a : 0 <= a -> Number_digits (JSString.ofInt a) = a.
Proof.
  intros Ha. unfold Number_digits, JSString.ofInt, pretty, pretty_Z.
  destruct a as [|p|p]; [reflexivity| |lia].
  change (pretty p) with (pretty (N.pos p)). unfold pretty, pretty_N.
  destruct (decide (N.pos p = 0%N)); [discriminate|].
  rewrite digits_pretty_go. reflexivity.
Qed.

(** X25: editing a record and saving the form untouched.  For a record
    with an identifier and a positive amount (below 10^15) the form
    submits, and the patch carries the amount of the record, its effective
    type, its note (empty when missing), its date (today when missing) and
    its category when it has one.  A record that has all its fields comes
    back exactly as it was; a record written without a type comes back with
    the type field expense, so from then on the type filter and the
    expenses of the month count it; its side in the totals does not
    change. *)
Theorem edit_round_trip (now : Date) (t : Transaction)
  (transactions : list Transaction) :
  t_id t <> ""%string -> 0 < t_amount t < 10 ^ 15 ->
  exists patch,
    TxEdit.save (TxEdit.opened now t) = Some patch /\
    TxEdit.edit_and_save now t transactions =
      LocalStore.update (t_id t) patch transactions /\
    p_amount patch = t_amount t /\
    p_type patch = effective_type (t_type t) /\
    p_note patch = or_else (t_note t) "" /\
    p_date patch = or_else (t_date t) (toISO now) /\
    (t_category t <> ""%string -> p_category patch = t_category t) /\
    (forall ty n d,
       t_type t = Some ty -> ty <> ""%string -> t_category t <> ""%string ->
       t_note t = Some n -> t_date t = Some d -> d <> ""%string ->
       LocalStore.item (t_id t) patch = t) /\
    (t_type t = None ->
     type_is (LocalStore.item (t_id t) patch) "expense" = true) /\
    type_is (LocalStore.item (t_id t) patch) "income" = type_is t "income".
Proof.
  intros Hid Ha.
  assert (Hn : Number_digits (JSString.ofInt (t_amount t)) = t_amount t)
    by (apply Number_ofInt; lia).
  assert (Hsave : TxEdit.save (TxEdit.opened now t) =
    Some {| p_type := effective_type (t_type t); p_amount := t_amount t;
            p_category := TxEdit.f_category (TxEdit.opened now t);
            p_note := or_else (t_note t) "";
            p_date := or_else (t_date t) (toISO now) |}).
  { unfold TxEdit.save, TxForm.submit. cbv zeta.
    cbn [TxEdit.opened TxEdit.f_type TxEdit.f_amount TxEdit.f_note
         TxEdit.f_date]. rewrite Hn.
    destruct (Z.eqb_spec (t_amount t) 0); [lia|].
    destruct (Z.leb_spec (t_amount t) 0); [lia|]. reflexivity. }
  assert (Hcat : t_category t <> ""%string ->
                 TxEdit.f_category (TxEdit.opened now t) = t_category t).
  { intros Hc. cbn [TxEdit.opened TxEdit.f_category].
    destruct (t_category t); [contradiction|reflexivity]. }
  eexists. split; [exact Hsave|]. cbn [p_amount p_type p_note p_date p_category].
  split; [|split; [|split; [|split; [|split; [|split; [|split; [|split]]]]]]];
    try reflexivity.
  - unfold TxEdit.edit_and_save. rewrite Hsave.
    destruct (t_id t); [contradiction|reflexivity].
  - exact Hcat.
  - intros ty n d Hty Hne Hc Hnote Hd Hdne. unfold LocalStore.item.
    cbn [p_amount p_type p_note p_date p_category]. rewrite (Hcat Hc).
    destruct t as [id ty0 a c n0 d0]. cbn in *. subst ty0 n0 d0.
    unfold effective_type, or_else.
    destruct ty; [contradiction|]. destruct d; [contradiction|].
    cbn [JSString.falsy]. destruct n; reflexivity.
  - intros Hty. unfold type_is, LocalStore.item. cbn [t_type p_type].
    rewrite Hty. reflexivity.
  - unfold type_is, LocalStore.item. cbn [t_type p_type].
    unfold effective_type, or_else.
    destruct (t_type t) as [[|c s]|]; cbn [JSString.falsy]; try reflexivity.
Qed.

Lemma edit_round_trip_witness :
  t_id Sample10.bare <> ""%string /\ 0 < t_amount Sample10.bare < 10 ^ 15 /\
  exists patch,
    TxEdit.save (TxEdit.opened Sample5.today Sample10.bare) = Some patch /\
    TxEdit.edit_and_save Sample5.today Sample10.bare
      [Sample10.complete; Sample10.bare] =
      LocalStore.update (t_id Sample10.bare) patch
        [Sample10.complete; Sample10.bare] /\
    p_amount patch = t_amount Sample10.bare /\
    p_type patch = effective_type (t_type Sample10.bare).
Proof.
  assert (H1 : t_id Sample10.bare <> ""%string) by discriminate.
  assert (H2 : 0 < t_amount Sample10.bare < 10 ^ 15) by (cbn; lia).
  split; [exact H1|]. split; [exact H2|].
  destruct (edit_round_trip Sample5.today Sample10.bare
              [Sample10.complete; Sample10.bare] H1 H2)
    as (patch & Hs & He & Ha & Ht & _).
  exists patch. auto.
Defined.

Lemma all_digits_pretty_go x s :
  TransactionForm.all_digits (pretty_N_go x s) = TransactionForm.all_digits s.
Proof.
  revert s. induction (N.lt_wf_0 x) as [x _ IH]; intros s.
  destruct (N.eq_dec x 0%N) as [->|Hx]; [reflexivity|].
  rewrite pretty_N_go_step by lia. rewrite IH by (apply N.div_lt; lia).
  cbn [TransactionForm.all_digits]. now rewrite pretty_N_char_digit.
Qed.

Lemma keep_digits_id s :
  TransactionForm.all_digits s = true -> keep_digits s = s.
Proof.
  induction s as [|c s IH]; [reflexivity|].
  cbn [TransactionForm.all_digits keep_digits]. intros H.
  apply andb_true_iff in H as [Hc Hs]. rewrite Hc, (IH Hs). reflexivity.
Qed.

Lemma keep_digits_ofInt b : 0 <= b -> keep_digits (JSString.ofInt b) = JSString.ofInt b.
Proof.
  intros Hb. apply keep_digits_id.
  unfold JSString.ofInt, pretty, pretty_Z.
  destruct b as [|p|p]; [reflexivity| |lia].
  change (pretty p) with (pretty (N.pos p)). unfold pretty, pretty_N.
  destruct (decide (N.pos p = 0%N)); [discriminate|].
  apply all_digits_pretty_go.
Qed.


